(** * Endlessh GeoIP exporter: lifecycle reconciliation, leaderboard, counter

    A shallow embedding of [endlessh-exporter-geoip.py].  The module-level
    globals of the script become the fields of one [state] record that every
    function takes and returns.  The outside world is explicit:

    - the wall clock is a function [clock : nat -> Z] (microseconds since the
      epoch) read through a tick counter kept in the state, so that each call
      of [datetime.now] gets its own reading;
    - the geolocation service is a function of the call number and the
      address; every request is recorded in the state;
    - the two [journalctl] outputs and the outcome of the file write are the
      inputs of one scrape.

    A pass is modelled from its first line to its last: [journalctl] answers
    or fails with [CalledProcessError], and the fields the patterns capture
    are those the daemon prints.  A pass cut short by another exception or by
    an interrupt, and with it the HTTP handler and [main], are not part of
    the embedding.

    Python dictionaries keep insertion order, and the script depends on it
    (ties in the per-address de-duplication, the stable sort before the
    truncation), so dictionaries are association lists with Python's update
    discipline: assigning to a present key keeps its position.

    Durations and instants are exact integers of microseconds, the resolution
    of [datetime]; latitude and longitude are integers of micro-degrees. *)

From Stdlib Require Import ZArith QArith Lia Ascii String.
From stdpp Require Import base list strings gmap pretty sorting.

(* set_solver clears hypotheses that may be absent *)
Set Warnings "-clear-no-such-hyp".

Local Open Scope Z_scope.
Local Open Scope string_scope.
Local Open Scope list_scope.

(** ** Python dictionaries *)

Module PyDict.
Section Dict.
Context {V : Type}.

(** [d.get(k)] *)
Fixpoint dict_get (k : string) (d : list (string * V)) : option V :=
  match d with
  | [] => None
  | (k', v) :: d' => if decide (k = k') then Some v else dict_get k d'
  end.

(** [k in d] *)
Definition dict_in (k : string) (d : list (string * V)) : bool :=
  match dict_get k d with Some _ => true | None => false end.

(** [d[k] = v]: in place for a present key, appended otherwise *)
Fixpoint dict_set (k : string) (v : V) (d : list (string * V))
  : list (string * V) :=
  match d with
  | [] => [(k, v)]
  | (k', v') :: d' =>
      if decide (k = k') then (k, v) :: d' else (k', v') :: dict_set k v d'
  end.

(** [d.update(e)] *)
Definition dict_update (d e : list (string * V)) : list (string * V) :=
  fold_left (fun acc kv => dict_set kv.1 kv.2 acc) e d.

(** [dict(items)] and the comprehension [{k: v for k, v in items}] *)
Definition dict_of_items (items : list (string * V)) : list (string * V) :=
  dict_update [] items.

Definition dict_keys (d : list (string * V)) : list string := d.*1.

Definition dict_values (d : list (string * V)) : list V := d.*2.

End Dict.
End PyDict.
Export PyDict.

(** ** Sorting

    [sorted] is stable.  [insert_by before x l] puts [x] in front of the
    first element it may precede, so [sorted_by] keeps the original order of
    elements that compare equal. *)

Fixpoint insert_by {A : Type} (before : A -> A -> bool) (x : A) (l : list A)
  : list A :=
  match l with
  | [] => [x]
  | y :: l' => if before x y then x :: y :: l' else y :: insert_by before x l'
  end.

Definition sorted_by {A : Type} (before : A -> A -> bool) (l : list A)
  : list A :=
  foldr (insert_by before) [] l.

(** ** Records *)

Inductive status := trapped | released.

#[global] Instance status_eq_dec : EqDecision status.
Proof. solve_decision. Defined.

(** One entry of [individual_connections] or [hall_of_fame]. *)
Record conn := Conn {
  ip : string;
  port : string;
  fd : string;
  country : string;
  city : string;
  country_code : string;
  started : Z;
  duration : Z;
  conn_status : status
}.

(** [conn['duration'] = d] *)
Definition set_duration (c : conn) (d : Z) : conn :=
  Conn (ip c) (port c) (fd c) (country c) (city c) (country_code c)
       (started c) d (conn_status c).

(** One entry of [ip_locations]. *)
Record geo := Geo {
  geo_country : string;
  geo_country_code : string;
  geo_city : string;
  geo_lat : Z;
  geo_lon : Z
}.

(** The JSON object answered by the geolocation service; a field that is
    absent is [None]. *)
Record api_reply := ApiReply {
  r_status : option string;
  r_country : option string;
  r_countryCode : option string;
  r_city : option string;
  r_lat : option Z;
  r_lon : option Z
}.

(** ** Log lines

    The script never looks at a line except through [re.search] with its
    three patterns, so a line is the triple of those results.  The groups
    are kept as the strings [group(i)] returns; the duration of a close
    match is the value of [float(group(4))], the instant of a timestamp
    match the value of [strptime]. *)

Record accept_match := AcceptMatch {
  a_ip : string;      (* group(1) *)
  a_port : string;    (* group(2) *)
  a_fd : string;      (* group(3) *)
  a_n : string        (* group(4) *)
}.

Record close_match := CloseMatch {
  c_ip : string;      (* group(1) *)
  c_port : string;    (* group(2) *)
  c_fd : string;      (* group(3) *)
  c_time : Z          (* float(group(4)) *)
}.

Record ts_match := TsMatch {
  ts_text : string;   (* group(1) *)
  ts_utc : Z          (* strptime(group(1)) as UTC *)
}.

Record line := Line {
  accept_of : option accept_match;
  close_of : option close_match;
  ts_of : option ts_match
}.

(** A line none of the patterns matches, such as the empty line. *)
Definition blank_line : line := Line None None None.

(** [f"{ip}:{port}"] *)
Definition conn_id (i p : string) : string := i +:+ ":" +:+ p.

(** [s.replace(q, '')] where [q] is the double quote character *)
Fixpoint strip_quotes (s : string) : string :=
  match s with
  | EmptyString => EmptyString
  | String c s' =>
      if decide (c = "034"%char) then strip_quotes s'
      else String c (strip_quotes s')
  end.

(** ** Program state *)

Record state := State {
  individual_connections : list (string * conn);
  hall_of_fame : list (string * conn);
  ip_locations : list (string * geo);
  total_connections_counter : nat;
  seen_log_entries : gset string;
  connections_per_ip : list (string * nat);
  max_trap_duration : Z;
  avg_trap_duration : Q;
  active_connections : nat;
  (* the world as seen so far *)
  ticks : nat;                 (* readings of the clock taken *)
  api_calls : list string;     (* addresses sent to the service, oldest first *)
  stdout : list string;        (* lines printed *)
  hof_file : option string     (* text of HALL_OF_FAME_FILE, if it exists *)
}.

Definition initial_state (file : option string) : state :=
  State [] [] [] 0 ∅ [] 0 0 0 0 [] [] file.

(** [print(msg)] *)
Definition print (msg : string) (st : state) : state :=
  State (individual_connections st) (hall_of_fame st) (ip_locations st)
        (total_connections_counter st) (seen_log_entries st)
        (connections_per_ip st) (max_trap_duration st) (avg_trap_duration st)
        (active_connections st) (ticks st) (api_calls st)
        (stdout st ++ [msg]) (hof_file st).

Definition set_hall_of_fame (h : list (string * conn)) (st : state) : state :=
  State (individual_connections st) h (ip_locations st)
        (total_connections_counter st) (seen_log_entries st)
        (connections_per_ip st) (max_trap_duration st) (avg_trap_duration st)
        (active_connections st) (ticks st) (api_calls st)
        (stdout st) (hof_file st).

Definition set_hof_file (f : option string) (st : state) : state :=
  State (individual_connections st) (hall_of_fame st) (ip_locations st)
        (total_connections_counter st) (seen_log_entries st)
        (connections_per_ip st) (max_trap_duration st) (avg_trap_duration st)
        (active_connections st) (ticks st) (api_calls st)
        (stdout st) f.

(** ** Exceptions *)

Inductive result (A : Type) :=
| Ok (a : A)
| Raised (e : string).

Arguments Ok {A} a.
Arguments Raised {A} e.

Definition bind_result {A B : Type} (r : result A) (k : A -> result B)
  : result B :=
  match r with
  | Ok a => k a
  | Raised e => Raised e
  end.

Notation "x <-? r ; k" := (bind_result r (fun x => k))
  (at level 100, r at next level, right associativity).

(** ** The persisted leaderboard *)

(** One value of the JSON object in the file: a connection whose start is
    the ISO text of the instant. *)
Record stored_conn := StoredConn {
  s_ip : string;
  s_port : string;
  s_fd : string;
  s_country : string;
  s_city : string;
  s_country_code : string;
  s_started : string;
  s_duration : Z;
  s_status : status
}.

(** How a [save_hall_of_fame] ends: everything worked, or [makedirs], [open]
    or [json.dump] raised [e], leaving [remains] as the file. *)
Inductive io_outcome :=
| io_ok
| io_raises (e : string) (remains : option string).

(** What one scrape gets from the outside. *)
Record scrape := Scrape {
  output_6h : option (list line);    (* None: CalledProcessError *)
  output_5min : option (list line);  (* None: CalledProcessError *)
  save_io : io_outcome
}.

Section Exporter.

(** The wall clock, by reading number. *)
Variable clock : nat -> Z.

(** The geolocation service, by request number: [None] when [urlopen],
    [read] or [json.loads] raises (no route, time-out, bad body). *)
Variable geoip_api : nat -> string -> option api_reply.

(** [json.load] of the file text and [json.dumps]. *)
Variable json_load : string -> result (list (string * stored_conn)).
Variable json_dump : list (string * stored_conn) -> string.

(** [datetime.fromisoformat], [datetime.isoformat] and
    [astimezone().strftime("%Y-%m-%d %H:%M:%S")]. *)
Variable fromisoformat : string -> result Z.
Variable isoformat : Z -> string.
Variable strftime_local : Z -> string.

(** *** load_hall_of_fame *)

Definition conn_of_stored (s : stored_conn) (t : Z) : conn :=
  Conn (s_ip s) (s_port s) (s_fd s) (s_country s) (s_city s)
       (s_country_code s) t (s_duration s) (s_status s).

Definition stored_of_conn (c : conn) : stored_conn :=
  StoredConn (ip c) (port c) (fd c) (country c) (city c) (country_code c)
             (isoformat (started c)) (duration c) (conn_status c).

(** The loop over [data.items()] that parses every [started]. *)
Fixpoint parse_started (data : list (string * stored_conn))
  : result (list (string * conn)) :=
  match data with
  | [] => Ok []
  | (k, s) :: rest =>
      t <-? fromisoformat (s_started s) ;
      rest' <-? parse_started rest ;
      Ok ((k, conn_of_stored s t) :: rest')
  end.

(** The body of the [try] block. *)
Definition load_try (text : string) (st : state) : result state :=
  data <-? json_load text ;
  entries <-? parse_started data ;
  Ok (print ("Loaded " +:+ pretty (length entries)
             +:+ " connections from Hall of Fame")
            (set_hall_of_fame entries st)).

Definition load_hall_of_fame (st : state) : state :=
  match hof_file st with
  | Some text =>
      match load_try text st with
      | Ok st' => st'
      | Raised e =>
          set_hall_of_fame [] (print ("Error loading Hall of Fame: " +:+ e) st)
      end
  | None =>
      set_hall_of_fame []
        (print "No existing Hall of Fame found, starting fresh" st)
  end.

(** *** save_hall_of_fame *)

Definition data_to_save (h : list (string * conn))
  : list (string * stored_conn) :=
  fold_left (fun acc kc => dict_set kc.1 (stored_of_conn kc.2) acc) h [].

Definition save_hall_of_fame (io : io_outcome) (st : state) : state :=
  match io with
  | io_ok => set_hof_file (Some (json_dump (data_to_save (hall_of_fame st)))) st
  | io_raises e remains =>
      print ("Error saving Hall of Fame: " +:+ e) (set_hof_file remains st)
  end.

(** *** get_geoip_data *)

Definition fallback_geo : geo := Geo "Unknown" "XX" "Unknown" 0 0.

Definition geo_of_reply (r : api_reply) : geo :=
  Geo (default "Unknown" (r_country r)) (default "XX" (r_countryCode r))
      (default "Unknown" (r_city r)) (default 0 (r_lat r))
      (default 0 (r_lon r)).

(** Returns the location, the cache and the requests made so far. *)
Definition get_geoip_data (i : string) (locs : list (string * geo))
    (calls : list string) : geo * list (string * geo) * list string :=
  match dict_get i locs with
  | Some g => (g, locs, calls)
  | None =>
      match geoip_api (length calls) i with
      | Some r =>
          if decide (r_status r = Some "success") then
            let result := geo_of_reply r in
            (result, dict_set i result locs, calls ++ [i])
          else (fallback_geo, locs, calls ++ [i])
      | None => (fallback_geo, locs, calls ++ [i])
      end
  end.

(** *** parse_endlessh_logs *)

(** First loop: the ports of all CLOSE lines. *)
Definition closed_ports_step (closed : gset string) (l : line) : gset string :=
  match close_of l with
  | Some m => {[c_port m]} ∪ closed
  | None => closed
  end.

Definition closed_ports_of (lines : list line) : gset string :=
  fold_left closed_ports_step lines ∅.

(** What the loop over the ACCEPT lines reads and writes. *)
Record accept_acc := AcceptAcc {
  acc_conns : list (string * conn);     (* individual_connections *)
  acc_per_ip : list (string * nat);     (* connections_per_ip *)
  acc_locs : list (string * geo);       (* ip_locations *)
  acc_ticks : nat;
  acc_calls : list string
}.

(** The record stored for one ACCEPT line. *)
Definition accept_record (closed : gset string) (m : accept_match)
    (g : option geo) (started_time : Z) : conn :=
  Conn (a_ip m) (a_port m) (a_fd m)
       (strip_quotes (default "Unknown" (geo_country <$> g)))
       (strip_quotes (default "Unknown" (geo_city <$> g)))
       (default "XX" (geo_country_code <$> g))
       started_time 0
       (if decide (a_port m ∈ closed) then released else trapped).

Definition accept_step (closed : gset string) (acc : accept_acc) (l : line)
  : accept_acc :=
  match accept_of l with
  | None => acc
  | Some m =>
      let i := a_ip m in
      let started_ticks :=
        match ts_of l with
        | Some t => (ts_utc t, acc_ticks acc)
        | None => (clock (acc_ticks acc), S (acc_ticks acc))
        end in
      let locs_calls :=
        if dict_in i (acc_locs acc) then (acc_locs acc, acc_calls acc)
        else
          let '(_, locs, calls) :=
            get_geoip_data i (acc_locs acc) (acc_calls acc) in
          (locs, calls) in
      let g := dict_get i locs_calls.1 in
      AcceptAcc
        (dict_set (conn_id i (a_port m))
                  (accept_record closed m g started_ticks.1) (acc_conns acc))
        (dict_set i (default 0%nat (dict_get i (acc_per_ip acc)) + 1)%nat
                  (acc_per_ip acc))
        locs_calls.1 started_ticks.2 locs_calls.2
  end.

(** Second pass over the CLOSE lines: durations, and the copy into the
    leaderboard.  The pair is [(individual_connections, hall_of_fame)]. *)
Definition close_step (acc : list (string * conn) * list (string * conn))
    (l : line) : list (string * conn) * list (string * conn) :=
  match close_of l with
  | None => acc
  | Some m =>
      let cid := conn_id (c_ip m) (c_port m) in
      match dict_get cid acc.1 with
      | Some c =>
          let c' := set_duration c (c_time m) in
          (dict_set cid c' acc.1, dict_set cid c' acc.2)
      | None => acc
      end
  end.

(** The loop over [trapped_connections].  The comprehension that builds
    [trapped_connections] shares its record objects with
    [individual_connections], so the assignment to [conn['duration']]
    reaches both: the loop is run on [individual_connections], skipping the
    records the comprehension leaves out.  Each iteration reads the clock. *)
Fixpoint refresh_trapped (t : nat) (conns : list (string * conn))
  : list (string * conn) * nat :=
  match conns with
  | [] => ([], t)
  | (k, c) :: rest =>
      if decide (conn_status c = trapped) then
        let r := refresh_trapped (S t) rest in
        ((k, set_duration c (clock t - started c)) :: r.1, r.2)
      else
        let r := refresh_trapped t rest in
        ((k, c) :: r.1, r.2)
  end.

Definition is_trapped (kc : string * conn) : bool :=
  bool_decide (conn_status kc.2 = trapped).

(** De-duplication of the leaderboard: the longest connection per address.
    [ip_to_best_conn] maps an address to a pair [(conn_id, conn)]. *)
Definition best_step (best : list (string * (string * conn)))
    (kc : string * conn) : list (string * (string * conn)) :=
  match dict_get (ip kc.2) best with
  | None => dict_set (ip kc.2) kc best
  | Some b =>
      if decide (duration b.2 < duration kc.2)
      then dict_set (ip kc.2) kc best
      else best
  end.

Definition ip_to_best_conn (hall : list (string * conn))
  : list (string * (string * conn)) :=
  fold_left best_step hall [].

Definition dedup_hall (hall : list (string * conn)) : list (string * conn) :=
  dict_of_items (dict_values (ip_to_best_conn hall)).

(** [sorted(hall_of_fame.items(), key=duration, reverse=True)] *)
Definition longer_first (x y : string * conn) : bool :=
  bool_decide (duration y.2 <= duration x.2).

Definition sorted_hall (hall : list (string * conn)) : list (string * conn) :=
  sorted_by longer_first hall.

Definition trim_hall (hall : list (string * conn)) : list (string * conn) :=
  if decide (100 < length hall)%nat
  then dict_of_items (take 100 (sorted_hall hall))
  else hall.

(** Lines 225 to 241: what happens to the leaderboard once the candidates
    of the pass are in. *)
Definition merge_hall (hall : list (string * conn)) : list (string * conn) :=
  trim_hall (dedup_hall hall).

(** [max(l)] and the mean, with the script's value for an empty list. *)
Definition py_max (l : list Z) : Z :=
  match l with
  | [] => 0
  | x :: l' => fold_left Z.max l' x
  end.

Definition py_sum (l : list Z) : Z := fold_left Z.add l 0.

Definition py_mean (l : list Z) : Q :=
  match l with
  | [] => 0%Q
  | _ => Qmake (py_sum l) (Pos.of_nat (length l))
  end.

(** Last loop: the ACCEPT lines of the short window feed the counter.  The
    variable the script calls [fd] is [match.group(2)]. *)
Definition count_step (acc : gset string * nat) (l : line)
  : gset string * nat :=
  match accept_of l with
  | None => acc
  | Some m =>
      match ts_of l with
      | None => acc
      | Some t =>
          let fd := a_port m in
          let log_id := ts_text t +:+ "_" +:+ fd in
          if decide (log_id ∈ acc.1) then acc
          else ({[log_id]} ∪ acc.1, S acc.2)
      end
  end.

Definition cleanup_seen (seen : gset string) : gset string :=
  if decide (1000 < size seen)%nat then ∅ else seen.

(** The reconciled working set: [individual_connections] as it stands after
    the three loops over the long window and the refresh of the trapped
    connections (line 223), with the leaderboard holding the candidates. *)
Record reconciled := Reconciled {
  rec_conns : list (string * conn);
  rec_hall : list (string * conn);
  rec_acc : accept_acc
}.

Definition reconcile (lines : list line) (st : state) : reconciled :=
  (* individual_connections.clear(), connections_per_ip.clear(),
     current_time = datetime.now() *)
  let acc0 := AcceptAcc [] [] (ip_locations st) (S (ticks st)) (api_calls st) in
  let closed_ports := closed_ports_of lines in
  let acc := fold_left (accept_step closed_ports) lines acc0 in
  let ch := fold_left close_step lines (acc_conns acc, hall_of_fame st) in
  let r := refresh_trapped (acc_ticks acc) ch.1 in
  Reconciled r.1 ch.2
    (AcceptAcc r.1 (acc_per_ip acc) (acc_locs acc) r.2 (acc_calls acc)).

Definition parse_endlessh_logs (sc : scrape) (st : state) : state :=
  match output_6h sc with
  | None => st
  | Some lines_6h =>
      let lines_5min := default [blank_line] (output_5min sc) in
      let r := reconcile lines_6h st in
      let trapped_connections := filter is_trapped (rec_conns r) in
      let hall := merge_hall (rec_hall r) in
      let st1 :=
        save_hall_of_fame (save_io sc)
          (State (rec_conns r) hall (acc_locs (rec_acc r))
                 (total_connections_counter st) (seen_log_entries st)
                 (acc_per_ip (rec_acc r))
                 (max_trap_duration st) (avg_trap_duration st)
                 (active_connections st)
                 (acc_ticks (rec_acc r)) (acc_calls (rec_acc r))
                 (stdout st) (hof_file st)) in
      let display_connections := dict_update trapped_connections hall in
      let all_durations := duration <$> dict_values display_connections in
      let counted :=
        fold_left count_step lines_5min
                  (seen_log_entries st, total_connections_counter st) in
      State display_connections hall (ip_locations st1)
            counted.2 (cleanup_seen counted.1)
            (connections_per_ip st1)
            (py_max all_durations) (py_mean all_durations)
            (length (filter is_trapped display_connections))
            (ticks st1) (api_calls st1) (stdout st1) (hof_file st1)
  end.

(** *** generate_metrics

    The exposition is kept as the list of its samples, labels and value
    unformatted, in the order the script appends them. *)

Inductive sample :=
| endlessh_total_connections_total (v : nat)
| endlessh_total_connections (v : nat)
| endlessh_active_connections (v : nat)
| endlessh_max_trap_duration_seconds (v : Z)
| endlessh_avg_trap_duration_seconds (v : Q)
| endlessh_connection_info (l_fd l_ip l_port l_country l_city : string)
    (l_status : status) (l_started : string) (sort_order ip_group : nat)
    (v : Z)
| endlessh_connections_per_ip (l_ip l_country l_country_code l_city : string)
    (latitude longitude : Z) (max_trap : Z) (avg_trap : Q) (v : nat)
| endlessh_unique_ips (v : nat)
| endlessh_connections_per_country (l_country : string) (v : nat).

Definition status_priority (c : conn) : Z :=
  if decide (conn_status c = trapped) then 1 else 0.

Definition sort_key (item : string * conn) : Z * Z :=
  (- status_priority item.2, - duration item.2).

(** [sort_key(x) <= sort_key(y)] on tuples *)
Definition sort_key_le (x y : string * conn) : bool :=
  bool_decide ((sort_key x).1 < (sort_key y).1)
  || (bool_decide ((sort_key x).1 = (sort_key y).1)
      && bool_decide ((sort_key x).2 <= (sort_key y).2)).

(** The loop over [enumerate(sorted_connections)]. *)
Fixpoint connection_info_loop (idx : nat) (ip_group_map : list (string * nat))
    (current_group : nat) (last_ip : option string)
    (items : list (string * conn)) : list sample :=
  match items with
  | [] => []
  | (_, c) :: rest =>
      let current_ip := ip c in
      let groups :=
        if decide (Some current_ip = last_ip) then (ip_group_map, current_group)
        else if dict_in current_ip ip_group_map
             then (ip_group_map, current_group)
             else (dict_set current_ip current_group ip_group_map,
                   S current_group) in
      endlessh_connection_info (fd c) (ip c) (port c) (country c) (city c)
        (conn_status c) (strftime_local (started c)) idx
        (default 0%nat (dict_get current_ip groups.1)) (duration c)
      :: connection_info_loop (S idx) groups.1 groups.2 (Some current_ip) rest
  end.

(** [ip_durations]: the durations of the displayed connections by address. *)
Definition ip_durations_step (acc : list (string * list Z))
    (kc : string * conn) : list (string * list Z) :=
  dict_set (ip kc.2)
           (default [] (dict_get (ip kc.2) acc) ++ [duration kc.2]) acc.

Definition ip_durations_of (conns : list (string * conn))
  : list (string * list Z) :=
  fold_left ip_durations_step conns [].

Definition per_ip_sample (locs : list (string * geo))
    (ip_durations : list (string * list Z)) (kc : string * nat) : sample :=
  let g := dict_get kc.1 locs in
  let durations := default [0] (dict_get kc.1 ip_durations) in
  endlessh_connections_per_ip kc.1
    (strip_quotes (default "Unknown" (geo_country <$> g)))
    (default "XX" (geo_country_code <$> g))
    (strip_quotes (default "Unknown" (geo_city <$> g)))
    (default 0 (geo_lat <$> g)) (default 0 (geo_lon <$> g))
    (py_max durations) (py_mean durations) kc.2.

(** [countries]: connections per country. *)
Definition countries_step (locs : list (string * geo))
    (acc : list (string * nat)) (kc : string * nat) : list (string * nat) :=
  let country := default "Unknown" (geo_country <$> dict_get kc.1 locs) in
  dict_set country (default 0%nat (dict_get country acc) + kc.2)%nat acc.

Definition countries_of (locs : list (string * geo))
    (per_ip : list (string * nat)) : list (string * nat) :=
  fold_left (countries_step locs) per_ip [].

Definition per_country_sample (kc : string * nat) : sample :=
  endlessh_connections_per_country (strip_quotes kc.1) kc.2.

(** The samples rendered from a state. *)
Definition render (st : state) : list sample :=
  [ endlessh_total_connections_total (total_connections_counter st);
    endlessh_total_connections (length (individual_connections st));
    endlessh_active_connections (active_connections st);
    endlessh_max_trap_duration_seconds (max_trap_duration st);
    endlessh_avg_trap_duration_seconds (avg_trap_duration st) ]
  ++ connection_info_loop 0 [] 0 None
       (sorted_by sort_key_le (individual_connections st))
  ++ (per_ip_sample (ip_locations st)
        (ip_durations_of (individual_connections st))
      <$> connections_per_ip st)
  ++ [ endlessh_unique_ips (length (connections_per_ip st)) ]
  ++ (per_country_sample
      <$> countries_of (ip_locations st) (connections_per_ip st)).

Definition generate_metrics (sc : scrape) (st : state) : list sample * state :=
  let st' := parse_endlessh_logs sc st in
  (render st', st').

(** The exporter over a sequence of scrapes. *)
Definition run (scs : list scrape) (st : state) : state :=
  fold_left (fun s sc => (generate_metrics sc s).2) scs st.

End Exporter.

(** * Vocabulary of the statements *)

(** A property of records that assigning the duration does not disturb. *)
Definition duration_blind (P : string * conn → Prop) : Prop :=
  ∀ k c d, P (k, c) → P (k, set_duration c d).

(** The spec's words for the index of terminated connections: the pairs
    (origin address, origin port) of the close events of the window. *)
Definition terminated_index_spec (lines : list line) : list (string * string) :=
  omap (λ l, (λ m, (c_ip m, c_port m)) <$> close_of l) lines.

(** The spec's words for the classification: a record of the working set is
    terminated exactly when its pair is in that index. *)
Definition classified_by_pair_index (clock : nat -> Z)
    (geoip_api : nat -> string -> option api_reply)
    (lines : list line) (st : state) : Prop :=
  ∀ k r, dict_get k (rec_conns (reconcile clock geoip_api lines st)) = Some r →
    (conn_status r = released ↔ (ip r, port r) ∈ terminated_index_spec lines).

(** The spec's words for the merge: of the previously stored entries and
    the terminated candidates of an origin address exactly one entry
    remains, and its duration is the greatest among them. *)
Definition longest_of_origin_survives
    (stored candidates merged : list (string * conn)) (i : string) : Prop :=
  ∃ best,
    filter (λ e : string * conn, ip e.2 = i) merged = [best]
    ∧ (∀ e, e ∈ stored ++ candidates → ip e.2 = i →
            duration e.2 <= duration best.2)
    ∧ (∃ e, e ∈ stored ++ candidates ∧ ip e.2 = i
            ∧ duration e.2 = duration best.2).

(** The terminated records of a working set. *)
Definition terminated_records (conns : list (string * conn))
  : list (string * conn) :=
  filter (λ kc : string * conn, conn_status kc.2 = released) conns.

(** [x] may stand before [y] on the leaderboard: it did not last less. *)
Definition not_shorter (x y : string * conn) : Prop :=
  duration y.2 <= duration x.2.

(** What [ip_to_best_conn] holds once the entries [seen] went through the
    loop: per address one of the entries seen, none of which lasted longer. *)
Definition best_of (seen : list (string * conn))
    (best : list (string * (string * conn))) : Prop :=
  NoDup best.*1
  ∧ (∀ i kc, dict_get i best = Some kc →
       ip kc.2 = i ∧ kc ∈ seen
       ∧ ∀ e, e ∈ seen → ip e.2 = i → duration e.2 <= duration kc.2)
  ∧ (∀ e, e ∈ seen → is_Some (dict_get (ip e.2) best)).

(** The last close event of the window under a connection id. *)
Fixpoint last_close (k : string) (lines : list line) : option close_match :=
  match lines with
  | [] => None
  | l :: rest =>
      match last_close k rest with
      | Some m => Some m
      | None =>
          match close_of l with
          | Some m =>
              if decide (conn_id (c_ip m) (c_port m) = k) then Some m else None
          | None => None
          end
      end
  end.

(** Two states with the same globals: they may differ in what was printed
    and in the file. *)
Definition same_memory (a b : state) : Prop :=
  individual_connections a = individual_connections b
  ∧ hall_of_fame a = hall_of_fame b
  ∧ ip_locations a = ip_locations b
  ∧ total_connections_counter a = total_connections_counter b
  ∧ seen_log_entries a = seen_log_entries b
  ∧ connections_per_ip a = connections_per_ip b
  ∧ max_trap_duration a = max_trap_duration b
  ∧ avg_trap_duration a = avg_trap_duration b
  ∧ active_connections a = active_connections b.

(** Is the line an open event of address [i]? *)
Definition is_open_of (i : string) (l : line) : Prop :=
  a_ip <$> accept_of l = Some i.

#[global] Instance is_open_of_dec i l : Decision (is_open_of i l).
Proof. unfold is_open_of. apply _. Defined.

(** The number of open events of address [i] in a window. *)
Definition opens_of (i : string) (lines : list line) : nat :=
  length (filter (is_open_of i) lines).

(** The country the cache gives for an address. *)
Definition country_of (locs : list (string * geo)) (i : string) : string :=
  default "Unknown" (geo_country <$> dict_get i locs).

(** The series of an exposition, by name. *)
Definition series_per_ip (samples : list sample) : list (string * nat) :=
  omap (λ s, match s with
             | endlessh_connections_per_ip i _ _ _ _ _ _ _ v => Some (i, v)
             | _ => None
             end) samples.

Definition series_unique_ips (samples : list sample) : list nat :=
  omap (λ s, match s with
             | endlessh_unique_ips v => Some v
             | _ => None
             end) samples.

Definition series_per_country (samples : list sample) : list (string * nat) :=
  omap (λ s, match s with
             | endlessh_connections_per_country c v => Some (c, v)
             | _ => None
             end) samples.

Definition series_connection_info (samples : list sample)
  : list (string * Z) :=
  omap (λ s, match s with
             | endlessh_connection_info _ i _ _ _ _ _ _ _ v => Some (i, v)
             | _ => None
             end) samples.

(** The address group of the patterns holds digits and dots: no colon. *)
Fixpoint colon_free (s : string) : bool :=
  match s with
  | EmptyString => true
  | String c s' => if decide (c = ":"%char) then false else colon_free s'
  end.

Definition window_ok (lines : list line) : Prop :=
  ∀ l, l ∈ lines →
    (∀ m, accept_of l = Some m → colon_free (a_ip m) = true)
    ∧ (∀ m, close_of l = Some m → colon_free (c_ip m) = true).

(** Every open line of the window carries a timestamp. *)
Definition all_stamped (lines : list line) : Prop :=
  ∀ l m, l ∈ lines → accept_of l = Some m → is_Some (ts_of l).

(** Two records of one connection, as two scans of one text may build
    them: the same but for the location labels; [live] leaves out the
    duration of active records, [starts] takes the start in. *)
Definition agree (live starts : bool) (a b : conn) : Prop :=
  ip a = ip b ∧ port a = port b ∧ fd a = fd b
  ∧ conn_status a = conn_status b
  ∧ (live = false ∨ conn_status a = released → duration a = duration b)
  ∧ (starts = true → started a = started b).

Definition sets_agree (live starts : bool) (d e : list (string * conn))
  : Prop :=
  Forall2 (λ x y, x.1 = y.1 ∧ agree live starts x.2 y.2) d e.

(** The identifier the counter loop computes for a line, when the line is an
    open event with a timestamp. *)
Definition log_id_of (l : line) : option string :=
  match accept_of l, ts_of l with
  | Some m, Some t => Some (ts_text t +:+ "_" +:+ a_port m)
  | _, _ => None
  end.

Definition window_ids (lines : list line) : gset string :=
  list_to_set (omap log_id_of lines).

(** The lines the counter loop of a scrape reads. *)
Definition short_window (sc : scrape) : list line :=
  match output_6h sc with
  | None => []
  | Some _ => default [blank_line] (output_5min sc)
  end.

(** ** A sample world *)

Module Sample.

(** One reading per second from 2025-10-14T16:17:13Z. *)
Definition clock (n : nat) : Z := 1760458633000000 + 1000000 * Z.of_nat n.

(** The geolocation service does not answer. *)
Definition api_down (n : nat) (i : string) : option api_reply := None.

(** An ACCEPT line and a CLOSE line as the daemon prints them, with their
    timestamp. *)
Definition accept_line (i p f ts : string) (t : Z) : line :=
  Line (Some (AcceptMatch i p f "1")) None (Some (TsMatch ts t)).

Definition close_line (i p f : string) (d : Z) (ts : string) (t : Z) : line :=
  Line None (Some (CloseMatch i p f d)) (Some (TsMatch ts t)).

Definition t0 : Z := 1760458000000000.

(** An open event, and a close event of another address on the same port. *)
Definition port_collision : list line :=
  [ accept_line "203.0.113.5" "40001" "4" "2025-10-14T16:06:40" t0;
    close_line "198.51.100.7" "40001" "5" 734500000
               "2025-10-14T16:10:00" (t0 + 200000000) ].

(** Two open events with one timestamp and one descriptor, on two ports. *)
Definition same_descriptor : list line :=
  [ accept_line "203.0.113.5" "40001" "4" "2025-10-14T16:06:40" t0;
    accept_line "203.0.113.9" "40002" "4" "2025-10-14T16:06:40" t0 ].

(** Two open events with one timestamp and one port, on two descriptors. *)
Definition same_port : list line :=
  [ accept_line "203.0.113.5" "40001" "4" "2025-10-14T16:06:40" t0;
    accept_line "203.0.113.9" "40001" "5" "2025-10-14T16:06:40" t0 ].

(** A scrape whose two windows hold the same lines and whose write works. *)
Definition scrape_of (lines : list line) : scrape :=
  Scrape (Some lines) (Some lines) io_ok.

Definition json_dump (data : list (string * stored_conn)) : string :=
  pretty (length data).

Definition isoformat (t : Z) : string := pretty t.

(** [n] open events of one second on ports 0, 1, ... *)
Definition burst (n : nat) : list line :=
  (λ k, accept_line "203.0.113.5" (pretty k) "4" "2025-10-14T16:06:40" t0)
  <$> seq 0 n.

(** One later open event. *)
Definition late_open : list line :=
  [ accept_line "203.0.113.9" "40002" "4" "2025-10-14T16:07:10"
                (t0 + 30000000) ].

Definition run_sample (scs : list scrape) (st : state) : state :=
  run clock api_down json_dump isoformat pretty scs st.

(** Three leaderboard entries, two of them of one address. *)
Definition entry (i p : string) (d : Z) : string * conn :=
  (conn_id i p, Conn i p "4" "Unknown" "Unknown" "XX" t0 d released).

Definition small_hall : list (string * conn) :=
  [ entry "203.0.113.5" "40001" 12000000;
    entry "203.0.113.9" "40002" 734500000;
    entry "203.0.113.5" "40003" 90000000 ].

(** [n] leaderboard entries of [n] addresses, with durations 1 s, 2 s, ... *)
Definition wide_hall (n : nat) : list (string * conn) :=
  (λ k, entry ("198.51.100." +:+ pretty k) "40001"
              (1000000 * (1 + Z.of_nat k)))
  <$> seq 0 n.

(** An open event without close event, and an open event closed after
    734.5 s. *)
Definition open_and_closed : list line :=
  [ accept_line "203.0.113.5" "40001" "4" "2025-10-14T16:06:40" t0;
    accept_line "203.0.113.9" "40002" "5" "2025-10-14T16:06:41"
                (t0 + 1000000);
    close_line "203.0.113.9" "40002" "5" 734500000
               "2025-10-14T16:18:55" (t0 + 735500000) ].

(** A [json.load] that rejects every text, and an ISO parser. *)
Definition json_reject (text : string)
  : result (list (string * stored_conn)) :=
  Raised "Expecting value: line 1 column 1 (char 0)".

Definition fromisoformat (text : string) : result Z :=
  Raised ("Invalid isoformat string: " +:+ text).

(** A service that answers with a failure status until its third request. *)
Definition api_flaky (n : nat) (i : string) : option api_reply :=
  if decide (n < 2)%nat
  then Some (ApiReply (Some "fail") None None None None None)
  else Some (ApiReply (Some "success") (Some "Germany") (Some "DE")
                      (Some "Berlin") (Some 52520000) (Some 13405000)).

(** Two open events of one address. *)
Definition same_origin_twice : list line :=
  [ accept_line "203.0.113.5" "40001" "4" "2025-10-14T16:06:40" t0;
    accept_line "203.0.113.5" "40007" "5" "2025-10-14T16:06:45"
                (t0 + 5000000) ].

(** A leaderboard read from the file, of an address with no open event in
    the window. *)
Definition old_record : list (string * conn) :=
  [ entry "192.0.2.77" "51000" 3600000000 ].

Definition with_old_record : state :=
  set_hall_of_fame old_record (initial_state None).

(** An open event on a line without timestamp, closed later. *)
Definition unstamped : list line :=
  [ Line (Some (AcceptMatch "203.0.113.5" "40001" "4" "1")) None None;
    close_line "203.0.113.5" "40001" "4" 12000000
               "2025-10-14T16:06:52" (t0 + 12000000) ].

(** A leaderboard read from the file, with an hour-long stay of
    203.0.113.5 from port 40001 on an earlier day. *)
Definition long_stay_entry : string * conn :=
  (conn_id "203.0.113.5" "40001",
   Conn "203.0.113.5" "40001" "4" "Unknown" "Unknown" "XX"
        (t0 - 86400000000) 3600000000 released).

Definition long_stay : state :=
  set_hall_of_fame [ long_stay_entry ] (initial_state None).

(** The address comes back from the port [p] and leaves after 12 s. *)
Definition short_return (p : string) : list line :=
  [ accept_line "203.0.113.5" p "6" "2025-10-14T16:06:40" t0;
    close_line "203.0.113.5" p "6" 12000000
               "2025-10-14T16:06:52" (t0 + 12000000) ].

End Sample.

(** The spec's words for the second of two scans of one text: the counter
    does not move, the working set is the same but for the duration of
    active records, and an open event with no close event of its key is
    active. *)
Definition rescan_keeps_counter (sc : scrape) (st : state) : Prop :=
  total_connections_counter (Sample.run_sample [sc; sc] st)
  = total_connections_counter (Sample.run_sample [sc] st).

Definition rescan_keeps_records (api : nat -> string -> option api_reply)
    (lines : list line) (st : state) : Prop :=
  ∀ st' k a b,
    st' = parse_endlessh_logs Sample.clock api Sample.json_dump
            Sample.isoformat (Sample.scrape_of lines) st →
    dict_get k (rec_conns (reconcile Sample.clock api lines st)) = Some a →
    dict_get k (rec_conns (reconcile Sample.clock api lines st')) = Some b →
    a = b ∨ (conn_status a = trapped ∧ set_duration a 0 = set_duration b 0).

Definition unclosed_open_is_active (lines : list line) (st : state) : Prop :=
  ∀ l m r,
    l ∈ lines → accept_of l = Some m →
    (∀ l' m', l' ∈ lines → close_of l' = Some m' →
              (c_ip m', c_port m') ≠ (a_ip m, a_port m)) →
    dict_get (conn_id (a_ip m) (a_port m))
             (rec_conns (reconcile Sample.clock Sample.api_down lines st))
    = Some r →
    conn_status r = trapped.

(** The spec's words for the counter over two consecutive scrapes: no
    identifier, hence no line, is counted more than once. *)
Definition counted_at_most_once (st : state) (sc1 sc2 : scrape) : Prop :=
  (total_connections_counter (Sample.run_sample [sc1; sc2] st)
   ≤ total_connections_counter st
     + size (window_ids (short_window sc1) ∪ window_ids (short_window sc2)))%nat.

(** * Vocabulary of the further properties *)

(** The ACCEPT loop of a pass over a window, from a state. *)
Definition accept_pass (clock : nat -> Z)
    (geoip_api : nat -> string -> option api_reply)
    (lines : list line) (st : state) : accept_acc :=
  fold_left (accept_step clock geoip_api (closed_ports_of lines)) lines
    (AcceptAcc [] [] (ip_locations st) (S (ticks st)) (api_calls st)).

(** Is the line an open event? *)
Definition is_open (l : line) : Prop := is_Some (accept_of l).

#[global] Instance is_open_dec l : Decision (is_open l).
Proof. unfold is_open. apply _. Defined.

Module SampleFile.

(** A file reader that gives back the sample leaderboard, and an ISO parser
    that gives back its instant. *)
Definition json_load (text : string) : result (list (string * stored_conn)) :=
  Ok (data_to_save Sample.isoformat Sample.old_record).

Definition fromisoformat (text : string) : result Z := Ok Sample.t0.

(** A service that knows one address. *)
Definition api_up (n : nat) (i : string) : option api_reply :=
  Some (ApiReply (Some "success") (Some "Germany") (Some "DE")
                 (Some "Berlin") (Some 52520000) (Some 13405000)).

End SampleFile.

(** A leaderboard with distinct connection ids and at most one entry per
    origin address. *)
Definition one_per_origin (hall : list (string * conn)) : Prop :=
  NoDup hall.*1 ∧ NoDup ((λ kc : string * conn, ip kc.2) <$> hall).

(** One connection-info sample: the labels the dashboard sorts and groups
    by, and the value. *)
Record row := Row {
  row_ip : string;
  row_status : status;
  row_duration : Z;
  row_sort_order : nat;
  row_group : nat
}.

Definition series_rows (samples : list sample) : list row :=
  omap (λ s, match s with
             | endlessh_connection_info _ i _ _ _ st _ so g v =>
                 Some (Row i st v so g)
             | _ => None
             end) samples.

(** The order of the table: active before terminated, and within one
    status the longer first. *)
Definition ranked_before (a b : status * Z) : Prop :=
  (a.1 = trapped ∧ b.1 = released) ∨ (a.1 = b.1 ∧ b.2 <= a.2).

(** The group map of the loop over the table: no address twice, no group
    twice, every group below the next one to give, and the address of the
    row before is in it. *)
Definition groups_ok (ip_group_map : list (string * nat)) (current_group : nat)
    (last_ip : option string) : Prop :=
  (∀ i g, dict_get i ip_group_map = Some g → (g < current_group)%nat)
  ∧ (∀ i j g, dict_get i ip_group_map = Some g →
              dict_get j ip_group_map = Some g → i = j)
  ∧ (∀ i, last_ip = Some i → is_Some (dict_get i ip_group_map)).

(** Does the string hold a double quote? *)
Fixpoint has_quote (s : string) : bool :=
  match s with
  | EmptyString => false
  | String c s' => if decide (c = "034"%char) then true else has_quote s'
  end.

(** The labels of the rollup samples that the script strips: country and
    city of a per-address sample, country of a per-country sample. *)
Definition stripped_labels_clean (s : sample) : Prop :=
  match s with
  | endlessh_connections_per_ip _ l_country _ l_city _ _ _ _ _ =>
      has_quote l_country = false ∧ has_quote l_city = false
  | endlessh_connections_per_country l_country _ =>
      has_quote l_country = false
  | _ => True
  end.

(** The last open event of the window under a connection id, with its
    line. *)
Fixpoint last_open (k : string) (lines : list line)
  : option (line * accept_match) :=
  match lines with
  | [] => None
  | l :: rest =>
      match last_open k rest with
      | Some lm => Some lm
      | None =>
          match accept_of l with
          | Some m =>
              if decide (conn_id (a_ip m) (a_port m) = k)
              then Some (l, m) else None
          | None => None
          end
      end
  end.

(** * Properties *)

(** ** Dictionaries *)

Section DictFacts.
Context {V : Type}.
Implicit Types (d e : list (string * V)) (k : string) (v : V).

Lemma dict_get_set_eq k v d : dict_get k (dict_set k v d) = Some v.
Proof.
  induction d as [|[k' v'] d IH]; simpl.
  - by rewrite decide_True.
  - destruct (decide (k = k')) as [->|Hne]; simpl.
    + by rewrite decide_True.
    + by rewrite decide_False.
Qed.

Lemma dict_get_set_ne k k' v d :
  k ≠ k' → dict_get k' (dict_set k v d) = dict_get k' d.
Proof.
  intros Hne. induction d as [|[k0 v0] d IH]; simpl.
  - by rewrite decide_False.
  - destruct (decide (k = k0)) as [->|Hk]; simpl.
    + by rewrite !decide_False.
    + destruct (decide (k' = k0)); [done | apply IH].
Qed.

Lemma dict_get_set k k' v d :
  dict_get k' (dict_set k v d)
  = if decide (k = k') then Some v else dict_get k' d.
Proof.
  destruct (decide (k = k')) as [->|Hne].
  - apply dict_get_set_eq.
  - by apply dict_get_set_ne.
Qed.

Lemma dict_get_Some_elem k v d : dict_get k d = Some v → (k, v) ∈ d.
Proof.
  induction d as [|[k' v'] d IH]; simpl; [done|].
  destruct (decide (k = k')) as [->|Hne].
  - intros [= ->]. apply list_elem_of_here.
  - intros H. apply list_elem_of_further. by apply IH.
Qed.

Lemma dict_get_None k d : dict_get k d = None ↔ k ∉ d.*1.
Proof.
  induction d as [|[k' v'] d IH]; simpl.
  - split; [intros _; apply not_elem_of_nil | done].
  - rewrite not_elem_of_cons. destruct (decide (k = k')) as [->|Hne].
    + split; [done | intros [? _]; done].
    + rewrite IH. tauto.
Qed.

Lemma dict_get_is_Some k d : is_Some (dict_get k d) ↔ k ∈ d.*1.
Proof.
  destruct (dict_get k d) as [v|] eqn:E.
  - split; [intros _ | by eauto].
    apply dict_get_Some_elem in E.
    apply list_elem_of_fmap. by exists (k, v).
  - apply dict_get_None in E. split; [by intros [? ?] | done].
Qed.

Lemma dict_get_elem_NoDup k v d :
  NoDup d.*1 → (k, v) ∈ d → dict_get k d = Some v.
Proof.
  induction d as [|[k' v'] d IH]; simpl.
  - intros _ H. by apply elem_of_nil in H.
  - rewrite NoDup_cons. intros [Hk Hnd] [[= -> ->]|Hin]%elem_of_cons.
    + by rewrite decide_True.
    + rewrite decide_False; [by apply IH|].
      intros ->. apply Hk. apply list_elem_of_fmap. by exists (k', v).
Qed.

Lemma dict_in_true k d : dict_in k d = true ↔ k ∈ d.*1.
Proof.
  unfold dict_in. rewrite <- dict_get_is_Some.
  destruct (dict_get k d); split; try done; try by eauto.
Qed.

Lemma dict_in_false k d : dict_in k d = false ↔ dict_get k d = None.
Proof. unfold dict_in. destruct (dict_get k d); split; done. Qed.

(** Assigning keeps the keys in place, or appends a new one. *)
Lemma dict_set_keys k v d :
  (dict_set k v d).*1 = if dict_in k d then d.*1 else d.*1 ++ [k].
Proof.
  unfold dict_in. induction d as [|[k' v'] d IH]; csimpl; [done|].
  destruct (decide (k = k')) as [->|Hne]; csimpl; [done|].
  rewrite IH. by destruct (dict_get k d).
Qed.

Lemma dict_set_NoDup k v d : NoDup d.*1 → NoDup (dict_set k v d).*1.
Proof.
  intros Hnd. rewrite dict_set_keys.
  destruct (dict_in k d) eqn:E; [done|].
  apply NoDup_app. split_and!; [done | | apply NoDup_singleton].
  intros x Hx ->%list_elem_of_singleton.
  apply dict_in_false, dict_get_None in E. done.
Qed.

Lemma dict_set_length k v d :
  length (dict_set k v d)
  = if dict_in k d then length d else S (length d).
Proof.
  rewrite <- (length_fmap fst), dict_set_keys.
  destruct (dict_in k d); rewrite ?length_app, length_fmap; simpl; lia.
Qed.

Lemma dict_set_elem k v d kv :
  kv ∈ dict_set k v d → kv = (k, v) ∨ kv ∈ d.
Proof.
  induction d as [|[k' v'] d IH]; simpl.
  - intros ->%list_elem_of_singleton. by left.
  - destruct (decide (k = k')) as [->|Hne].
    + intros [->|H]%elem_of_cons; [by left|].
      right. by apply list_elem_of_further.
    + intros [->|H]%elem_of_cons.
      * right. apply list_elem_of_here.
      * destruct (IH H); [by left | right; by apply list_elem_of_further].
Qed.

Lemma dict_set_Forall (P : string * V → Prop) k v d :
  P (k, v) → Forall P d → Forall P (dict_set k v d).
Proof.
  intros HP Hd. apply Forall_forall. intros kv Hkv.
  apply dict_set_elem in Hkv as [->|Hin]; [done|].
  by eapply Forall_forall in Hd.
Qed.

(** Setting a fresh key appends. *)
Lemma dict_set_fresh k v d : k ∉ d.*1 → dict_set k v d = d ++ [(k, v)].
Proof.
  induction d as [|[k' v'] d IH]; simpl; [done|].
  rewrite not_elem_of_cons. intros [Hne Hk].
  rewrite decide_False by done. by rewrite IH.
Qed.

Lemma dict_update_app d e1 e2 :
  dict_update d (e1 ++ e2) = dict_update (dict_update d e1) e2.
Proof. unfold dict_update. by rewrite fold_left_app. Qed.

Lemma dict_update_NoDup d e : NoDup d.*1 → NoDup (dict_update d e).*1.
Proof.
  revert d. induction e as [|[k v] e IH]; intros d Hd; simpl; [done|].
  apply IH. by apply dict_set_NoDup.
Qed.

Lemma dict_of_items_NoDup (items : list (string * V)) :
  NoDup (dict_of_items items).*1.
Proof. apply dict_update_NoDup. simpl. apply NoDup_nil_2. Qed.

(** Appending items whose keys are new and distinct is concatenation. *)
Lemma dict_update_fresh d e :
  NoDup (d ++ e).*1 → dict_update d e = d ++ e.
Proof.
  revert d. induction e as [|[k v] e IH]; intros d Hnd; simpl.
  - by rewrite app_nil_r.
  - unfold dict_update in *. simpl.
    rewrite dict_set_fresh.
    + rewrite IH; rewrite <- app_assoc; done.
    + rewrite fmap_app in Hnd. simpl in Hnd.
      apply NoDup_app in Hnd as (_ & Hdis & _).
      intros Hk. apply (Hdis k Hk). apply list_elem_of_here.
Qed.

Lemma dict_of_items_id (items : list (string * V)) :
  NoDup items.*1 → dict_of_items items = items.
Proof. intros H. unfold dict_of_items. by rewrite dict_update_fresh. Qed.

Lemma dict_update_length_le d e :
  (length (dict_update d e) ≤ length d + length e)%nat.
Proof.
  revert d. induction e as [|[k v] e IH]; intros d; simpl; [lia|].
  unfold dict_update in *. simpl. etrans; [apply IH|].
  rewrite dict_set_length. destruct (dict_in k d); lia.
Qed.

Lemma dict_of_items_length_le (items : list (string * V)) :
  (length (dict_of_items items) ≤ length items)%nat.
Proof. apply (dict_update_length_le [] items). Qed.

(** After [d.update(e)] with distinct keys in [e], the items of [e] are
    those found under their keys. *)
Lemma dict_update_get_r d e k v :
  NoDup e.*1 → (k, v) ∈ e → dict_get k (dict_update d e) = Some v.
Proof.
  revert d. induction e as [|[k' v'] e IH]; intros d Hnd Hin.
  - by apply elem_of_nil in Hin.
  - simpl in Hnd. apply NoDup_cons in Hnd as [Hk Hnd].
    apply elem_of_cons in Hin as [[= -> ->]|Hin].
    + unfold dict_update. simpl. fold (dict_update (dict_set k' v' d) e).
      clear IH Hnd. revert d. induction e as [|[k2 v2] e IH]; intros d.
      * apply dict_get_set_eq.
      * unfold dict_update. simpl.
        fold (dict_update (dict_set k2 v2 (dict_set k' v' d)) e).
        assert (k2 ≠ k') as Hne.
        { intros ->. apply Hk. simpl. apply list_elem_of_here. }
        assert (k' ∉ e.*1) as Hk'.
        { intros H. apply Hk. simpl. by apply list_elem_of_further. }
        specialize (IH Hk').
        (* reorder the two assignments *)
        assert (∀ d0, dict_get k' d0 = Some v' →
                      dict_get k' (dict_update d0 e) = Some v') as Hkeep.
        { clear -Hk'. induction e as [|[k3 v3] e IHe]; intros d0 H0; [done|].
          unfold dict_update. simpl. fold (dict_update (dict_set k3 v3 d0) e).
          simpl in Hk'. apply not_elem_of_cons in Hk' as [Hn3 Hk'].
          apply IHe; [done|]. rewrite dict_get_set_ne; done. }
        apply Hkeep. rewrite dict_get_set_ne by done. apply dict_get_set_eq.
    + unfold dict_update. simpl. by apply IH.
Qed.

Lemma dict_update_get_l d e k :
  k ∉ e.*1 → dict_get k (dict_update d e) = dict_get k d.
Proof.
  revert d. induction e as [|[k' v'] e IH]; intros d Hk; [done|].
  simpl in Hk. apply not_elem_of_cons in Hk as [Hne Hk].
  unfold dict_update. simpl. fold (dict_update (dict_set k' v' d) e).
  rewrite IH by done. by apply dict_get_set_ne.
Qed.

End DictFacts.

(** ** The reconciliation loops *)

Section ReconcileFacts.
Variable clock : nat -> Z.
Variable geoip_api : nat -> string -> option api_reply.

Local Abbreviation accept_step := (accept_step clock geoip_api).
Local Abbreviation reconcile := (reconcile clock geoip_api).
Local Abbreviation refresh_trapped := (refresh_trapped clock).

Lemma closed_ports_fold (lines : list line) (S0 : gset string) (p : string) :
  p ∈ fold_left closed_ports_step lines S0
  ↔ p ∈ S0 ∨ ∃ l m, l ∈ lines ∧ close_of l = Some m ∧ c_port m = p.
Proof.
  revert S0. induction lines as [|l lines IH]; intros S0; simpl.
  - split; [by left | intros [?|(l & m & H & _)]; [done|]].
    by apply elem_of_nil in H.
  - rewrite IH. unfold closed_ports_step at 1.
    destruct (close_of l) as [m|] eqn:E.
    + rewrite elem_of_union, elem_of_singleton. split.
      * intros [[->|?]|(l' & m' & Hl & Hm & Hp)]; [right|by left|right].
        -- exists l, m. split_and!; [apply list_elem_of_here | done..].
        -- exists l', m'. split_and!; [by apply list_elem_of_further|done..].
      * intros [?|(l' & m' & [->|Hl]%elem_of_cons & Hm & Hp)].
        -- left. by right.
        -- left. left. congruence.
        -- right. by exists l', m'.
    + split.
      * intros [?|(l' & m' & Hl & Hm & Hp)]; [by left|right].
        exists l', m'. split_and!; [by apply list_elem_of_further|done..].
      * intros [?|(l' & m' & [->|Hl]%elem_of_cons & Hm & Hp)];
          [by left | congruence | right; by exists l', m'].
Qed.

Lemma closed_ports_of_spec (lines : list line) (p : string) :
  p ∈ closed_ports_of lines
  ↔ ∃ l m, l ∈ lines ∧ close_of l = Some m ∧ c_port m = p.
Proof.
  unfold closed_ports_of. rewrite closed_ports_fold.
  split; [intros [H|H]; [by apply elem_of_empty in H | done] | by right].
Qed.

(** The ACCEPT loop only stores records made by [accept_record]. *)
Lemma accept_loop_Forall (P : string * conn → Prop) closed lines acc :
  (∀ l m g t, l ∈ lines → accept_of l = Some m →
     P (conn_id (a_ip m) (a_port m), accept_record closed m g t)) →
  Forall P (acc_conns acc) →
  Forall P (acc_conns (fold_left (accept_step closed) lines acc)).
Proof.
  revert acc. induction lines as [|l lines IH]; intros acc HP Hacc.
  - done.
  - simpl. apply IH.
    { intros l' m g t Hl. apply HP. by apply list_elem_of_further. }
    unfold accept_step.
    destruct (accept_of l) as [m|] eqn:E; [|done]. simpl.
    apply dict_set_Forall; [|done].
    apply (HP l); [apply list_elem_of_here | done].
Qed.

(** A key, once in the working set, stays through the ACCEPT loop. *)
Lemma accept_loop_keys_mono closed lines acc k :
  k ∈ (acc_conns acc).*1 →
  k ∈ (acc_conns (fold_left (accept_step closed) lines acc)).*1.
Proof.
  revert acc. induction lines as [|l lines IH]; intros acc Hk; [done|].
  simpl. apply IH. unfold accept_step.
  destruct (accept_of l) as [m|]; [|done]. simpl.
  rewrite dict_set_keys. destruct (dict_in _ _); [done|].
  apply elem_of_app. by left.
Qed.

Lemma accept_loop_keys closed lines acc l m :
  l ∈ lines → accept_of l = Some m →
  conn_id (a_ip m) (a_port m)
  ∈ (acc_conns (fold_left (accept_step closed) lines acc)).*1.
Proof.
  revert acc. induction lines as [|l0 lines IH]; intros acc Hl Hm.
  - by apply elem_of_nil in Hl.
  - apply elem_of_cons in Hl as [->|Hl]; simpl; [|by apply IH].
    apply accept_loop_keys_mono. unfold accept_step. rewrite Hm. simpl.
    apply dict_get_is_Some. rewrite dict_get_set_eq. by eexists.
Qed.

(** The CLOSE loop keeps the keys of the working set, in order. *)
Lemma dict_set_present_keys {V} k (v : V) d :
  k ∈ d.*1 → (dict_set k v d).*1 = d.*1.
Proof.
  intros Hk. rewrite dict_set_keys.
  apply dict_in_true in Hk. by rewrite Hk.
Qed.

Lemma close_step_keys acc l : (close_step acc l).1.*1 = acc.1.*1.
Proof.
  unfold close_step. destruct (close_of l) as [m|]; [|done].
  destruct (dict_get _ acc.1) as [c|] eqn:E; [|done]. simpl.
  apply dict_set_present_keys, dict_get_is_Some. by rewrite E.
Qed.

Lemma close_loop_keys lines acc :
  (fold_left close_step lines acc).1.*1 = acc.1.*1.
Proof.
  revert acc. induction lines as [|l lines IH]; intros acc; [done|].
  simpl. by rewrite IH, close_step_keys.
Qed.

Lemma close_step_Forall (P : string * conn → Prop) acc l :
  duration_blind P →
  Forall P acc.1 → Forall P (close_step acc l).1.
Proof.
  intros HP Hacc. unfold close_step. destruct (close_of l) as [m|]; [|done].
  destruct (dict_get _ acc.1) as [c|] eqn:E; [|done]. simpl.
  apply dict_set_Forall; [|done]. apply HP.
  apply dict_get_Some_elem in E.
  by apply (proj1 (Forall_forall _ _) Hacc _ E).
Qed.

Lemma close_loop_Forall (P : string * conn → Prop) lines acc :
  duration_blind P →
  Forall P acc.1 →
  Forall P (fold_left close_step lines acc).1.
Proof.
  intros HP. revert acc. induction lines as [|l lines IH]; intros acc H.
  - done.
  - simpl. apply IH. by apply close_step_Forall.
Qed.

(** The refresh keeps keys and order. *)
Lemma refresh_trapped_keys t conns :
  (refresh_trapped t conns).1.*1 = conns.*1.
Proof.
  revert t. induction conns as [|[k c] conns IH]; intros t; [done|].
  simpl. destruct (decide (conn_status c = trapped)); csimpl; by rewrite IH.
Qed.

Lemma refresh_trapped_Forall (P : string * conn → Prop) t conns :
  duration_blind P →
  Forall P conns →
  Forall P (refresh_trapped t conns).1.
Proof.
  intros HP. revert t. induction conns as [|[k c] conns IH]; intros t H.
  - done.
  - apply Forall_cons in H as [Hc H]. simpl.
    destruct (decide (conn_status c = trapped)); simpl;
      (apply Forall_cons; split; [|by apply IH]); [by apply HP|done].
Qed.

(** Every record of the reconciled working set was made by
    [accept_record], up to its duration. *)
Lemma reconcile_Forall (P : string * conn → Prop) lines st :
  duration_blind P →
  (∀ l m g t, l ∈ lines → accept_of l = Some m →
     P (conn_id (a_ip m) (a_port m),
        accept_record (closed_ports_of lines) m g t)) →
  Forall P (rec_conns (reconcile lines st)).
Proof.
  intros Hb HP. unfold reconcile. simpl.
  apply refresh_trapped_Forall; [done|].
  apply close_loop_Forall; [done|]. simpl.
  apply accept_loop_Forall; [done|]. simpl. apply Forall_nil_2.
Qed.

Lemma reconcile_keys lines st :
  (rec_conns (reconcile lines st)).*1
  = (acc_conns (fold_left (accept_step (closed_ports_of lines)) lines
       (AcceptAcc [] [] (ip_locations st) (S (ticks st)) (api_calls st)))).*1.
Proof.
  unfold reconcile. simpl. by rewrite refresh_trapped_keys, close_loop_keys.
Qed.

Lemma reconcile_has_key lines st l m :
  l ∈ lines → accept_of l = Some m →
  is_Some (dict_get (conn_id (a_ip m) (a_port m))
                    (rec_conns (reconcile lines st))).
Proof.
  intros Hl Hm. apply dict_get_is_Some. rewrite reconcile_keys.
  by eapply accept_loop_keys.
Qed.

End ReconcileFacts.

(** ** Status classification *)

Section Classification.
Variable clock : nat -> Z.
Variable geoip_api : nat -> string -> option api_reply.

Local Abbreviation reconcile := (reconcile clock geoip_api).

Lemma accept_record_status closed m g t :
  (conn_status (accept_record closed m g t) = released ↔ a_port m ∈ closed)
  ∧ (conn_status (accept_record closed m g t) = trapped ↔ a_port m ∉ closed).
Proof. simpl. destruct (decide (a_port m ∈ closed)); split; split; done. Qed.

(** Where every record of the working set comes from. *)
Lemma reconcile_origin lines st k r :
  dict_get k (rec_conns (reconcile lines st)) = Some r →
  k = conn_id (ip r) (port r)
  ∧ (conn_status r = released ↔ port r ∈ closed_ports_of lines)
  ∧ ∃ l m, l ∈ lines ∧ accept_of l = Some m
           ∧ ip r = a_ip m ∧ port r = a_port m ∧ fd r = a_fd m.
Proof.
  intros Hk. apply dict_get_Some_elem in Hk.
  set (P := λ kc : string * conn,
    kc.1 = conn_id (ip kc.2) (port kc.2)
    ∧ (conn_status kc.2 = released ↔ port kc.2 ∈ closed_ports_of lines)
    ∧ ∃ l m, l ∈ lines ∧ accept_of l = Some m
             ∧ ip kc.2 = a_ip m ∧ port kc.2 = a_port m ∧ fd kc.2 = a_fd m).
  assert (Forall P (rec_conns (reconcile lines st))) as HF.
  { apply reconcile_Forall.
    - intros k0 c d H. exact H.
    - intros l m g t Hl Hm. unfold P. simpl.
      split_and!; [done| |by exists l, m].
      destruct (decide (a_port m ∈ closed_ports_of lines)); split; done. }
  apply (proj1 (Forall_forall _ _) HF _ Hk).
Qed.

End Classification.

(** C1, on the code: the index holds the ports of the close events and the
    test is on the port alone, where the loop that copies the durations
    looks a close event up under address and port.  An open event of
    203.0.113.5 on port 40001 and a close event of 198.51.100.7 on the same
    port: the pair of the open event is in no close event, yet its record is
    terminated, with the duration 0; the pass leaves it out of the
    leaderboard, out of what is displayed and out of the count of active
    connections. *)
Theorem C1_port_collision_releases_open_connection :
  ¬ classified_by_pair_index Sample.clock Sample.api_down
      Sample.port_collision (initial_state None)
  ∧ terminated_index_spec Sample.port_collision = [ ("198.51.100.7", "40001") ]
  ∧ rec_conns (reconcile Sample.clock Sample.api_down Sample.port_collision
                 (initial_state None))
    = [ ("203.0.113.5:40001",
         Conn "203.0.113.5" "40001" "4" "Unknown" "Unknown" "XX"
              Sample.t0 0 released) ]
  ∧ hall_of_fame
      (parse_endlessh_logs Sample.clock Sample.api_down Sample.json_dump
         Sample.isoformat (Sample.scrape_of Sample.port_collision)
         (initial_state None)) = []
  ∧ individual_connections
      (parse_endlessh_logs Sample.clock Sample.api_down Sample.json_dump
         Sample.isoformat (Sample.scrape_of Sample.port_collision)
         (initial_state None)) = []
  ∧ active_connections
      (parse_endlessh_logs Sample.clock Sample.api_down Sample.json_dump
         Sample.isoformat (Sample.scrape_of Sample.port_collision)
         (initial_state None)) = 0%nat.
Proof.
  split; [|split_and!; vm_compute; reflexivity].
  intros H.
  specialize (H "203.0.113.5:40001"
    (Conn "203.0.113.5" "40001" "4" "Unknown" "Unknown" "XX"
          Sample.t0 0 released) eq_refl).
  apply proj1 in H. specialize (H eq_refl).
  vm_compute in H.
  apply list_elem_of_singleton in H. discriminate H.
Qed.

(** ** The counter *)

(** C2, on the code: the identifier is made of the timestamp and of
    [match.group(2)], the port, under the name [fd].  Two open events with
    the same timestamp and descriptor on two ports are counted twice; two
    with the same timestamp and port on two descriptors are counted once. *)
Theorem C2_identifier_uses_port :
  total_connections_counter
    (parse_endlessh_logs Sample.clock Sample.api_down Sample.json_dump
       Sample.isoformat (Sample.scrape_of Sample.same_descriptor)
       (initial_state None)) = 2%nat
  ∧ total_connections_counter
      (parse_endlessh_logs Sample.clock Sample.api_down Sample.json_dump
         Sample.isoformat (Sample.scrape_of Sample.same_port)
         (initial_state None)) = 1%nat.
Proof. split; vm_compute; reflexivity. Qed.

Lemma count_step_spec (seen : gset string) (n : nat) (l : line) :
  count_step (seen, n) l
  = match log_id_of l with
    | Some id => if decide (id ∈ seen) then (seen, n) else ({[id]} ∪ seen, S n)
    | None => (seen, n)
    end.
Proof.
  unfold count_step, log_id_of.
  destruct (accept_of l), (ts_of l); done.
Qed.

Lemma window_ids_cons l lines :
  window_ids (l :: lines)
  = match log_id_of l with
    | Some id => {[id]} ∪ window_ids lines
    | None => window_ids lines
    end.
Proof. unfold window_ids. simpl. by destruct (log_id_of l). Qed.

(** The counter loop adds the identifiers of the window to the recency set
    and counts those that were not in it. *)
Lemma count_loop_spec (lines : list line) (seen : gset string) (n : nat) :
  fold_left count_step lines (seen, n)
  = (seen ∪ window_ids lines, (n + size (window_ids lines ∖ seen))%nat).
Proof.
  revert seen n. induction lines as [|l lines IH]; intros seen n.
  - simpl. unfold window_ids. simpl. f_equal.
    + set_solver.
    + replace (∅ ∖ seen) with (∅ : gset string) by set_solver.
      rewrite size_empty. lia.
  - simpl. rewrite count_step_spec, window_ids_cons.
    destruct (log_id_of l) as [id|]; [|apply IH].
    destruct (decide (id ∈ seen)) as [Hin|Hout]; rewrite IH; f_equal.
    + set_solver.
    + f_equal. f_equal. set_solver.
    + set_solver.
    + replace (({[id]} ∪ window_ids lines) ∖ seen)
        with ({[id]} ∪ window_ids lines ∖ ({[id]} ∪ seen))
        by (apply set_eq; intros x; destruct (decide (x = id)); set_solver).
      rewrite (size_union {[id]} (window_ids lines ∖ ({[id]} ∪ seen))).
      * rewrite size_singleton. lia.
      * apply disjoint_singleton_l. set_solver.
Qed.

Section CounterFacts.
Variable clock : nat -> Z.
Variable geoip_api : nat -> string -> option api_reply.
Variable json_dump : list (string * stored_conn) -> string.
Variable isoformat : Z -> string.
Variable strftime_local : Z -> string.

Local Abbreviation parse_logs :=
  (parse_endlessh_logs clock geoip_api json_dump isoformat).
Local Abbreviation run_scrapes :=
  (run clock geoip_api json_dump isoformat strftime_local).

Lemma parse_counter sc st :
  total_connections_counter (parse_logs sc st)
  = (total_connections_counter st
     + size (window_ids (short_window sc) ∖ seen_log_entries st))%nat.
Proof.
  unfold parse_endlessh_logs, short_window.
  destruct (output_6h sc) as [lines|]; simpl.
  - by rewrite count_loop_spec.
  - replace (window_ids [] ∖ seen_log_entries st) with (∅ : gset string)
      by (unfold window_ids; set_solver).
    rewrite size_empty. lia.
Qed.

Lemma parse_seen sc st lines :
  output_6h sc = Some lines →
  seen_log_entries (parse_logs sc st)
  = cleanup_seen (seen_log_entries st ∪ window_ids (short_window sc)).
Proof.
  intros H6.
  unfold parse_endlessh_logs, short_window.
  rewrite H6. simpl. by rewrite count_loop_spec.
Qed.

Lemma run_counter_mono scs st :
  (total_connections_counter st ≤ total_connections_counter (run_scrapes scs st))%nat.
Proof.
  revert st. induction scs as [|sc scs IH]; intros st; [done|].
  simpl. etrans; [|apply IH]. simpl. rewrite parse_counter. lia.
Qed.

(** Once the recency set has been cleared, the next scrape counts every
    identifier of its window again. *)
Lemma recount_after_clear sc0 sc st lines0 lines :
  output_6h sc0 = Some lines0 → output_6h sc = Some lines →
  seen_log_entries st = ∅ →
  (size (window_ids (short_window sc0)) ≤ 1000)%nat →
  (1000 < size (window_ids (short_window sc0) ∪ window_ids (short_window sc)))%nat →
  window_ids (short_window sc) ## window_ids (short_window sc0) →
  total_connections_counter (parse_logs sc (parse_logs sc (parse_logs sc0 st)))
  = (total_connections_counter (parse_logs sc0 st)
     + 2 * size (window_ids (short_window sc)))%nat.
Proof.
  intros H0 H1 Hst Hsmall Hbig Hdis.
  assert (seen_log_entries (parse_logs sc0 st)
          = window_ids (short_window sc0)) as Hseen0.
  { rewrite (parse_seen sc0 st lines0 H0), Hst, (left_id_L ∅ (∪)).
    unfold cleanup_seen. by rewrite decide_False by lia. }
  assert (seen_log_entries (parse_logs sc (parse_logs sc0 st)) = ∅) as Hseen1.
  { rewrite (parse_seen sc (parse_logs sc0 st) lines H1), Hseen0.
    unfold cleanup_seen. by rewrite decide_True by done. }
  rewrite (parse_counter sc (parse_logs sc (parse_logs sc0 st))), Hseen1.
  rewrite (parse_counter sc (parse_logs sc0 st)), Hseen0.
  replace (window_ids (short_window sc) ∖ window_ids (short_window sc0))
    with (window_ids (short_window sc)) by set_solver.
  replace (window_ids (short_window sc) ∖ ∅)
    with (window_ids (short_window sc)) by set_solver.
  lia.
Qed.

(** A scan whose window holds more than 1000 identifiers, twice from an
    empty recency set: the second scan counts them all again. *)
Lemma rescan_after_clear sc st lines :
  output_6h sc = Some lines →
  seen_log_entries st = ∅ →
  (1000 < size (window_ids (short_window sc)))%nat →
  total_connections_counter (parse_logs sc (parse_logs sc st))
  = (total_connections_counter (parse_logs sc st)
     + size (window_ids (short_window sc)))%nat.
Proof.
  intros H6 Hst Hbig.
  rewrite (parse_counter sc (parse_logs sc st)).
  rewrite (parse_seen sc st lines H6), Hst, (left_id_L ∅ (∪)).
  unfold cleanup_seen. rewrite decide_True by done.
  by replace (window_ids (short_window sc) ∖ ∅)
    with (window_ids (short_window sc)) by set_solver.
Qed.

End CounterFacts.

Section CounterClaims.
Variable clock : nat -> Z.
Variable geoip_api : nat -> string -> option api_reply.
Variable json_dump : list (string * stored_conn) -> string.
Variable isoformat : Z -> string.
Variable strftime_local : Z -> string.

Local Abbreviation parse_logs :=
  (parse_endlessh_logs clock geoip_api json_dump isoformat).
Local Abbreviation run_scrapes :=
  (run clock geoip_api json_dump isoformat strftime_local).

(** C5, as the code has it: over any sequence of scrapes the counter never
    decreases; one scrape adds the number of identifiers of its short
    window that are not in the recency set; and when the recency set is not
    cleared at the end of a scrape (it then holds at most 1000
    identifiers), the next scrape counts none of the identifiers of the
    first one again, so that no line of both windows is counted twice. *)
Theorem C5_counter_monotone_recount_guarded
    (scs : list scrape) (sc1 sc2 : scrape) (st : state) :
  (total_connections_counter st
   ≤ total_connections_counter (run_scrapes scs st))%nat
  ∧ total_connections_counter (parse_logs sc1 st)
    = (total_connections_counter st
       + size (window_ids (short_window sc1) ∖ seen_log_entries st))%nat
  ∧ ((size (seen_log_entries st ∪ window_ids (short_window sc1)) ≤ 1000)%nat →
     total_connections_counter (parse_logs sc2 (parse_logs sc1 st))
     = (total_connections_counter (parse_logs sc1 st)
        + size (window_ids (short_window sc2)
                ∖ (seen_log_entries st ∪ window_ids (short_window sc1))))%nat
     ∧ (total_connections_counter (parse_logs sc2 (parse_logs sc1 st))
        ≤ total_connections_counter st
          + size (window_ids (short_window sc1)
                  ∪ window_ids (short_window sc2)))%nat
     ∧ ∀ l id, l ∈ short_window sc1 → log_id_of l = Some id →
         id ∉ window_ids (short_window sc2)
              ∖ seen_log_entries (parse_logs sc1 st)).
Proof.
  split_and!.
  - apply run_counter_mono.
  - apply parse_counter.
  - intros Hsize.
    assert (seen_log_entries (parse_logs sc1 st)
            = seen_log_entries st ∪ window_ids (short_window sc1)) as Hseen.
    { destruct (output_6h sc1) as [lines|] eqn:H6.
      - rewrite (parse_seen _ _ _ _ _ _ lines H6).
        unfold cleanup_seen. rewrite decide_False by lia. done.
      - unfold parse_endlessh_logs, short_window. rewrite H6.
        unfold window_ids. set_solver. }
    split_and!.
    + by rewrite (parse_counter _ _ _ _ sc2), Hseen.
    + rewrite (parse_counter _ _ _ _ sc2), (parse_counter _ _ _ _ sc1), Hseen.
      rewrite <- Nat.add_assoc. apply Nat.add_le_mono_l.
      rewrite <- size_union by set_solver.
      apply subseteq_size. set_solver.
    + intros l id Hl Hid. rewrite Hseen.
      assert (id ∈ window_ids (short_window sc1)); [|set_solver].
      unfold window_ids. apply elem_of_list_to_set.
      apply list_elem_of_omap. by exists l.
Qed.

End CounterClaims.

(** The sample windows: what the counter loop reads from them. *)
Lemma run_cons clock geoip_api json_dump isoformat strftime_local sc scs st :
  run clock geoip_api json_dump isoformat strftime_local (sc :: scs) st
  = run clock geoip_api json_dump isoformat strftime_local scs
      (parse_endlessh_logs clock geoip_api json_dump isoformat sc st).
Proof. done. Qed.

Lemma run_nil clock geoip_api json_dump isoformat strftime_local st :
  run clock geoip_api json_dump isoformat strftime_local [] st = st.
Proof. done. Qed.

Lemma short_window_scrape_of lines :
  short_window (Sample.scrape_of lines) = lines.
Proof. done. Qed.

Lemma burst_log_ids n :
  omap log_id_of (Sample.burst n)
  = (λ k, "2025-10-14T16:06:40" +:+ "_" +:+ pretty k) <$> seq 0 n.
Proof.
  unfold Sample.burst. induction (seq 0 n) as [|k l IH]; [done|].
  csimpl. by rewrite IH.
Qed.

Lemma burst_ids_size n : size (window_ids (Sample.burst n)) = n.
Proof.
  unfold window_ids. rewrite burst_log_ids, size_list_to_set.
  - by rewrite length_fmap, length_seq.
  - apply NoDup_fmap_2_strong; [|apply NoDup_seq].
    intros x y _ _ H.
    by apply (inj (String.app _)), (inj (String.app _)), (inj pretty) in H.
Qed.

Lemma late_open_ids :
  window_ids Sample.late_open = {[ "2025-10-14T16:07:10_40002" ]}.
Proof. unfold window_ids. simpl. set_solver. Qed.

Lemma late_open_not_in_burst n :
  "2025-10-14T16:07:10_40002" ∉ window_ids (Sample.burst n).
Proof.
  unfold window_ids. rewrite burst_log_ids, elem_of_list_to_set.
  intros (k & Hk & _)%list_elem_of_fmap. discriminate Hk.
Qed.

Lemma late_open_ids_size : size (window_ids Sample.late_open) = 1%nat.
Proof. rewrite late_open_ids. apply size_singleton. Qed.

Lemma late_open_twice_size :
  size (window_ids Sample.late_open ∪ window_ids Sample.late_open) = 1%nat.
Proof. rewrite (idemp_L (∪) _). apply late_open_ids_size. Qed.

Lemma late_burst_disjoint n :
  window_ids Sample.late_open ## window_ids (Sample.burst n).
Proof.
  rewrite late_open_ids. apply disjoint_singleton_l, late_open_not_in_burst.
Qed.

Lemma burst_late_size n :
  size (window_ids (Sample.burst n) ∪ window_ids Sample.late_open) = S n.
Proof.
  rewrite (size_union (window_ids (Sample.burst n))
                      (window_ids Sample.late_open)).
  - rewrite burst_ids_size, late_open_ids_size. lia.
  - symmetry. apply late_burst_disjoint.
Qed.

(** After 1000 counted open events the recency set is full: the next new
    open event is counted and the set cleared, and the scrape after that,
    with the same single line in its window, counts that line again. *)
Lemma C5_recount_after_clear_counterexample :
  ¬ counted_at_most_once
      (Sample.run_sample [Sample.scrape_of (Sample.burst 1000)]
         (initial_state None))
      (Sample.scrape_of Sample.late_open)
      (Sample.scrape_of Sample.late_open).
Proof.
  unfold counted_at_most_once, Sample.run_sample.
  rewrite !run_cons, !run_nil.
  rewrite (recount_after_clear Sample.clock Sample.api_down Sample.json_dump
             Sample.isoformat (Sample.scrape_of (Sample.burst 1000))
             (Sample.scrape_of Sample.late_open) (initial_state None)
             (Sample.burst 1000) Sample.late_open eq_refl eq_refl eq_refl).
  - rewrite !short_window_scrape_of.
    generalize (total_connections_counter
      (parse_endlessh_logs Sample.clock Sample.api_down Sample.json_dump
         Sample.isoformat (Sample.scrape_of (Sample.burst 1000))
         (initial_state None))).
    intros n. rewrite late_open_ids_size, late_open_twice_size. lia.
  - rewrite short_window_scrape_of. rewrite (burst_ids_size 1000). lia.
  - rewrite !short_window_scrape_of. rewrite (burst_late_size 1000). lia.
  - rewrite !short_window_scrape_of. apply late_burst_disjoint.
Qed.

Lemma C5_counter_monotone_recount_guarded_witness :
  (size (seen_log_entries (initial_state None)
         ∪ window_ids (short_window (Sample.scrape_of Sample.late_open)))
   ≤ 1000)%nat
  ∧ (total_connections_counter
       (parse_endlessh_logs Sample.clock Sample.api_down Sample.json_dump
          Sample.isoformat (Sample.scrape_of Sample.late_open)
          (parse_endlessh_logs Sample.clock Sample.api_down Sample.json_dump
             Sample.isoformat (Sample.scrape_of Sample.late_open)
             (initial_state None)))
     ≤ total_connections_counter (initial_state None)
       + size (window_ids (short_window (Sample.scrape_of Sample.late_open))
               ∪ window_ids (short_window (Sample.scrape_of Sample.late_open))))%nat.
Proof.
  assert ((size (seen_log_entries (initial_state None)
                 ∪ window_ids (short_window (Sample.scrape_of Sample.late_open)))
           ≤ 1000)%nat) as Hsize by (vm_compute; lia).
  split; [exact Hsize|].
  apply (C5_counter_monotone_recount_guarded Sample.clock Sample.api_down
    Sample.json_dump Sample.isoformat pretty []
    (Sample.scrape_of Sample.late_open) (Sample.scrape_of Sample.late_open)
    (initial_state None)).
  exact Hsize.
Defined.

(** ** The leaderboard *)

Section SortFacts.
Context {A : Type}.
Implicit Types (before : A → A → bool) (l : list A).

Lemma insert_by_Permutation before x l : insert_by before x l ≡ₚ x :: l.
Proof.
  induction l as [|y l IH]; simpl; [done|].
  destruct (before x y); [done|].
  rewrite IH. apply Permutation_swap.
Qed.

Lemma sorted_by_Permutation before l : sorted_by before l ≡ₚ l.
Proof.
  induction l as [|x l IH]; simpl; [done|].
  by rewrite insert_by_Permutation, IH.
Qed.

Lemma sorted_by_length before l : length (sorted_by before l) = length l.
Proof. by rewrite sorted_by_Permutation. Qed.

(** [R x y]: [x] may stand before [y]. *)
Lemma insert_by_StronglySorted (R : A → A → Prop) before x l :
  Transitive R →
  (∀ a b, before a b = true → R a b) →
  (∀ a b, before a b = false → R b a) →
  StronglySorted R l → StronglySorted R (insert_by before x l).
Proof.
  intros Htr Ht Hf. induction 1 as [|y l Hl IH Hy]; simpl.
  - repeat constructor.
  - destruct (before x y) eqn:E.
    + constructor; [by constructor|].
      constructor; [by apply Ht|].
      eapply Forall_impl; [exact Hy|]. intros z Hz. simpl in Hz.
      etrans; [by apply Ht|done].
    + constructor; [done|].
      rewrite insert_by_Permutation. constructor; [by apply Hf|done].
Qed.

Lemma sorted_by_StronglySorted (R : A → A → Prop) before l :
  Transitive R →
  (∀ a b, before a b = true → R a b) →
  (∀ a b, before a b = false → R b a) →
  StronglySorted R (sorted_by before l).
Proof.
  intros Htr Ht Hf. induction l as [|x l IH]; simpl; [constructor|].
  by apply insert_by_StronglySorted.
Qed.

(** In a sorted list everything kept by [take] stands before everything
    dropped. *)
Lemma StronglySorted_take_drop (R : A → A → Prop) n l x y :
  StronglySorted R l → x ∈ take n l → y ∈ drop n l → R x y.
Proof.
  intros Hs. revert n. induction Hs as [|z l Hl IH Hz]; intros n Hx Hy.
  - rewrite take_nil in Hx. by apply elem_of_nil in Hx.
  - destruct n as [|n]; simpl in *; [by apply elem_of_nil in Hx|].
    apply elem_of_cons in Hx as [->|Hx].
    + apply (proj1 (Forall_forall _ _) Hz). by eapply subseteq_drop.
    + by eapply IH.
Qed.

Lemma StronglySorted_take (R : A → A → Prop) n l :
  StronglySorted R l → StronglySorted R (take n l).
Proof.
  intros Hs. revert n. induction Hs as [|z l Hl IH Hz]; intros [|n]; simpl;
    try constructor; [apply IH|].
  apply Forall_forall. intros y Hy.
  apply (proj1 (Forall_forall _ _) Hz). by eapply subseteq_take.
Qed.

End SortFacts.

Lemma elem_of_snoc {A} (l : list A) (x y : A) : y ∈ l ++ [x] ↔ y ∈ l ∨ y = x.
Proof. rewrite elem_of_app, list_elem_of_singleton. done. Qed.

Lemma best_step_inv seen best x :
  best_of seen best → best_of (seen ++ [x]) (best_step best x).
Proof.
  intros (Hnd & Hbest & Hall). unfold best_step.
  destruct (dict_get (ip x.2) best) as [b|] eqn:E.
  - destruct (Hbest _ _ E) as (Hip & Hin & Hmax).
    destruct (decide (duration b.2 < duration x.2)) as [Hlt|Hge].
    + split_and!.
      * by apply dict_set_NoDup.
      * intros i kc. rewrite dict_get_set.
        destruct (decide (ip x.2 = i)) as [<-|Hne].
        -- intros [= <-]. split_and!; [done|set_solver|].
           intros e [He| ->]%elem_of_snoc Hi; [|lia].
           specialize (Hmax e He Hi). lia.
        -- intros Hi. destruct (Hbest _ _ Hi) as (? & ? & Hm).
           split_and!; [done|set_solver|].
           intros e [He| ->]%elem_of_snoc Hie;
             [by apply Hm | congruence].
      * intros e He. rewrite dict_get_set.
        destruct (decide (ip x.2 = ip e.2)); [by eexists|].
        apply elem_of_snoc in He as [He| ->];
          [by apply Hall | done].
    + split_and!; [done| |].
      * intros i kc Hi. destruct (Hbest _ _ Hi) as (? & ? & Hm).
        split_and!; [done|set_solver|].
        intros e [He| ->]%elem_of_snoc Hie;
          [by apply Hm|].
        assert (kc = b) as -> by congruence. lia.
      * intros e [He| ->]%elem_of_snoc;
          [by apply Hall | by eexists].
  - split_and!.
    + by apply dict_set_NoDup.
    + intros i kc. rewrite dict_get_set.
      destruct (decide (ip x.2 = i)) as [<-|Hne].
      * intros [= <-]. split_and!; [done|set_solver|].
        intros e [He| ->]%elem_of_snoc Hi; [|lia].
        destruct (Hall e He) as [? Hsome]. congruence.
      * intros Hi. destruct (Hbest _ _ Hi) as (? & ? & Hm).
        split_and!; [done|set_solver|].
        intros e [He| ->]%elem_of_snoc Hie;
          [by apply Hm | congruence].
    + intros e He. rewrite dict_get_set.
      destruct (decide (ip x.2 = ip e.2)); [by eexists|].
      apply elem_of_snoc in He as [He| ->];
        [by apply Hall | done].
Qed.

Lemma best_loop_inv hall seen best :
  best_of seen best → best_of (seen ++ hall) (fold_left best_step hall best).
Proof.
  revert seen best. induction hall as [|x hall IH]; intros seen best H.
  - by rewrite app_nil_r.
  - simpl.
    replace (seen ++ x :: hall) with ((seen ++ [x]) ++ hall)
      by (by rewrite <- app_assoc).
    apply IH. by apply best_step_inv.
Qed.

Lemma ip_to_best_conn_spec hall : best_of hall (ip_to_best_conn hall).
Proof.
  apply (best_loop_inv hall [] []). split_and!.
  - apply NoDup_nil_2.
  - intros i kc H. discriminate H.
  - intros e He. by apply elem_of_nil in He.
Qed.

(** In a list without two elements of the same [f], filtering on the [f] of
    an element gives that element alone. *)
Lemma filter_unique {A} (f : A → string) (l : list A) (x : A) :
  NoDup (f <$> l) → x ∈ l → filter (λ y, f y = f x) l = [x].
Proof.
  induction l as [|y l IH]; csimpl; intros Hnd Hx.
  - by apply elem_of_nil in Hx.
  - apply NoDup_cons in Hnd as [Hy Hnd].
    apply elem_of_cons in Hx as [->|Hx].
    + rewrite filter_cons_True by done. f_equal.
      apply elem_of_nil_inv. intros z [Heq Hz]%list_elem_of_filter.
      apply Hy. rewrite <- Heq. by apply list_elem_of_fmap_2.
    + rewrite filter_cons_False; [by apply IH|].
      intros Heq. apply Hy. rewrite Heq. by apply list_elem_of_fmap_2.
Qed.

(** The values of [ip_to_best_conn]. *)
Lemma best_values hall best :
  best_of hall best →
  (λ kc : string * conn, ip kc.2) <$> best.*2 = best.*1
  ∧ ∀ kc, kc ∈ best.*2 → dict_get (ip kc.2) best = Some kc.
Proof.
  intros (Hnd & Hbest & _).
  assert (∀ e, e ∈ best → ip e.2.2 = e.1) as Hkey.
  { intros [i kc] He. simpl.
    apply (dict_get_elem_NoDup _ _ _ Hnd) in He.
    by destruct (Hbest _ _ He). }
  split.
  - clear Hnd Hbest. induction best as [|e best IH]; csimpl; [done|].
    rewrite Hkey by apply list_elem_of_here. f_equal.
    apply IH. intros e' He'. apply Hkey. by apply list_elem_of_further.
  - intros kc (e & -> & He)%list_elem_of_fmap.
    rewrite (Hkey e He). destruct e as [i kc]. simpl.
    by apply dict_get_elem_NoDup.
Qed.

Lemma dedup_hall_values hall :
  NoDup hall.*1 → dedup_hall hall = (ip_to_best_conn hall).*2.
Proof.
  intros Hnd. unfold dedup_hall, dict_values.
  pose proof (ip_to_best_conn_spec hall) as Hspec.
  pose proof (best_values _ _ Hspec) as [Hips Hget].
  destruct Hspec as (Hndb & Hbest & _).
  apply dict_of_items_id.
  apply NoDup_fmap_2_strong.
  - intros x y Hx Hy Hxy.
    destruct (Hbest _ _ (Hget x Hx)) as (_ & Hxh & _).
    destruct (Hbest _ _ (Hget y Hy)) as (_ & Hyh & _).
    destruct x as [kx cx], y as [ky cy]. simpl in Hxy. subst ky.
    apply (dict_get_elem_NoDup _ _ _ Hnd) in Hxh, Hyh. congruence.
  - apply (NoDup_fmap_1 (λ kc : string * conn, ip kc.2)). by rewrite Hips.
Qed.

(** C3, on the code: the copy of a closed connection into the leaderboard
    replaces the stored entry of the same connection id without comparing
    the durations, where the de-duplication that follows keeps the longer of
    two entries of an address.  The leaderboard holds an hour-long stay of
    203.0.113.5 from port 40001; the address comes back from the same port
    and leaves after 12 s: the one entry that remains is the stay of 12 s.
    Had it come back from port 40002 the hour-long stay would remain. *)
Theorem C3_longer_stored_entry_is_replaced :
  hall_of_fame Sample.long_stay = [ Sample.long_stay_entry ]
  ∧ terminated_records
      (rec_conns (reconcile Sample.clock Sample.api_down
                    (Sample.short_return "40001") Sample.long_stay))
    = [ ("203.0.113.5:40001",
         Conn "203.0.113.5" "40001" "6" "Unknown" "Unknown" "XX"
              Sample.t0 12000000 released) ]
  ∧ hall_of_fame
      (parse_endlessh_logs Sample.clock Sample.api_down Sample.json_dump
         Sample.isoformat (Sample.scrape_of (Sample.short_return "40001"))
         Sample.long_stay)
    = [ ("203.0.113.5:40001",
         Conn "203.0.113.5" "40001" "6" "Unknown" "Unknown" "XX"
              Sample.t0 12000000 released) ]
  ∧ ¬ longest_of_origin_survives
        (hall_of_fame Sample.long_stay)
        (terminated_records
           (rec_conns (reconcile Sample.clock Sample.api_down
                         (Sample.short_return "40001") Sample.long_stay)))
        (hall_of_fame
           (parse_endlessh_logs Sample.clock Sample.api_down Sample.json_dump
              Sample.isoformat
              (Sample.scrape_of (Sample.short_return "40001"))
              Sample.long_stay))
        "203.0.113.5"
  ∧ hall_of_fame
      (parse_endlessh_logs Sample.clock Sample.api_down Sample.json_dump
         Sample.isoformat (Sample.scrape_of (Sample.short_return "40002"))
         Sample.long_stay)
    = [ Sample.long_stay_entry ].
Proof.
  assert (hall_of_fame
            (parse_endlessh_logs Sample.clock Sample.api_down Sample.json_dump
               Sample.isoformat
               (Sample.scrape_of (Sample.short_return "40001"))
               Sample.long_stay)
          = [ ("203.0.113.5:40001",
               Conn "203.0.113.5" "40001" "6" "Unknown" "Unknown" "XX"
                    Sample.t0 12000000 released) ]) as Hhall.
  { vm_compute. reflexivity. }
  split_and!; [reflexivity | vm_compute; reflexivity | exact Hhall
              | | vm_compute; reflexivity].
  rewrite Hhall. intros (best & Hbest & Hmax & _).
  vm_compute in Hbest. injection Hbest as <-.
  specialize (Hmax Sample.long_stay_entry).
  assert (3600000000 <= 12000000) as Hle; [|lia].
  apply Hmax; [|reflexivity].
  apply elem_of_app. left. apply list_elem_of_here.
Qed.

Example dedup_small_hall :
  dedup_hall Sample.small_hall
  = [ Sample.entry "203.0.113.5" "40003" 90000000;
      Sample.entry "203.0.113.9" "40002" 734500000 ].
Proof. vm_compute. reflexivity. Qed.

Lemma dedup_hall_NoDup hall : NoDup (dedup_hall hall).*1.
Proof. apply dict_of_items_NoDup. Qed.

Lemma longer_first_true a b : longer_first a b = true → not_shorter a b.
Proof. unfold longer_first, not_shorter. by intros ?%bool_decide_eq_true. Qed.

Lemma longer_first_false a b : longer_first a b = false → not_shorter b a.
Proof.
  unfold longer_first, not_shorter. intros ?%bool_decide_eq_false. lia.
Qed.

#[local] Instance not_shorter_trans : Transitive not_shorter.
Proof. unfold not_shorter. intros x y z ? ?. lia. Qed.

Lemma sorted_hall_sorted hall : StronglySorted not_shorter (sorted_hall hall).
Proof.
  apply sorted_by_StronglySorted;
    [apply _ | apply longer_first_true | apply longer_first_false].
Qed.

Lemma trim_hall_length hall : (length (trim_hall hall) ≤ 100)%nat.
Proof.
  unfold trim_hall. destruct (decide (100 < length hall)%nat); [|lia].
  etrans; [apply dict_of_items_length_le|].
  rewrite length_take. lia.
Qed.

(** A leaderboard over capacity is cut to the first 100 of the sort. *)
Lemma trim_hall_over hall :
  NoDup hall.*1 → (100 < length hall)%nat →
  trim_hall hall = take 100 (sorted_hall hall)
  ∧ length (trim_hall hall) = 100%nat.
Proof.
  intros Hnd Hlen. unfold trim_hall. rewrite decide_True by done.
  rewrite dict_of_items_id.
  - split; [done|]. rewrite length_take.
    unfold sorted_hall. rewrite sorted_by_length. lia.
  - rewrite fmap_take.
    eapply sublist_NoDup; [|apply sublist_take].
    unfold sorted_hall. by rewrite sorted_by_Permutation.
Qed.

(** With one entry per address there is nothing to de-duplicate. *)
Lemma best_loop_distinct hall best :
  NoDup (best.*1 ++ ((λ kc : string * conn, ip kc.2) <$> hall)) →
  fold_left best_step hall best
  = best ++ ((λ kc : string * conn, (ip kc.2, kc)) <$> hall).
Proof.
  revert best. induction hall as [|x hall IH]; intros best Hnd; csimpl.
  - by rewrite app_nil_r.
  - csimpl in Hnd.
    assert (ip x.2 ∉ best.*1) as Hfresh.
    { apply NoDup_app in Hnd as (_ & Hdis & _). intros Hin.
      apply (Hdis _ Hin). apply list_elem_of_here. }
    unfold best_step at 2.
    rewrite (proj2 (dict_get_None _ _) Hfresh).
    rewrite dict_set_fresh by done.
    rewrite IH.
    + by rewrite <- app_assoc.
    + rewrite fmap_app. csimpl. rewrite <- app_assoc. done.
Qed.

Lemma dedup_hall_distinct hall :
  NoDup hall.*1 → NoDup ((λ kc : string * conn, ip kc.2) <$> hall) →
  dedup_hall hall = hall.
Proof.
  intros Hk Hip. unfold dedup_hall, ip_to_best_conn, dict_values.
  rewrite best_loop_distinct by done. simpl.
  rewrite <- list_fmap_compose.
  assert (∀ l : list (string * conn),
            (snd ∘ (λ kc : string * conn, (ip kc.2, kc))) <$> l = l) as Hid.
  { induction l as [|y l IHl]; csimpl; [done|]. by rewrite IHl. }
  rewrite Hid. by apply dict_of_items_id.
Qed.

Section LeaderboardBound.
Variable clock : nat -> Z.
Variable geoip_api : nat -> string -> option api_reply.
Variable json_dump : list (string * stored_conn) -> string.
Variable isoformat : Z -> string.
Variable strftime_local : Z -> string.

Local Abbreviation parse_logs :=
  (parse_endlessh_logs clock geoip_api json_dump isoformat).
Local Abbreviation run_scrapes :=
  (run clock geoip_api json_dump isoformat strftime_local).

(** The leaderboard a pass leaves. *)
Lemma parse_hall sc st lines :
  output_6h sc = Some lines →
  hall_of_fame (parse_logs sc st)
  = merge_hall (rec_hall (reconcile clock geoip_api lines st)).
Proof. intros H6. unfold parse_endlessh_logs. by rewrite H6. Qed.

Lemma parse_hall_bound sc st :
  (length (hall_of_fame st) ≤ 100)%nat →
  (length (hall_of_fame (parse_logs sc st)) ≤ 100)%nat.
Proof.
  intros Hst. destruct (output_6h sc) as [lines|] eqn:H6.
  - rewrite (parse_hall _ _ _ H6). apply trim_hall_length.
  - unfold parse_endlessh_logs. by rewrite H6.
Qed.

Lemma run_hall_bound scs st :
  (length (hall_of_fame st) ≤ 100)%nat →
  (length (hall_of_fame (run_scrapes scs st)) ≤ 100)%nat.
Proof.
  revert st. induction scs as [|sc scs IH]; intros st Hst; [done|].
  simpl. apply IH. simpl. by apply parse_hall_bound.
Qed.

(** C4: a merge leaves at most 100 entries, and so does any sequence of
    scrapes run from a leaderboard within capacity; when the de-duplicated
    leaderboard exceeds 100 entries, exactly the first 100 of its stable
    sort by descending duration are kept, in that order, and no dropped
    entry lasted longer than a kept one; 150 entries of 150 addresses are
    cut to the 100 longest. *)
Theorem C4_leaderboard_capacity (hall : list (string * conn)) :
  (length (merge_hall hall) ≤ 100)%nat
  ∧ (∀ scs st, (length (hall_of_fame st) ≤ 100)%nat →
       (length (hall_of_fame (run_scrapes scs st)) ≤ 100)%nat)
  ∧ ((100 < length (dedup_hall hall))%nat →
       merge_hall hall = take 100 (sorted_hall (dedup_hall hall))
       ∧ length (merge_hall hall) = 100%nat
       ∧ StronglySorted not_shorter (merge_hall hall)
       ∧ merge_hall hall ++ drop 100 (sorted_hall (dedup_hall hall))
           ≡ₚ dedup_hall hall
       ∧ ∀ kept dropped,
           kept ∈ merge_hall hall →
           dropped ∈ drop 100 (sorted_hall (dedup_hall hall)) →
           duration dropped.2 <= duration kept.2)
  ∧ (NoDup hall.*1 →
     NoDup ((λ kc : string * conn, ip kc.2) <$> hall) →
     length hall = 150%nat →
       length (merge_hall hall) = 100%nat
       ∧ merge_hall hall = take 100 (sorted_hall hall)
       ∧ ∀ kept dropped,
           kept ∈ merge_hall hall → dropped ∈ hall →
           dropped ∉ merge_hall hall →
           duration dropped.2 <= duration kept.2).
Proof.
  assert (∀ h : list (string * conn), NoDup h.*1 → (100 < length h)%nat →
    trim_hall h = take 100 (sorted_hall h)
    ∧ length (trim_hall h) = 100%nat
    ∧ StronglySorted not_shorter (trim_hall h)
    ∧ trim_hall h ++ drop 100 (sorted_hall h) ≡ₚ h
    ∧ ∀ kept dropped, kept ∈ trim_hall h →
        dropped ∈ drop 100 (sorted_hall h) →
        duration dropped.2 <= duration kept.2) as Hover.
  { intros h Hnd Hlen.
    destruct (trim_hall_over h Hnd Hlen) as [Heq Hl]. rewrite Heq.
    split_and!; [done| by rewrite <- Heq | | |].
    - apply StronglySorted_take, sorted_hall_sorted.
    - rewrite take_drop. apply sorted_by_Permutation.
    - intros kept dropped Hk Hd.
      apply (StronglySorted_take_drop not_shorter 100 (sorted_hall h));
        [apply sorted_hall_sorted | done..]. }
  split_and!.
  - apply trim_hall_length.
  - apply run_hall_bound.
  - intros Hlen. apply Hover; [apply dedup_hall_NoDup | done].
  - intros Hk Hip Hlen. unfold merge_hall.
    rewrite dedup_hall_distinct by done.
    destruct (Hover hall Hk ltac:(lia)) as (Heq & Hl & _ & Hperm & Htop).
    split_and!; [done..|].
    intros kept dropped Hkept Hd Hnot. apply Htop; [done|].
    rewrite <- Hperm in Hd. apply elem_of_app in Hd as [?|?]; done.
Qed.

End LeaderboardBound.

Lemma C4_leaderboard_capacity_witness :
  length (merge_hall (Sample.wide_hall 150)) = 100%nat
  ∧ merge_hall (Sample.wide_hall 150)
    = take 100 (sorted_hall (Sample.wide_hall 150)).
Proof.
  pose proof (C4_leaderboard_capacity Sample.clock Sample.api_down
    Sample.json_dump Sample.isoformat pretty (Sample.wide_hall 150))
    as (_ & _ & _ & H).
  destruct H as (Hlen & Heq & _).
  - refine (@bool_decide_unpack _ (NoDup_dec _) _). vm_compute. exact I.
  - refine (@bool_decide_unpack _ (NoDup_dec _) _). vm_compute. exact I.
  - vm_compute. reflexivity.
  - split; assumption.
Defined.

Example merge_wide_hall_head :
  duration <$> dict_values (take 3 (merge_hall (Sample.wide_hall 150)))
  = [150000000; 149000000; 148000000].
Proof. vm_compute. reflexivity. Qed.

(** ** Durations *)

Lemma set_duration_twice c a b :
  set_duration (set_duration c a) b = set_duration c b.
Proof. done. Qed.

Lemma last_close_spec k lines m :
  last_close k lines = Some m →
  ∃ l, l ∈ lines ∧ close_of l = Some m ∧ conn_id (c_ip m) (c_port m) = k.
Proof.
  induction lines as [|l lines IH]; simpl; [done|].
  destruct (last_close k lines) as [m'|].
  - intros [= ->]. destruct IH as (l' & ? & ? & ?); [done|].
    exists l'. split_and!; [by apply list_elem_of_further|done..].
  - destruct (close_of l) as [m'|] eqn:E; [|done].
    destruct (decide _) as [Hk|]; [|done]. intros [= ->].
    exists l. split_and!; [apply list_elem_of_here|done..].
Qed.

Lemma last_close_is_Some k lines l m :
  l ∈ lines → close_of l = Some m → conn_id (c_ip m) (c_port m) = k →
  is_Some (last_close k lines).
Proof.
  induction lines as [|l0 lines IH]; intros Hl Hm Hk.
  - by apply elem_of_nil in Hl.
  - simpl. apply elem_of_cons in Hl as [->|Hl].
    + destruct (last_close k lines); [by eexists|].
      rewrite Hm, decide_True by done. by eexists.
    + destruct (IH Hl Hm Hk) as [m' ->]. by eexists.
Qed.

(** After the CLOSE loop a record carries the duration of the last close
    event under its key, and is otherwise as it was. *)
Lemma close_loop_get lines acc k r :
  dict_get k (fold_left close_step lines acc).1 = Some r →
  ∃ r0, dict_get k acc.1 = Some r0
        ∧ r = match last_close k lines with
              | Some m => set_duration r0 (c_time m)
              | None => r0
              end.
Proof.
  revert acc. induction lines as [|l lines IH]; intros acc Hr; simpl in *.
  - by exists r.
  - destruct (IH _ Hr) as (r1 & Hr1 & ->). clear IH Hr.
    unfold close_step in Hr1.
    destruct (close_of l) as [m|]; simpl in Hr1.
    + destruct (dict_get (conn_id (c_ip m) (c_port m)) acc.1) as [c|] eqn:E;
        simpl in Hr1.
      * rewrite dict_get_set in Hr1.
        destruct (decide (conn_id (c_ip m) (c_port m) = k)) as [Hk|Hk].
        -- injection Hr1 as <-. exists c. rewrite <- Hk at 1. split; [done|].
           by destruct (last_close k lines).
        -- exists r1. split; [done|]. by destruct (last_close k lines).
      * exists r1. split; [done|].
        destruct (last_close k lines); [done|].
        destruct (decide _) as [Hk|]; [|done]. congruence.
    + exists r1. split; [done|]. by destruct (last_close k lines).
Qed.

Section DurationFacts.
Variable clock : nat -> Z.
Variable geoip_api : nat -> string -> option api_reply.

Local Abbreviation reconcile := (reconcile clock geoip_api).
Local Abbreviation refresh_trapped := (refresh_trapped clock).

Lemma refresh_trapped_ticks t conns : (t ≤ (refresh_trapped t conns).2)%nat.
Proof.
  revert t. induction conns as [|[k c] conns IH]; intros t; simpl; [done|].
  destruct (decide (conn_status c = trapped)); simpl; [|apply IH].
  etrans; [|apply IH]. lia.
Qed.

(** After the refresh a terminated record is as it was, and an active one
    has the difference between a reading of this loop and its start. *)
Lemma refresh_trapped_get t conns k r' :
  dict_get k (refresh_trapped t conns).1 = Some r' →
  ∃ r, dict_get k conns = Some r
       ∧ ((conn_status r = released ∧ r' = r)
          ∨ (conn_status r = trapped
             ∧ ∃ n, (t ≤ n < (refresh_trapped t conns).2)%nat
                    ∧ r' = set_duration r (clock n - started r))).
Proof.
  revert t. induction conns as [|[k0 c] conns IH]; intros t; simpl; [done|].
  destruct (decide (conn_status c = trapped)) as [Htr|Hrel]; simpl.
  - destruct (decide (k = k0)) as [->|Hne].
    + intros [= <-]. exists c. split; [done|]. right. split; [done|].
      exists t. split; [|done].
      pose proof (refresh_trapped_ticks (S t) conns). lia.
    + intros H. destruct (IH _ H) as (r & Hr & Hcase).
      exists r. split; [done|].
      destruct Hcase as [?|(? & n & Hn & ?)]; [by left|right].
      split; [done|]. exists n. split; [lia|done].
  - destruct (decide (k = k0)) as [->|Hne].
    + intros [= <-]. exists c. split; [done|]. left.
      split; [by destruct (conn_status c)|done].
    + apply IH.
Qed.

Lemma accept_loop_ticks closed lines acc :
  (acc_ticks acc
   ≤ acc_ticks (fold_left (accept_step clock geoip_api closed) lines acc))%nat.
Proof.
  revert acc. induction lines as [|l lines IH]; intros acc; simpl; [done|].
  etrans; [|apply IH]. unfold accept_step.
  destruct (accept_of l); [|done]. simpl.
  destruct (ts_of l); simpl; lia.
Qed.

(** C6: in the reconciled working set a terminated record whose key is the
    key of a close event of the window has the duration that close event
    reports (the last one, when several have the key), whatever the clock;
    an active record has the difference between a clock reading taken in
    this pass and its start. *)
Theorem C6_durations (lines : list line) (st : state) (k : string) (r : conn) :
  dict_get k (rec_conns (reconcile lines st)) = Some r →
  (conn_status r = released →
   (∃ l m, l ∈ lines ∧ close_of l = Some m
           ∧ conn_id (c_ip m) (c_port m) = k) →
   ∃ l m, l ∈ lines ∧ close_of l = Some m
          ∧ conn_id (c_ip m) (c_port m) = k
          ∧ last_close k lines = Some m
          ∧ duration r = c_time m)
  ∧ (conn_status r = trapped →
     ∃ n, (ticks st < n < acc_ticks (rec_acc (reconcile lines st)))%nat
          ∧ duration r = clock n - started r).
Proof.
  unfold reconcile. simpl. intros Hr.
  apply refresh_trapped_get in Hr as (r1 & Hr1 & Hcase).
  apply close_loop_get in Hr1 as (r0 & Hr0 & Hr1). simpl in Hr0.
  split.
  - intros Hrel (l & m & Hl & Hm & Hk).
    destruct Hcase as [[_ ->]|[Htr (n & _ & ->)]]; [|simpl in Hrel; congruence].
    destruct (last_close_is_Some k lines l m Hl Hm Hk) as [m' Hm'].
    destruct (last_close_spec _ _ _ Hm') as (l' & ? & ? & ?).
    exists l', m'. split_and!; [done..|].
    rewrite Hr1, Hm'. done.
  - intros Htr.
    destruct Hcase as [[Hrel ->]|[_ (n & Hn & ->)]]; [congruence|].
    exists n. split; [|done]. split; [|lia].
    pose proof (accept_loop_ticks (closed_ports_of lines) lines
      (AcceptAcc [] [] (ip_locations st) (S (ticks st)) (api_calls st))) as Ht.
    simpl in Ht. lia.
Qed.

End DurationFacts.

Lemma C6_durations_witness :
  (∃ n, (0 < n < 2)%nat
        ∧ Sample.clock 1 - Sample.t0 = Sample.clock n - Sample.t0)
  ∧ ∃ l m, l ∈ Sample.open_and_closed ∧ close_of l = Some m
           ∧ conn_id (c_ip m) (c_port m) = "203.0.113.9:40002"
           ∧ last_close "203.0.113.9:40002" Sample.open_and_closed = Some m
           ∧ 734500000 = c_time m.
Proof.
  split.
  - pose proof (C6_durations Sample.clock Sample.api_down
      Sample.open_and_closed (initial_state None) "203.0.113.5:40001"
      (Conn "203.0.113.5" "40001" "4" "Unknown" "Unknown" "XX"
            Sample.t0 (Sample.clock 1 - Sample.t0) trapped) eq_refl)
      as [_ Htr].
    exact (Htr eq_refl).
  - pose proof (C6_durations Sample.clock Sample.api_down
      Sample.open_and_closed (initial_state None) "203.0.113.9:40002"
      (Conn "203.0.113.9" "40002" "5" "Unknown" "Unknown" "XX"
            (Sample.t0 + 1000000) 734500000 released) eq_refl)
      as [Hrel _].
    apply (Hrel eq_refl).
    exists (Sample.close_line "203.0.113.9" "40002" "5" 734500000
              "2025-10-14T16:18:55" (Sample.t0 + 735500000)),
           (CloseMatch "203.0.113.9" "40002" "5" 734500000).
    split_and!; [|reflexivity..].
    apply list_elem_of_further, list_elem_of_further, list_elem_of_here.
Defined.

(** ** The leaderboard file *)

Section Persistence.
Variable clock : nat -> Z.
Variable geoip_api : nat -> string -> option api_reply.
Variable json_load : string -> result (list (string * stored_conn)).
Variable json_dump : list (string * stored_conn) -> string.
Variable fromisoformat : string -> result Z.
Variable isoformat : Z -> string.

Local Abbreviation load := (load_hall_of_fame json_load fromisoformat).
Local Abbreviation save := (save_hall_of_fame json_dump isoformat).
Local Abbreviation parse_logs :=
  (parse_endlessh_logs clock geoip_api json_dump isoformat).

Lemma save_same_memory io st : same_memory (save io st) st.
Proof. destruct io; repeat split. Qed.

(** C8: loading from a missing file, from a text [json.load] rejects, or
    from entries whose start does not parse, gives the empty leaderboard
    and a printed line, in a state that is otherwise the one before; a
    write that raises prints a line and changes no global, and the pass
    that contains it ends with the same globals as with a working write. *)
Theorem C8_load_and_save_failures (st : state) :
  (hof_file st = None →
     load st
     = set_hall_of_fame []
         (print "No existing Hall of Fame found, starting fresh" st))
  ∧ (∀ text e, hof_file st = Some text → json_load text = Raised e →
       load st
       = set_hall_of_fame [] (print ("Error loading Hall of Fame: " +:+ e) st))
  ∧ (∀ text data e, hof_file st = Some text → json_load text = Ok data →
       parse_started fromisoformat data = Raised e →
       load st
       = set_hall_of_fame [] (print ("Error loading Hall of Fame: " +:+ e) st))
  ∧ (hof_file st = None ∨ (∃ text e, hof_file st = Some text
                                     ∧ json_load text = Raised e) →
       hall_of_fame (load st) = [])
  ∧ (∀ e remains,
       same_memory (save (io_raises e remains) st) st
       ∧ stdout (save (io_raises e remains) st)
         = stdout st ++ ["Error saving Hall of Fame: " +:+ e])
  ∧ (∀ o6 o5 e remains,
       same_memory (parse_logs (Scrape o6 o5 (io_raises e remains)) st)
                   (parse_logs (Scrape o6 o5 io_ok) st)).
Proof.
  split_and!.
  - intros H. unfold load_hall_of_fame. by rewrite H.
  - intros text e Hf Hj. unfold load_hall_of_fame, load_try.
    by rewrite Hf, Hj.
  - intros text data e Hf Hj Hp. unfold load_hall_of_fame, load_try.
    rewrite Hf, Hj. simpl. by rewrite Hp.
  - intros [H|(text & e & Hf & Hj)]; unfold load_hall_of_fame, load_try.
    + by rewrite H.
    + by rewrite Hf, Hj.
  - intros e remains. split; [apply save_same_memory | done].
  - intros o6 o5 e remains. unfold parse_endlessh_logs. simpl.
    destruct o6 as [lines|]; repeat split.
Qed.

End Persistence.

Lemma C8_load_and_save_failures_witness :
  hall_of_fame
    (load_hall_of_fame Sample.json_reject Sample.fromisoformat
       (initial_state (Some "{")))
  = []
  ∧ hall_of_fame
      (load_hall_of_fame Sample.json_reject Sample.fromisoformat
         (initial_state None))
    = [].
Proof.
  split.
  - apply (C8_load_and_save_failures Sample.clock Sample.api_down
             Sample.json_reject Sample.json_dump Sample.fromisoformat
             Sample.isoformat (initial_state (Some "{"))).
    right. exists "{", "Expecting value: line 1 column 1 (char 0)".
    split; reflexivity.
  - apply (C8_load_and_save_failures Sample.clock Sample.api_down
             Sample.json_reject Sample.json_dump Sample.fromisoformat
             Sample.isoformat (initial_state None)).
    left. reflexivity.
Defined.

(** ** The geolocation cache *)

Section GeoCache.
Variable clock : nat -> Z.
Variable geoip_api : nat -> string -> option api_reply.

Local Abbreviation get_geoip := (get_geoip_data geoip_api).
Local Abbreviation step := (accept_step clock geoip_api).
Local Abbreviation reconcile := (reconcile clock geoip_api).

(** A lookup of an address that is not cached sends one request, and
    caches the answer only if its status is success. *)
Lemma get_geoip_data_uncached i locs calls :
  dict_get i locs = None →
  ∃ g locs', get_geoip i locs calls = (g, locs', calls ++ [i])
    ∧ ((g = fallback_geo ∧ locs' = locs
        ∧ (geoip_api (length calls) i = None
           ∨ ∃ r, geoip_api (length calls) i = Some r
                  ∧ r_status r ≠ Some "success"))
       ∨ (∃ r, geoip_api (length calls) i = Some r
               ∧ r_status r = Some "success"
               ∧ g = geo_of_reply r ∧ locs' = dict_set i g locs)).
Proof.
  intros Hi. unfold get_geoip_data. rewrite Hi.
  destruct (geoip_api (length calls) i) as [r|] eqn:E.
  - destruct (decide (r_status r = Some "success")) as [Hs|Hs].
    + eexists _, _. split; [done|]. right. by exists r.
    + eexists _, _. split; [done|]. left. split_and!; [done..|].
      right. by exists r.
  - eexists _, _. split; [done|]. left. split_and!; [done..|]. by left.
Qed.

Lemma get_geoip_data_cached i locs calls g :
  dict_get i locs = Some g → get_geoip i locs calls = (g, locs, calls).
Proof. intros Hi. unfold get_geoip_data. by rewrite Hi. Qed.

(** What one ACCEPT line does to the cache and to the requests. *)
Lemma accept_step_geo closed acc l m :
  accept_of l = Some m →
  (is_Some (dict_get (a_ip m) (acc_locs acc))
   ∧ acc_locs (step closed acc l) = acc_locs acc
   ∧ acc_calls (step closed acc l) = acc_calls acc)
  ∨ (dict_get (a_ip m) (acc_locs acc) = None
     ∧ acc_locs (step closed acc l)
       = (get_geoip (a_ip m) (acc_locs acc) (acc_calls acc)).1.2
     ∧ acc_calls (step closed acc l) = acc_calls acc ++ [a_ip m]).
Proof.
  intros Hm. unfold accept_step. rewrite Hm. simpl.
  unfold dict_in.
  destruct (dict_get (a_ip m) (acc_locs acc)) as [g|] eqn:E.
  - left. split_and!; [by eexists | done..].
  - right. split; [done|].
    destruct (get_geoip_data_uncached _ _ (acc_calls acc) E)
      as (g & locs' & -> & _). done.
Qed.

Lemma accept_step_calls_prefix closed acc l :
  ∃ extra, acc_calls (step closed acc l) = acc_calls acc ++ extra.
Proof.
  destruct (accept_of l) as [m|] eqn:Hm.
  - destruct (accept_step_geo closed acc l m Hm) as [(_ & _ & ->)|(_ & _ & ->)].
    + exists []. by rewrite app_nil_r.
    + by eexists.
  - unfold accept_step. rewrite Hm.
    exists []. by rewrite app_nil_r.
Qed.

Lemma accept_loop_calls_prefix closed lines acc :
  ∃ extra,
    acc_calls (fold_left (step closed) lines acc)
    = acc_calls acc ++ extra.
Proof.
  revert acc. induction lines as [|l lines IH]; intros acc; simpl.
  - exists []. by rewrite app_nil_r.
  - destruct (IH (step closed acc l)) as [e2 ->].
    destruct (accept_step_calls_prefix closed acc l) as [e1 ->].
    exists (e1 ++ e2). by rewrite app_assoc.
Qed.

(** An address that is not cached stays so while other lines go by. *)
Lemma accept_step_other_uncached closed acc l i :
  dict_get i (acc_locs acc) = None →
  (∀ m, accept_of l = Some m → a_ip m ≠ i) →
  dict_get i (acc_locs (step closed acc l)) = None.
Proof.
  intros Hi Hl. destruct (accept_of l) as [m|] eqn:Hm.
  - specialize (Hl m eq_refl).
    destruct (accept_step_geo closed acc l m Hm)
      as [(_ & -> & _)|(Hu & -> & _)]; [done|].
    destruct (get_geoip_data_uncached _ _ (acc_calls acc) Hu)
      as (g & locs' & -> & [(_ & -> & _)|(r & _ & _ & _ & ->)]); simpl;
      [done|].
    by rewrite dict_get_set_ne.
  - unfold accept_step. by rewrite Hm.
Qed.

(** A pass that sees an open event of an address that is not cached sends
    a request for it. *)
Lemma accept_loop_requests closed lines acc i :
  dict_get i (acc_locs acc) = None →
  (∃ l m, l ∈ lines ∧ accept_of l = Some m ∧ a_ip m = i) →
  ∃ n, (length (acc_calls acc) ≤ n)%nat
       ∧ acc_calls (fold_left (step closed) lines acc) !! n = Some i.
Proof.
  revert acc. induction lines as [|l0 lines IH]; intros acc Hi Hex.
  - destruct Hex as (l & m & Hl & _). by apply elem_of_nil in Hl.
  - simpl.
    destruct (accept_of l0) as [m0|] eqn:Hm0.
    + destruct (decide (a_ip m0 = i)) as [Heq|Hne].
      * exists (length (acc_calls acc)). split; [done|].
        destruct (accept_loop_calls_prefix closed lines
                    (step closed acc l0)) as [extra ->].
        destruct (accept_step_geo closed acc l0 m0 Hm0)
          as [([g Hg] & _)|(_ & _ & ->)]; [congruence|].
        rewrite <- app_assoc, Heq.
        rewrite lookup_app_r by done. by rewrite Nat.sub_diag.
      * destruct (IH (step closed acc l0)) as (n & Hn & Hlook).
        -- apply accept_step_other_uncached; [done|]. congruence.
        -- destruct Hex as (l & m & [->|Hl]%elem_of_cons & Hm & Hip);
             [congruence|]. by exists l, m.
        -- exists n. split; [|done].
           destruct (accept_step_calls_prefix closed acc l0) as [e1 He1].
           rewrite He1, length_app in Hn. lia.
    + destruct (IH (step closed acc l0)) as (n & Hn & Hlook).
      * apply accept_step_other_uncached; [done|]. congruence.
      * destruct Hex as (l & m & [->|Hl]%elem_of_cons & Hm & Hip);
          [congruence|]. by exists l, m.
      * exists n. split; [|done].
        destruct (accept_step_calls_prefix closed acc l0) as [e1 He1].
        rewrite He1, length_app in Hn. lia.
Qed.

(** C9: when the address is not cached and the request fails (no answer,
    time-out, unreadable body) or is answered with a status other than
    success, [get_geoip_data] returns the Unknown placeholder, leaves the
    cache as it was and has sent one request; the record of an open event
    of that address gets the default location values; a later pass that
    sees an open event of an address still not cached sends a request for
    it again; and a lookup changes the cache only by adding the location of
    a reply whose status is success. *)
Theorem C9_failed_lookup_not_cached
    (i : string) (locs : list (string * geo)) (calls : list string) :
  dict_get i locs = None →
  (geoip_api (length calls) i = None
   ∨ ∃ r, geoip_api (length calls) i = Some r ∧ r_status r ≠ Some "success") →
  get_geoip i locs calls = (fallback_geo, locs, calls ++ [i])
  ∧ (∀ closed acc l m,
       accept_of l = Some m → a_ip m = i →
       acc_locs acc = locs → acc_calls acc = calls →
       acc_locs (step closed acc l) = locs
       ∧ acc_calls (step closed acc l) = calls ++ [i]
       ∧ ∃ r, dict_get (conn_id i (a_port m)) (acc_conns (step closed acc l))
              = Some r
              ∧ country r = "Unknown" ∧ city r = "Unknown"
              ∧ country_code r = "XX")
  ∧ (∀ lines st,
       dict_get i (ip_locations st) = None →
       (∃ l m, l ∈ lines ∧ accept_of l = Some m ∧ a_ip m = i) →
       ∃ n, (length (api_calls st) ≤ n)%nat
            ∧ acc_calls (rec_acc (reconcile lines st)) !! n = Some i)
  ∧ (∀ j locs0 calls0,
       (get_geoip j locs0 calls0).1.2 = locs0
       ∨ ∃ r, dict_get j locs0 = None
              ∧ geoip_api (length calls0) j = Some r
              ∧ r_status r = Some "success"
              ∧ (get_geoip j locs0 calls0).1.2
                = dict_set j (geo_of_reply r) locs0).
Proof.
  intros Hi Hfail.
  assert (get_geoip i locs calls = (fallback_geo, locs, calls ++ [i])) as Hget.
  { destruct (get_geoip_data_uncached i locs calls Hi)
      as (g & locs' & -> & [(-> & -> & _)|(r & Hr & Hs & _)]); [done|].
    destruct Hfail as [Hn|(r' & Hr' & Hs')]; congruence. }
  split_and!.
  - exact Hget.
  - intros closed acc l m Hm Hip Hlocs Hcalls.
    destruct (accept_step_geo closed acc l m Hm)
      as [([g Hg] & _)|(_ & Hl & Hc)]; [congruence|].
    rewrite Hip, Hlocs, Hcalls, Hget in Hl. rewrite Hip, Hcalls in Hc.
    split_and!; [done..|].
    unfold accept_step. rewrite Hm. simpl. rewrite Hip.
    rewrite dict_get_set_eq. eexists. split; [done|].
    unfold dict_in. rewrite Hlocs, Hi, Hcalls, Hget. simpl. by rewrite Hi.
  - intros lines st Hst Hex.
    apply (accept_loop_requests (closed_ports_of lines) lines
             (AcceptAcc [] [] (ip_locations st) (S (ticks st)) (api_calls st)));
      done.
  - intros j locs0 calls0.
    destruct (dict_get j locs0) as [g|] eqn:Hj.
    + left. by rewrite (get_geoip_data_cached _ _ _ _ Hj).
    + destruct (get_geoip_data_uncached j locs0 calls0 Hj)
        as (g & locs' & -> & [(_ & -> & _)|(r & Hr & Hs & -> & ->)]);
        [by left|right].
      by exists r.
Qed.

End GeoCache.

Lemma C9_failed_lookup_not_cached_witness :
  get_geoip_data Sample.api_flaky "203.0.113.5" [] []
  = (fallback_geo, [], ["203.0.113.5"]).
Proof.
  apply (C9_failed_lookup_not_cached Sample.clock Sample.api_flaky
           "203.0.113.5" [] []).
  - reflexivity.
  - right. eexists. split; [reflexivity|]. discriminate.
Defined.

(** Two open events of one address: the first two requests fail, the pass
    after them asks a third time and caches the answer. *)
Example retry_until_success :
  let st1 := parse_endlessh_logs Sample.clock Sample.api_flaky
               Sample.json_dump Sample.isoformat
               (Sample.scrape_of Sample.same_origin_twice) (initial_state None) in
  let st2 := parse_endlessh_logs Sample.clock Sample.api_flaky
               Sample.json_dump Sample.isoformat
               (Sample.scrape_of Sample.same_origin_twice) st1 in
  ip_locations st1 = []
  ∧ api_calls st1 = ["203.0.113.5"; "203.0.113.5"]
  ∧ api_calls st2 = ["203.0.113.5"; "203.0.113.5"; "203.0.113.5"]
  ∧ dict_get "203.0.113.5" (ip_locations st2)
    = Some (Geo "Germany" "DE" "Berlin" 52520000 13405000).
Proof. vm_compute. done. Qed.

(** ** Aggregates *)

Section Aggregates.
Variable clock : nat -> Z.
Variable geoip_api : nat -> string -> option api_reply.
Variable json_dump : list (string * stored_conn) -> string.
Variable isoformat : Z -> string.
Variable strftime_local : Z -> string.

Local Abbreviation step := (accept_step clock geoip_api).
Local Abbreviation parse_logs :=
  (parse_endlessh_logs clock geoip_api json_dump isoformat).

Lemma opens_of_cons i l lines :
  opens_of i (l :: lines)
  = ((if decide (is_open_of i l) then 1 else 0) + opens_of i lines)%nat.
Proof.
  unfold opens_of. rewrite filter_cons. by destruct (decide (is_open_of i l)).
Qed.

Lemma accept_step_per_ip closed acc l :
  acc_per_ip (step closed acc l)
  = match accept_of l with
    | Some m =>
        dict_set (a_ip m)
          (default 0%nat (dict_get (a_ip m) (acc_per_ip acc)) + 1)%nat
          (acc_per_ip acc)
    | None => acc_per_ip acc
    end.
Proof. unfold accept_step. by destruct (accept_of l). Qed.

(** [connections_per_ip] after the ACCEPT loop. *)
Lemma accept_loop_per_ip closed lines acc i :
  dict_get i (acc_per_ip (fold_left (step closed) lines acc))
  = match opens_of i lines with
    | O => dict_get i (acc_per_ip acc)
    | S n => Some (default 0%nat (dict_get i (acc_per_ip acc)) + S n)%nat
    end.
Proof.
  revert acc. induction lines as [|l lines IH]; intros acc; [done|].
  simpl. rewrite IH, opens_of_cons, accept_step_per_ip. clear IH.
  destruct (decide (is_open_of i l)) as [Ho|Ho]; unfold is_open_of in Ho;
    destruct (accept_of l) as [m|]; simpl in *; try done.
  - injection Ho as ->. rewrite dict_get_set_eq. simpl.
    destruct (opens_of i lines); simpl; f_equal; lia.
  - rewrite dict_get_set_ne by congruence. done.
Qed.

Lemma accept_loop_per_ip_NoDup closed lines acc :
  NoDup (acc_per_ip acc).*1 →
  NoDup (acc_per_ip (fold_left (step closed) lines acc)).*1.
Proof.
  revert acc. induction lines as [|l lines IH]; intros acc H; [done|].
  simpl. apply IH. rewrite accept_step_per_ip.
  destruct (accept_of l); [|done]. by apply dict_set_NoDup.
Qed.

Lemma parse_per_ip sc st lines i :
  output_6h sc = Some lines →
  NoDup (connections_per_ip (parse_logs sc st)).*1
  ∧ dict_get i (connections_per_ip (parse_logs sc st))
    = match opens_of i lines with
      | O => None
      | S n => Some (S n)
      end.
Proof.
  intros H6. unfold parse_endlessh_logs. rewrite H6.
  destruct (save_io sc); simpl.
  - split; [apply accept_loop_per_ip_NoDup, NoDup_nil_2|].
    rewrite accept_loop_per_ip. simpl. by destruct (opens_of i lines).
  - split; [apply accept_loop_per_ip_NoDup, NoDup_nil_2|].
    rewrite accept_loop_per_ip. simpl. by destruct (opens_of i lines).
Qed.

(** The samples of the loop over the displayed connections. *)
Lemma connection_info_loop_series idx gm cur last items :
  series_connection_info
    (connection_info_loop strftime_local idx gm cur last items)
  = (λ kc : string * conn, (ip kc.2, duration kc.2)) <$> items
  ∧ series_per_ip
      (connection_info_loop strftime_local idx gm cur last items) = []
  ∧ series_unique_ips
      (connection_info_loop strftime_local idx gm cur last items) = []
  ∧ series_per_country
      (connection_info_loop strftime_local idx gm cur last items) = [].
Proof.
  revert idx gm cur last.
  induction items as [|[k c] items IH]; intros idx gm cur last; [done|].
  unfold series_per_ip, series_unique_ips, series_per_country,
    series_connection_info in *.
  csimpl. edestruct IH as (-> & -> & -> & ->). done.
Qed.

Lemma per_ip_samples_series locs durs (per_ip : list (string * nat)) :
  series_per_ip (per_ip_sample locs durs <$> per_ip) = per_ip
  ∧ series_connection_info (per_ip_sample locs durs <$> per_ip) = []
  ∧ series_unique_ips (per_ip_sample locs durs <$> per_ip) = []
  ∧ series_per_country (per_ip_sample locs durs <$> per_ip) = [].
Proof.
  induction per_ip as [|[i n] per_ip IH]; [done|].
  unfold series_per_ip, series_unique_ips, series_per_country,
    series_connection_info in *.
  csimpl. destruct IH as (-> & -> & -> & ->). done.
Qed.

Lemma per_country_samples_series (countries : list (string * nat)) :
  series_per_country (per_country_sample <$> countries)
  = (λ kc : string * nat, (strip_quotes kc.1, kc.2)) <$> countries
  ∧ series_connection_info (per_country_sample <$> countries) = []
  ∧ series_unique_ips (per_country_sample <$> countries) = []
  ∧ series_per_ip (per_country_sample <$> countries) = [].
Proof.
  induction countries as [|[c n] countries IH]; [done|].
  unfold series_per_ip, series_unique_ips, series_per_country,
    series_connection_info in *.
  csimpl. destruct IH as (-> & -> & -> & ->). done.
Qed.

(** The four series of an exposition. *)
Lemma render_series st :
  series_per_ip (render strftime_local st) = connections_per_ip st
  ∧ series_unique_ips (render strftime_local st)
    = [length (connections_per_ip st)]
  ∧ series_per_country (render strftime_local st)
    = (λ kc : string * nat, (strip_quotes kc.1, kc.2))
      <$> countries_of (ip_locations st) (connections_per_ip st)
  ∧ series_connection_info (render strftime_local st)
    = (λ kc : string * conn, (ip kc.2, duration kc.2))
      <$> sorted_by sort_key_le (individual_connections st).
Proof.
  unfold render.
  pose proof (connection_info_loop_series 0 [] 0 None
    (sorted_by sort_key_le (individual_connections st))) as (A1 & A2 & A3 & A4).
  pose proof (per_ip_samples_series (ip_locations st)
    (ip_durations_of (individual_connections st)) (connections_per_ip st))
    as (B1 & B2 & B3 & B4).
  pose proof (per_country_samples_series
    (countries_of (ip_locations st) (connections_per_ip st)))
    as (C1 & C2 & C3 & C4).
  unfold series_per_ip, series_unique_ips, series_per_country,
    series_connection_info in *.
  rewrite !omap_app.
  rewrite A1, A2, A3, A4, B1, B2, B3, B4, C1, C2, C3, C4.
  simpl. rewrite !app_nil_r. done.
Qed.

(** A country's total is the sum of the counts of the addresses of
    [connections_per_ip] that the cache places in it. *)
Lemma countries_loop locs (per_ip acc : list (string * nat)) c :
  default 0%nat (dict_get c (fold_left (countries_step locs) per_ip acc))
  = (default 0%nat (dict_get c acc)
     + sum_list_with snd
         (filter (λ kc : string * nat, country_of locs kc.1 = c) per_ip))%nat.
Proof.
  revert acc. induction per_ip as [|[i n] per_ip IH]; intros acc; simpl.
  - lia.
  - rewrite IH. unfold countries_step. simpl. fold (country_of locs i).
    rewrite dict_get_set, filter_cons. simpl.
    destruct (decide (country_of locs i = c)) as [->|Hne]; simpl; lia.
Qed.

Lemma countries_loop_keys locs (per_ip acc : list (string * nat)) c :
  c ∈ (fold_left (countries_step locs) per_ip acc).*1 →
  c ∈ acc.*1 ∨ ∃ kc, kc ∈ per_ip ∧ country_of locs kc.1 = c.
Proof.
  revert acc. induction per_ip as [|[i n] per_ip IH]; intros acc; simpl.
  - by left.
  - intros [Hc|(kc & Hin & Hkc)]%IH.
    + unfold countries_step in Hc. simpl in Hc. fold (country_of locs i) in Hc.
      rewrite dict_set_keys in Hc.
      destruct (dict_in _ acc); [by left|].
      apply elem_of_snoc in Hc as [?| ->]; [by left|right].
      exists (i, n). split; [apply list_elem_of_here|done].
    + right. exists kc. split; [by apply list_elem_of_further|done].
Qed.

Lemma merge_hall_NoDup hall : NoDup (merge_hall hall).*1.
Proof.
  unfold merge_hall, trim_hall.
  destruct (decide _); [apply dict_of_items_NoDup | apply dedup_hall_NoDup].
Qed.

(** What a pass leaves for display: the active records of the working
    set, overwritten and followed by the leaderboard. *)
Lemma parse_display sc st lines :
  output_6h sc = Some lines →
  individual_connections (parse_logs sc st)
  = dict_update
      (filter is_trapped (rec_conns (reconcile clock geoip_api lines st)))
      (hall_of_fame (parse_logs sc st))
  ∧ max_trap_duration (parse_logs sc st)
    = py_max (duration
              <$> dict_values (individual_connections (parse_logs sc st)))
  ∧ avg_trap_duration (parse_logs sc st)
    = py_mean (duration
               <$> dict_values (individual_connections (parse_logs sc st)))
  ∧ NoDup (hall_of_fame (parse_logs sc st)).*1.
Proof.
  intros H6. unfold parse_endlessh_logs. rewrite H6.
  destruct (save_io sc); simpl; split_and!; try done; apply merge_hall_NoDup.
Qed.

(** C10: after a pass over a long window, [connections_per_ip] holds
    exactly the addresses with an open event in that window, each with the
    number of its open events; the per-address series is that dictionary,
    the count of distinct addresses its size, and a country's total the sum
    of the counts of those addresses the cache places in it; an address
    that is on the leaderboard and has no open event in the window has a
    connection-info sample and its duration among those the global maximum
    and mean are computed from, and no entry in [connections_per_ip], hence
    no share in the three series. *)
Theorem C10_rollups_from_window_only
    (sc : scrape) (st : state) (lines : list line) :
  output_6h sc = Some lines →
  (NoDup (connections_per_ip (parse_logs sc st)).*1
   ∧ ∀ i, dict_get i (connections_per_ip (parse_logs sc st))
          = match opens_of i lines with
            | O => None
            | S n => Some (S n)
            end)
  ∧ series_per_ip (render strftime_local (parse_logs sc st))
    = connections_per_ip (parse_logs sc st)
  ∧ series_unique_ips (render strftime_local (parse_logs sc st))
    = [length (connections_per_ip (parse_logs sc st))]
  ∧ (series_per_country (render strftime_local (parse_logs sc st))
     = (λ kc : string * nat, (strip_quotes kc.1, kc.2))
       <$> countries_of (ip_locations (parse_logs sc st))
                        (connections_per_ip (parse_logs sc st))
     ∧ ∀ c,
         (default 0%nat
            (dict_get c (countries_of (ip_locations (parse_logs sc st))
                                      (connections_per_ip (parse_logs sc st))))
          = sum_list_with snd
              (filter (λ kc : string * nat,
                         country_of (ip_locations (parse_logs sc st)) kc.1 = c)
                      (connections_per_ip (parse_logs sc st))))
         ∧ (c ∈ (countries_of (ip_locations (parse_logs sc st))
                              (connections_per_ip (parse_logs sc st))).*1 →
            ∃ kc, kc ∈ connections_per_ip (parse_logs sc st)
                  ∧ (0 < opens_of kc.1 lines)%nat
                  ∧ country_of (ip_locations (parse_logs sc st)) kc.1 = c))
  ∧ (∀ k c,
       (k, c) ∈ hall_of_fame (parse_logs sc st) →
       opens_of (ip c) lines = 0%nat →
       (ip c, duration c)
         ∈ series_connection_info (render strftime_local (parse_logs sc st))
       ∧ duration c
           ∈ duration
             <$> dict_values (individual_connections (parse_logs sc st))
       ∧ max_trap_duration (parse_logs sc st)
         = py_max (duration
                   <$> dict_values (individual_connections (parse_logs sc st)))
       ∧ avg_trap_duration (parse_logs sc st)
         = py_mean (duration
                    <$> dict_values (individual_connections (parse_logs sc st)))
       ∧ ip c ∉ (series_per_ip (render strftime_local (parse_logs sc st))).*1).
Proof.
  intros H6.
  destruct (render_series (parse_logs sc st)) as (Hs1 & Hs2 & Hs3 & Hs4).
  assert (∀ kc, kc ∈ connections_per_ip (parse_logs sc st) →
                (0 < opens_of kc.1 lines)%nat) as Hopen.
  { intros [i n] Hin. simpl.
    destruct (parse_per_ip sc st lines i H6) as [Hnd Hget].
    apply (dict_get_elem_NoDup _ _ _ Hnd) in Hin. rewrite Hin in Hget.
    destruct (opens_of i lines); [done|lia]. }
  refine (conj _ (conj _ (conj _ (conj _ _)))).
  - split; [by apply (parse_per_ip sc st lines "")|].
    intros i. by apply parse_per_ip.
  - done.
  - done.
  - split; [done|]. intros c. split.
    + unfold countries_of. by rewrite countries_loop.
    + intros Hc. apply countries_loop_keys in Hc as [Hc|(kc & Hin & Hkc)];
        [by apply elem_of_nil in Hc|].
      exists kc. split_and!; [done|by apply Hopen|done].
  - intros k c Hin Hno.
    destruct (parse_display sc st lines H6) as (Hdisp & Hmax & Havg & Hnd).
    assert ((k, c) ∈ individual_connections (parse_logs sc st)) as Hshown.
    { apply dict_get_Some_elem. rewrite Hdisp.
      by apply dict_update_get_r. }
    split_and!; [| |done|done|].
    + rewrite Hs4. apply list_elem_of_fmap. exists (k, c). split; [done|].
      by rewrite sorted_by_Permutation.
    + apply list_elem_of_fmap. exists c. split; [done|].
      apply list_elem_of_fmap. by exists (k, c).
    + rewrite Hs1. intros (kc & Hip & Hkc)%list_elem_of_fmap.
      apply Hopen in Hkc. rewrite <- Hip in Hkc. lia.
Qed.

End Aggregates.

Lemma C10_rollups_from_window_only_witness :
  series_per_ip
    (render pretty
       (parse_endlessh_logs Sample.clock Sample.api_down Sample.json_dump
          Sample.isoformat (Sample.scrape_of Sample.same_origin_twice)
          Sample.with_old_record))
  = connections_per_ip
      (parse_endlessh_logs Sample.clock Sample.api_down Sample.json_dump
         Sample.isoformat (Sample.scrape_of Sample.same_origin_twice)
         Sample.with_old_record).
Proof.
  apply (C10_rollups_from_window_only Sample.clock Sample.api_down
           Sample.json_dump Sample.isoformat pretty
           (Sample.scrape_of Sample.same_origin_twice) Sample.with_old_record
           Sample.same_origin_twice).
  reflexivity.
Defined.

(** The address of the old record is shown and weighs on the maximum, and
    is in none of the three rollups. *)
Example old_record_rendered :
  let samples :=
    (generate_metrics Sample.clock Sample.api_down Sample.json_dump
       Sample.isoformat pretty (Sample.scrape_of Sample.same_origin_twice)
       Sample.with_old_record).1 in
  series_per_ip samples = [("203.0.113.5", 2%nat)]
  ∧ series_unique_ips samples = [1%nat]
  ∧ series_per_country samples = [("Unknown", 2%nat)]
  ∧ ("192.0.2.77", 3600000000) ∈ series_connection_info samples
  ∧ endlessh_max_trap_duration_seconds 3600000000 ∈ samples.
Proof.
  vm_compute. split_and!; try done.
  - apply list_elem_of_further, list_elem_of_further, list_elem_of_here.
  - do 3 apply list_elem_of_further. apply list_elem_of_here.
Qed.

(** ** Scanning a text again *)

Lemma conn_id_inj i1 p1 i2 p2 :
  colon_free i1 = true → colon_free i2 = true →
  conn_id i1 p1 = conn_id i2 p2 → i1 = i2 ∧ p1 = p2.
Proof.
  unfold conn_id. revert i2.
  induction i1 as [|c1 i1 IH]; intros [|c2 i2]; cbn.
  - intros _ _ [= H]. done.
  - intros _ H2 [= Hc _]. subst c2. by rewrite decide_True in H2.
  - intros H1 _ [= Hc _]. subst c1. by rewrite decide_True in H1.
  - intros H1 H2 [= Hc Heq]. subst c2.
    destruct (decide (c1 = ":"%char)); [done|].
    destruct (IH i2 H1 H2 Heq) as [-> ->]. done.
Qed.

Section SetsAgree.
Context (live starts : bool).
Implicit Types (d e : list (string * conn)).

Lemma sets_agree_keys d e : sets_agree live starts d e → d.*1 = e.*1.
Proof. induction 1 as [|x y d e [Hk _] _ IH]; csimpl; [done|]. by rewrite Hk, IH. Qed.

Lemma sets_agree_get d e k :
  sets_agree live starts d e →
  match dict_get k d, dict_get k e with
  | Some a, Some b => agree live starts a b
  | None, None => True
  | _, _ => False
  end.
Proof.
  induction 1 as [|[k1 a] [k2 b] d e [Hk Hab] _ IH]; simpl in *; [done|].
  subst k2. destruct (decide (k = k1)); done.
Qed.

Lemma sets_agree_set d e k a b :
  agree live starts a b → sets_agree live starts d e →
  sets_agree live starts (dict_set k a d) (dict_set k b e).
Proof.
  intros Hab. induction 1 as [|[k1 a1] [k2 b1] d e [Hk H1] Hde IH]; simpl in *.
  - constructor; [done | constructor].
  - subst k2. destruct (decide (k = k1)); constructor; done.
Qed.

End SetsAgree.

Lemma agree_weaken starts a b : agree false starts a b → agree true starts a b.
Proof.
  intros (? & ? & ? & ? & Hd & ?). split_and!; try done.
  intros _. apply Hd. by left.
Qed.

Section Rescan.
Variable clock : nat -> Z.
Variable geoip_api : nat -> string -> option api_reply.
Variable json_dump : list (string * stored_conn) -> string.
Variable isoformat : Z -> string.

Local Abbreviation step := (accept_step clock geoip_api).
Local Abbreviation scan := (reconcile clock geoip_api).
Local Abbreviation parse_logs :=
  (parse_endlessh_logs clock geoip_api json_dump isoformat).

Lemma accept_step_conns closed acc l :
  acc_conns (step closed acc l)
  = match accept_of l with
    | Some m =>
        dict_set (conn_id (a_ip m) (a_port m))
          (accept_record closed m
             (dict_get (a_ip m) (acc_locs (step closed acc l)))
             (match ts_of l with
              | Some t => ts_utc t
              | None => clock (acc_ticks acc)
              end))
          (acc_conns acc)
    | None => acc_conns acc
    end.
Proof.
  unfold accept_step. destruct (accept_of l); [|done]. simpl.
  by destruct (ts_of l).
Qed.

(** Two runs of the ACCEPT loop over the same lines build the same
    records, whatever cache and clock they start from, but for the
    location labels and the start of lines without timestamp. *)
Lemma accept_step_agree starts closed a1 a2 l :
  (starts = true → ∀ m, accept_of l = Some m → is_Some (ts_of l)) →
  sets_agree false starts (acc_conns a1) (acc_conns a2) →
  sets_agree false starts (acc_conns (step closed a1 l))
                          (acc_conns (step closed a2 l)).
Proof.
  intros Hts H. rewrite !accept_step_conns.
  destruct (accept_of l) as [m|] eqn:Hm; [|done].
  apply sets_agree_set; [|done].
  split_and!; try done. intros Hs.
  destruct (Hts Hs m eq_refl) as [t ->]. done.
Qed.

Lemma accept_loop_agree starts closed lines a1 a2 :
  (starts = true → all_stamped lines) →
  sets_agree false starts (acc_conns a1) (acc_conns a2) →
  sets_agree false starts
    (acc_conns (fold_left (step closed) lines a1))
    (acc_conns (fold_left (step closed) lines a2)).
Proof.
  revert a1 a2. induction lines as [|l lines IH]; intros a1 a2 Hts H; [done|].
  simpl. apply IH.
  - intros Hs l' m Hl'. apply (Hts Hs). by apply list_elem_of_further.
  - apply accept_step_agree; [|done].
    intros Hs m Hm. apply (Hts Hs l m); [apply list_elem_of_here | done].
Qed.

Lemma accept_loop_conns_NoDup closed lines acc :
  NoDup (acc_conns acc).*1 →
  NoDup (acc_conns (fold_left (step closed) lines acc)).*1.
Proof.
  revert acc. induction lines as [|l lines IH]; intros acc H; [done|].
  simpl. apply IH. rewrite accept_step_conns.
  destruct (accept_of l); [|done]. by apply dict_set_NoDup.
Qed.

Lemma close_step_agree starts acc1 acc2 l :
  sets_agree false starts acc1.1 acc2.1 →
  sets_agree false starts (close_step acc1 l).1 (close_step acc2 l).1.
Proof.
  intros H. unfold close_step. destruct (close_of l) as [m|]; [|done].
  pose proof (sets_agree_get _ _ _ _ (conn_id (c_ip m) (c_port m)) H) as Hg.
  destruct (dict_get _ acc1.1) as [a|], (dict_get _ acc2.1) as [b|];
    try done. simpl.
  apply sets_agree_set; [|done].
  destruct Hg as (? & ? & ? & ? & ? & ?). split_and!; done.
Qed.

Lemma close_loop_agree starts lines acc1 acc2 :
  sets_agree false starts acc1.1 acc2.1 →
  sets_agree false starts (fold_left close_step lines acc1).1
                          (fold_left close_step lines acc2).1.
Proof.
  revert acc1 acc2. induction lines as [|l lines IH]; intros acc1 acc2 H;
    [done|].
  simpl. apply IH. by apply close_step_agree.
Qed.

Lemma refresh_trapped_agree starts t1 t2 d e :
  sets_agree false starts d e →
  sets_agree true starts (refresh_trapped clock t1 d).1
                         (refresh_trapped clock t2 e).1.
Proof.
  intros H. revert t1 t2.
  induction H as [|[k1 a] [k2 b] d e [Hk Hab] _ IH]; intros t1 t2; simpl.
  - constructor.
  - simpl in Hk, Hab. subst k2.
    destruct Hab as (Hip & Hport & Hfd & Hst & Hdur & Hstart).
    rewrite <- Hst.
    destruct (decide (conn_status a = trapped)) as [Htr|Hrel]; simpl.
    + constructor; [|apply IH]. split; [done|]. simpl.
      split_and!; try done. simpl. intros [?|?]; congruence.
    + constructor; [|apply IH]. split; [done|]. simpl.
      split_and!; try done. intros _. apply Hdur. by left.
Qed.

(** Two scans of one window, from any two states. *)
Lemma reconcile_agree starts lines st1 st2 :
  (starts = true → all_stamped lines) →
  sets_agree true starts (rec_conns (scan lines st1))
                         (rec_conns (scan lines st2)).
Proof.
  intros Hts. unfold reconcile. simpl.
  apply refresh_trapped_agree, close_loop_agree. simpl.
  apply accept_loop_agree; [done|]. simpl. constructor.
Qed.

Lemma reconcile_NoDup lines st : NoDup (rec_conns (scan lines st)).*1.
Proof.
  rewrite reconcile_keys. apply accept_loop_conns_NoDup. apply NoDup_nil_2.
Qed.

(** The CLOSE loop leaves the leaderboard alone under a key that is not in
    the working set. *)
Lemma close_loop_hall_get lines acc k :
  dict_get k acc.1 = None →
  dict_get k (fold_left close_step lines acc).2 = dict_get k acc.2.
Proof.
  revert acc. induction lines as [|l lines IH]; intros acc Hk; [done|].
  simpl. rewrite IH.
  - unfold close_step. destruct (close_of l) as [m|]; [|done].
    destruct (dict_get (conn_id (c_ip m) (c_port m)) acc.1) eqn:E; [|done].
    simpl. apply dict_get_set_ne. congruence.
  - apply dict_get_None. rewrite close_step_keys. by apply dict_get_None.
Qed.

(** C7, as the code has it: two scans of one text give working sets with
    the same keys in the same order, none twice, and records that agree
    in address, port, descriptor and status and in the duration of
    terminated records, and also in the start when every open line carries
    a timestamp; the counter does not move on the second scan when the
    recency set was not cleared at the end of the first; an open event
    whose port is the port of no close event of the window gives, from any
    state, one active record under its key; a close event whose pair is the
    pair of no open event of the window gives no record and leaves the
    leaderboard alone under its key. *)
Theorem C7_rescan_same_text (sc : scrape) (st : state) (lines : list line) :
  output_6h sc = Some lines →
  window_ok lines →
  (NoDup (rec_conns (scan lines st)).*1
   ∧ (rec_conns (scan lines st)).*1
     = (rec_conns (scan lines (parse_logs sc st))).*1
   ∧ sets_agree true false (rec_conns (scan lines st))
                           (rec_conns (scan lines (parse_logs sc st)))
   ∧ (all_stamped lines →
      sets_agree true true (rec_conns (scan lines st))
                           (rec_conns (scan lines (parse_logs sc st)))))
  ∧ ((size (seen_log_entries st ∪ window_ids (short_window sc)) ≤ 1000)%nat →
     total_connections_counter (parse_logs sc (parse_logs sc st))
     = total_connections_counter (parse_logs sc st))
  ∧ (∀ l m st0,
       l ∈ lines → accept_of l = Some m →
       a_port m ∉ closed_ports_of lines →
       ∃ r, filter (λ kc : string * conn, kc.1 = conn_id (a_ip m) (a_port m))
                   (rec_conns (scan lines st0))
            = [(conn_id (a_ip m) (a_port m), r)]
            ∧ conn_status r = trapped
            ∧ ip r = a_ip m ∧ port r = a_port m)
  ∧ (∀ l m,
       l ∈ lines → close_of l = Some m →
       (∀ l' m', l' ∈ lines → accept_of l' = Some m' →
                 (a_ip m', a_port m') ≠ (c_ip m, c_port m)) →
       dict_get (conn_id (c_ip m) (c_port m)) (rec_conns (scan lines st))
       = None
       ∧ dict_get (conn_id (c_ip m) (c_port m)) (rec_hall (scan lines st))
         = dict_get (conn_id (c_ip m) (c_port m)) (hall_of_fame st)).
Proof.
  intros H6 Hok.
  refine (conj _ (conj _ (conj _ _))).
  - split_and!.
    + apply reconcile_NoDup.
    + apply (sets_agree_keys true false). by apply reconcile_agree.
    + by apply reconcile_agree.
    + intros Hst. by apply reconcile_agree.
  - intros Hsize.
    rewrite (parse_counter clock geoip_api json_dump isoformat sc
               (parse_logs sc st)).
    rewrite (parse_seen clock geoip_api json_dump isoformat sc st lines H6).
    unfold cleanup_seen. rewrite decide_False by lia.
    replace (window_ids (short_window sc)
             ∖ (seen_log_entries st ∪ window_ids (short_window sc)))
      with (∅ : gset string) by set_solver.
    rewrite size_empty. lia.
  - intros l m st0 Hl Hm Hport.
    destruct (reconcile_has_key clock geoip_api lines st0 l m Hl Hm)
      as [r Hr].
    destruct (reconcile_origin clock geoip_api lines st0 _ r Hr)
      as (Hid & Hrel & l0 & m0 & Hl0 & Hm0 & Hip0 & Hp0 & _).
    destruct (conn_id_inj (a_ip m) (a_port m) (ip r) (port r))
      as [Hip Hp]; [by apply (Hok l Hl) | | done |].
    { rewrite Hip0. by apply (Hok l0 Hl0). }
    exists r. split_and!; [| |done..].
    + apply dict_get_Some_elem in Hr.
      apply (filter_unique fst _ (conn_id (a_ip m) (a_port m), r));
        [apply reconcile_NoDup | done].
    + destruct (conn_status r) eqn:Hs; [done|].
      exfalso. apply Hport. rewrite Hp. by apply Hrel.
  - intros l m Hl Hm Hnone.
    assert (dict_get (conn_id (c_ip m) (c_port m)) (rec_conns (scan lines st))
            = None) as Hnot.
    { destruct (dict_get _ (rec_conns (scan lines st))) as [r|] eqn:Hr;
        [|done].
      destruct (reconcile_origin clock geoip_api lines st _ r Hr)
        as (Hid & _ & l0 & m0 & Hl0 & Hm0 & Hip0 & Hp0 & _).
      destruct (conn_id_inj (c_ip m) (c_port m) (ip r) (port r))
        as [Hip Hp]; [by apply (Hok l Hl) | | done |].
      { rewrite Hip0. by apply (Hok l0 Hl0). }
      exfalso. apply (Hnone l0 m0 Hl0 Hm0). congruence. }
    split; [done|].
    unfold reconcile at 1. simpl. rewrite close_loop_hall_get; [done|]. simpl.
    apply dict_get_None.
    rewrite <- (reconcile_keys clock geoip_api lines st).
    by apply dict_get_None.
Qed.

End Rescan.

(** Four windows scanned twice from the initial state: 1001 open events
    (the recency set is cleared after the first scan and the second counts
    them again); an open event on a line without timestamp (its start is
    the reading of each scan); two open events while the geolocation
    service starts answering (the labels change); an open event and a close
    event of another address on its port (the open event is terminated,
    with no close event of its key). *)
Lemma C7_rescan_counterexample :
  ¬ rescan_keeps_counter (Sample.scrape_of (Sample.burst 1001))
      (initial_state None)
  ∧ ¬ rescan_keeps_records Sample.api_down Sample.unstamped
        (initial_state None)
  ∧ ¬ rescan_keeps_records Sample.api_flaky Sample.same_origin_twice
        (initial_state None)
  ∧ ¬ unclosed_open_is_active Sample.port_collision (initial_state None).
Proof.
  split_and!.
  - unfold rescan_keeps_counter, Sample.run_sample.
    rewrite !run_cons, !run_nil.
    rewrite (rescan_after_clear Sample.clock Sample.api_down Sample.json_dump
               Sample.isoformat (Sample.scrape_of (Sample.burst 1001))
               (initial_state None) (Sample.burst 1001) eq_refl eq_refl).
    + rewrite short_window_scrape_of, (burst_ids_size 1001).
      generalize (total_connections_counter
        (parse_endlessh_logs Sample.clock Sample.api_down Sample.json_dump
           Sample.isoformat (Sample.scrape_of (Sample.burst 1001))
           (initial_state None))).
      intros n. lia.
    + rewrite short_window_scrape_of, (burst_ids_size 1001). lia.
  - intros H.
    destruct (H _ "203.0.113.5:40001"
      (Conn "203.0.113.5" "40001" "4" "Unknown" "Unknown" "XX"
            (Sample.clock 1) 12000000 released)
      (Conn "203.0.113.5" "40001" "4" "Unknown" "Unknown" "XX"
            (Sample.clock 3) 12000000 released)
      eq_refl eq_refl eq_refl) as [Heq|[Htr _]].
    + discriminate Heq.
    + discriminate Htr.
  - intros H.
    destruct (H _ "203.0.113.5:40001"
      (Conn "203.0.113.5" "40001" "4" "Unknown" "Unknown" "XX"
            Sample.t0 (Sample.clock 1 - Sample.t0) trapped)
      (Conn "203.0.113.5" "40001" "4" "Germany" "Berlin" "DE"
            Sample.t0 (Sample.clock 4 - Sample.t0) trapped)
      eq_refl eq_refl eq_refl) as [Heq|[_ Heq]].
    + discriminate Heq.
    + discriminate Heq.
  - intros H.
    specialize (H
      (Sample.accept_line "203.0.113.5" "40001" "4" "2025-10-14T16:06:40"
         Sample.t0)
      (AcceptMatch "203.0.113.5" "40001" "4" "1")
      (Conn "203.0.113.5" "40001" "4" "Unknown" "Unknown" "XX"
            Sample.t0 0 released)).
    assert (released = trapped) as Habs; [|discriminate Habs].
    apply H.
    + apply list_elem_of_here.
    + reflexivity.
    + intros l' m' Hl' Hm'.
      apply elem_of_cons in Hl' as [->|Hl']; [discriminate Hm'|].
      apply list_elem_of_singleton in Hl' as ->.
      injection Hm' as <-. discriminate.
    + reflexivity.
Qed.

Lemma C7_rescan_same_text_witness :
  window_ok Sample.open_and_closed
  ∧ total_connections_counter
      (parse_endlessh_logs Sample.clock Sample.api_down Sample.json_dump
         Sample.isoformat (Sample.scrape_of Sample.open_and_closed)
         (parse_endlessh_logs Sample.clock Sample.api_down Sample.json_dump
            Sample.isoformat (Sample.scrape_of Sample.open_and_closed)
            (initial_state None)))
    = total_connections_counter
        (parse_endlessh_logs Sample.clock Sample.api_down Sample.json_dump
           Sample.isoformat (Sample.scrape_of Sample.open_and_closed)
           (initial_state None)).
Proof.
  assert (window_ok Sample.open_and_closed) as Hok.
  { intros l Hl.
    repeat (apply elem_of_cons in Hl as [->|Hl]);
      [..|by apply elem_of_nil in Hl];
      (split; intros m [= <-]; reflexivity). }
  split; [exact Hok|].
  apply (C7_rescan_same_text Sample.clock Sample.api_down Sample.json_dump
           Sample.isoformat (Sample.scrape_of Sample.open_and_closed)
           (initial_state None) Sample.open_and_closed eq_refl Hok).
  vm_compute. lia.
Defined.

(** * Further properties *)

(** ** The leaderboard file, there and back *)

Section RoundTrip.
Variable json_load : string -> result (list (string * stored_conn)).
Variable json_dump : list (string * stored_conn) -> string.
Variable fromisoformat : string -> result Z.
Variable isoformat : Z -> string.

Lemma data_to_save_fold (h : list (string * conn)) acc :
  fold_left (λ acc kc, dict_set kc.1 (stored_of_conn isoformat kc.2) acc) h acc
  = dict_update acc ((λ kc, (kc.1, stored_of_conn isoformat kc.2)) <$> h).
Proof.
  revert acc. induction h as [|kc h IH]; intros acc; [done|].
  csimpl. rewrite IH. done.
Qed.

Lemma data_to_save_distinct (h : list (string * conn)) :
  NoDup h.*1 →
  data_to_save isoformat h
  = (λ kc, (kc.1, stored_of_conn isoformat kc.2)) <$> h.
Proof.
  intros Hnd. unfold data_to_save. rewrite data_to_save_fold.
  apply dict_of_items_id. rewrite <- list_fmap_compose.
  replace ((fst ∘ (λ kc : string * conn,
                     (kc.1, stored_of_conn isoformat kc.2))) <$> h)
    with h.*1; [done|].
  clear Hnd. induction h as [|kc h IH]; csimpl; [done|]. by f_equal.
Qed.

Lemma conn_of_stored_of_conn c :
  conn_of_stored (stored_of_conn isoformat c) (started c) = c.
Proof. by destruct c. Qed.

Lemma parse_started_stored (h : list (string * conn)) :
  (∀ k c, (k, c) ∈ h → fromisoformat (isoformat (started c)) = Ok (started c)) →
  parse_started fromisoformat
    ((λ kc, (kc.1, stored_of_conn isoformat kc.2)) <$> h)
  = Ok h.
Proof.
  induction h as [|[k c] h IH]; intros Hiso; [done|].
  csimpl. rewrite (Hiso k c (list_elem_of_here _ _)). simpl.
  rewrite IH.
  - simpl. by rewrite conn_of_stored_of_conn.
  - intros k' c' Hin. apply (Hiso k'). by apply list_elem_of_further.
Qed.

(** X1: a leaderboard written by a working [save_hall_of_fame] is the one
    [load_hall_of_fame] reads from that file, in the same order, whenever
    [json.load] reads back what [json.dump] wrote and [fromisoformat] reads
    back what [isoformat] wrote. *)
Theorem save_then_load_restores (st st' : state) :
  NoDup (hall_of_fame st).*1 →
  json_load (json_dump (data_to_save isoformat (hall_of_fame st)))
  = Ok (data_to_save isoformat (hall_of_fame st)) →
  (∀ k c, (k, c) ∈ hall_of_fame st →
          fromisoformat (isoformat (started c)) = Ok (started c)) →
  hof_file st' = hof_file (save_hall_of_fame json_dump isoformat io_ok st) →
  hall_of_fame (load_hall_of_fame json_load fromisoformat st')
  = hall_of_fame st.
Proof.
  intros Hnd Hjson Hiso Hfile. unfold load_hall_of_fame, load_try.
  rewrite Hfile. simpl. rewrite Hjson. simpl.
  rewrite data_to_save_distinct by done.
  rewrite parse_started_stored by done. done.
Qed.

End RoundTrip.

Lemma save_then_load_restores_witness :
  hall_of_fame
    (load_hall_of_fame SampleFile.json_load SampleFile.fromisoformat
       (initial_state
          (Some (Sample.json_dump
                   (data_to_save Sample.isoformat Sample.old_record)))))
  = Sample.old_record.
Proof.
  apply (save_then_load_restores SampleFile.json_load Sample.json_dump
           SampleFile.fromisoformat Sample.isoformat Sample.with_old_record).
  - apply NoDup_singleton.
  - reflexivity.
  - intros k c Hin. apply list_elem_of_singleton in Hin.
    injection Hin as _ ->. reflexivity.
  - reflexivity.
Defined.

(** ** The geolocation cache over passes *)

Section CacheOverPasses.
Variable clock : nat -> Z.
Variable geoip_api : nat -> string -> option api_reply.
Variable json_dump : list (string * stored_conn) -> string.
Variable isoformat : Z -> string.
Variable strftime_local : Z -> string.

Local Abbreviation lookup := (get_geoip_data geoip_api).
Local Abbreviation step := (accept_step clock geoip_api).
Local Abbreviation parse_logs :=
  (parse_endlessh_logs clock geoip_api json_dump isoformat).
Local Abbreviation run_scrapes :=
  (run clock geoip_api json_dump isoformat strftime_local).

(** X2: a lookup that is answered with status success returns the location
    of the reply, caches it and has sent one request; from then on a lookup
    of that address returns the cached location and sends no request,
    whatever the service would answer. *)
Theorem successful_lookup_is_memoized
    (i : string) (locs : list (string * geo)) (calls : list string)
    (r : api_reply) :
  dict_get i locs = None →
  geoip_api (length calls) i = Some r →
  r_status r = Some "success" →
  lookup i locs calls
  = (geo_of_reply r, dict_set i (geo_of_reply r) locs, calls ++ [i])
  ∧ ∀ calls',
      lookup i (dict_set i (geo_of_reply r) locs) calls'
      = (geo_of_reply r, dict_set i (geo_of_reply r) locs, calls').
Proof.
  intros Hi Hr Hs. split.
  - unfold get_geoip_data. rewrite Hi, Hr. by rewrite decide_True.
  - intros calls'. apply get_geoip_data_cached, dict_get_set_eq.
Qed.

Lemma accept_step_locs_keep closed acc l i g :
  dict_get i (acc_locs acc) = Some g →
  dict_get i (acc_locs (step closed acc l)) = Some g.
Proof.
  intros Hi. destruct (accept_of l) as [m|] eqn:Hm.
  - destruct (accept_step_geo clock geoip_api closed acc l m Hm)
      as [(_ & -> & _)|(Hu & -> & _)]; [done|].
    destruct (get_geoip_data_uncached geoip_api _ _ (acc_calls acc) Hu)
      as (g' & locs' & -> & [(_ & -> & _)|(r & _ & _ & _ & ->)]); simpl;
      [done|].
    rewrite dict_get_set_ne; [done|]. congruence.
  - unfold accept_step. by rewrite Hm.
Qed.

Lemma accept_loop_locs_keep closed lines acc i g :
  dict_get i (acc_locs acc) = Some g →
  dict_get i (acc_locs (fold_left (step closed) lines acc)) = Some g.
Proof.
  revert acc. induction lines as [|l lines IH]; intros acc Hi; [done|].
  simpl. by apply IH, accept_step_locs_keep.
Qed.

(** The globals a pass takes from its ACCEPT loop. *)
Lemma parse_world sc st lines :
  output_6h sc = Some lines →
  ip_locations (parse_logs sc st)
  = acc_locs (accept_pass clock geoip_api lines st)
  ∧ api_calls (parse_logs sc st)
    = acc_calls (accept_pass clock geoip_api lines st)
  ∧ connections_per_ip (parse_logs sc st)
    = acc_per_ip (accept_pass clock geoip_api lines st).
Proof.
  intros H6. unfold parse_endlessh_logs. rewrite H6.
  by destruct (save_io sc).
Qed.

Lemma parse_locs_keep sc st i g :
  dict_get i (ip_locations st) = Some g →
  dict_get i (ip_locations (parse_logs sc st)) = Some g.
Proof.
  intros Hi. destruct (output_6h sc) as [lines|] eqn:H6.
  - destruct (parse_world sc st lines H6) as (-> & _).
    by apply accept_loop_locs_keep.
  - unfold parse_endlessh_logs. by rewrite H6.
Qed.

(** X3: a location, once in the cache, is there with the same value after
    any sequence of scrapes. *)
Theorem cached_location_is_kept
    (scs : list scrape) (st : state) (i : string) (g : geo) :
  dict_get i (ip_locations st) = Some g →
  dict_get i (ip_locations (run_scrapes scs st)) = Some g.
Proof.
  revert st. induction scs as [|sc scs IH]; intros st Hi; [done|].
  simpl. apply IH. simpl. by apply parse_locs_keep.
Qed.

Lemma accept_loop_requested closed lines acc :
  ∃ extra,
    acc_calls (fold_left (step closed) lines acc) = acc_calls acc ++ extra
    ∧ Forall (λ i, dict_get i (acc_locs acc) = None
                   ∧ ∃ l m, l ∈ lines ∧ accept_of l = Some m ∧ a_ip m = i)
             extra
    ∧ (length extra ≤ length (filter is_open lines))%nat.
Proof.
  revert acc. induction lines as [|l lines IH]; intros acc.
  - exists []. simpl. rewrite app_nil_r. split_and!; [done|constructor|done].
  - simpl. destruct (IH (step closed acc l)) as (extra & -> & Hall & Hlen).
    assert (Forall (λ i, dict_get i (acc_locs acc) = None
                         ∧ ∃ l0 m, l0 ∈ l :: lines
                                   ∧ accept_of l0 = Some m ∧ a_ip m = i)
                   extra) as Hall'.
    { eapply Forall_impl; [exact Hall|]. simpl.
      intros i [Hnone (l0 & m & Hl0 & Hm & Hip)]. split.
      - destruct (dict_get i (acc_locs acc)) as [g|] eqn:E; [|done].
        by rewrite (accept_step_locs_keep closed acc l i g E) in Hnone.
      - exists l0, m. split_and!; [by apply list_elem_of_further|done..]. }
    rewrite filter_cons.
    destruct (accept_of l) as [m|] eqn:Hm.
    + rewrite decide_True by (unfold is_open; rewrite Hm; by eexists).
      destruct (accept_step_geo clock geoip_api closed acc l m Hm)
        as [(_ & _ & ->)|(Hu & _ & ->)].
      * exists extra. split_and!; [done..|]. simpl. lia.
      * exists (a_ip m :: extra). rewrite <- app_assoc.
        split_and!; [done| |simpl; lia].
        constructor; [|done]. split; [done|].
        exists l, m. split_and!; [apply list_elem_of_here|done..].
    + rewrite decide_False by (unfold is_open; rewrite Hm; by intros [? ?]).
      exists extra. split_and!; [|done..].
      unfold accept_step. by rewrite Hm.
Qed.

(** X4: a pass sends requests only for addresses of open events of its
    window that are not in the cache when it starts, at most one per open
    event; when every address of the window is cached it sends none. *)
Theorem requests_only_for_uncached_addresses
    (sc : scrape) (st : state) (lines : list line) :
  output_6h sc = Some lines →
  ∃ extra,
    api_calls (parse_logs sc st) = api_calls st ++ extra
    ∧ Forall (λ i, dict_get i (ip_locations st) = None
                   ∧ ∃ l m, l ∈ lines ∧ accept_of l = Some m ∧ a_ip m = i)
             extra
    ∧ (length extra ≤ length (filter is_open lines))%nat
    ∧ ((∀ l m, l ∈ lines → accept_of l = Some m →
               is_Some (dict_get (a_ip m) (ip_locations st))) →
       extra = []).
Proof.
  intros H6. destruct (parse_world sc st lines H6) as (_ & -> & _).
  destruct (accept_loop_requested (closed_ports_of lines) lines
    (AcceptAcc [] [] (ip_locations st) (S (ticks st)) (api_calls st)))
    as (extra & Heq & Hall & Hlen).
  exists extra. split_and!; [done..|].
  intros Hcached. destruct extra as [|i extra]; [done|].
  apply Forall_cons in Hall as [[Hnone (l & m & Hl & Hm & <-)] _].
  destruct (Hcached l m Hl Hm) as [g Hg]. simpl in Hnone. congruence.
Qed.

End CacheOverPasses.

Lemma successful_lookup_is_memoized_witness :
  get_geoip_data SampleFile.api_up "203.0.113.5" [] []
  = (Geo "Germany" "DE" "Berlin" 52520000 13405000,
     [("203.0.113.5", Geo "Germany" "DE" "Berlin" 52520000 13405000)],
     ["203.0.113.5"]).
Proof.
  apply (successful_lookup_is_memoized SampleFile.api_up "203.0.113.5" [] []
           (ApiReply (Some "success") (Some "Germany") (Some "DE")
                     (Some "Berlin") (Some 52520000) (Some 13405000)));
    reflexivity.
Defined.

Lemma cached_location_is_kept_witness :
  dict_get "203.0.113.5"
    (ip_locations
       (Sample.run_sample [Sample.scrape_of Sample.open_and_closed]
          (State [] [] [("203.0.113.5", fallback_geo)] 0 ∅ [] 0 0 0 0 [] []
                 None)))
  = Some fallback_geo.
Proof.
  apply (cached_location_is_kept Sample.clock Sample.api_down
           Sample.json_dump Sample.isoformat pretty).
  reflexivity.
Defined.

Lemma requests_only_for_uncached_addresses_witness :
  ∃ extra,
    api_calls
      (parse_endlessh_logs Sample.clock Sample.api_down Sample.json_dump
         Sample.isoformat (Sample.scrape_of Sample.same_origin_twice)
         (initial_state None))
    = [] ++ extra
    ∧ (length extra ≤ 2)%nat.
Proof.
  destruct (requests_only_for_uncached_addresses Sample.clock Sample.api_down
              Sample.json_dump Sample.isoformat
              (Sample.scrape_of Sample.same_origin_twice) (initial_state None)
              Sample.same_origin_twice eq_refl)
    as (extra & Heq & _ & Hlen & _).
  exists extra. split; [exact Heq | exact Hlen].
Defined.

(** ** The recency set and the counter *)

Lemma cleanup_seen_size (seen : gset string) :
  (size (cleanup_seen seen) ≤ 1000)%nat.
Proof.
  unfold cleanup_seen. case_decide; [|lia].
  rewrite size_empty. lia.
Qed.

Lemma size_list_to_set_le (l : list string) :
  (size (list_to_set l : gset string) ≤ length l)%nat.
Proof.
  induction l as [|x l IH].
  - rewrite list_to_set_nil, size_empty. done.
  - rewrite list_to_set_cons. simpl length.
    rewrite size_union_alt, size_singleton.
    assert (size (list_to_set l ∖ {[x]} : gset string)
            ≤ size (list_to_set l : gset string))%nat
      by (apply subseteq_size; set_solver).
    lia.
Qed.

Section CounterMore.
Variable clock : nat -> Z.
Variable geoip_api : nat -> string -> option api_reply.
Variable json_dump : list (string * stored_conn) -> string.
Variable isoformat : Z -> string.
Variable strftime_local : Z -> string.

Local Abbreviation parse_logs :=
  (parse_endlessh_logs clock geoip_api json_dump isoformat).
Local Abbreviation run_scrapes :=
  (run clock geoip_api json_dump isoformat strftime_local).

(** X5: the recency set never holds more than 1000 identifiers after a
    scrape whose long query worked, and stays within 1000 over any sequence
    of scrapes once it is. *)
Theorem recency_set_is_bounded (scs : list scrape) (sc : scrape) (st : state) :
  (is_Some (output_6h sc) →
   (size (seen_log_entries (parse_logs sc st)) ≤ 1000)%nat)
  ∧ ((size (seen_log_entries st) ≤ 1000)%nat →
     (size (seen_log_entries (run_scrapes scs st)) ≤ 1000)%nat).
Proof.
  assert (∀ sc0 st0, is_Some (output_6h sc0) →
            (size (seen_log_entries (parse_logs sc0 st0)) ≤ 1000)%nat) as Hone.
  { intros sc0 st0 [lines H6].
    rewrite (parse_seen clock geoip_api json_dump isoformat sc0 st0 lines H6).
    apply cleanup_seen_size. }
  split; [apply Hone|].
  revert st. induction scs as [|sc0 scs IH]; intros st Hst; [done|].
  simpl. apply IH. simpl.
  destruct (output_6h sc0) as [lines|] eqn:H6.
  - apply Hone. by rewrite H6.
  - unfold parse_endlessh_logs. by rewrite H6.
Qed.

(** X6: a scrape raises the counter by at most the number of open events
    with a timestamp in its short window, and not at all when the query
    for the short window fails. *)
Theorem counter_step_is_bounded (sc : scrape) (st : state) :
  (total_connections_counter (parse_logs sc st)
   ≤ total_connections_counter st
     + length (omap log_id_of (short_window sc)))%nat
  ∧ (output_5min sc = None →
     total_connections_counter (parse_logs sc st)
     = total_connections_counter st).
Proof.
  rewrite parse_counter. split.
  - apply Nat.add_le_mono_l. etrans; [|apply size_list_to_set_le].
    apply subseteq_size. unfold window_ids. set_solver.
  - intros H5. unfold short_window. rewrite H5.
    destruct (output_6h sc); simpl.
    + replace (window_ids [blank_line] ∖ seen_log_entries st)
        with (∅ : gset string) by (unfold window_ids; set_solver).
      rewrite size_empty. lia.
    + replace (window_ids [] ∖ seen_log_entries st)
        with (∅ : gset string) by (unfold window_ids; set_solver).
      rewrite size_empty. lia.
Qed.

End CounterMore.

Lemma recency_set_is_bounded_witness :
  (size (seen_log_entries
           (Sample.run_sample [Sample.scrape_of Sample.late_open]
              (initial_state None))) ≤ 1000)%nat.
Proof.
  apply (recency_set_is_bounded Sample.clock Sample.api_down Sample.json_dump
           Sample.isoformat pretty [Sample.scrape_of Sample.late_open]
           (Sample.scrape_of Sample.late_open) (initial_state None)).
  vm_compute. lia.
Defined.

Lemma counter_step_is_bounded_witness :
  total_connections_counter
    (parse_endlessh_logs Sample.clock Sample.api_down Sample.json_dump
       Sample.isoformat (Scrape (Some Sample.late_open) None io_ok)
       (initial_state None))
  = 0%nat.
Proof.
  apply (counter_step_is_bounded Sample.clock Sample.api_down Sample.json_dump
           Sample.isoformat (Scrape (Some Sample.late_open) None io_ok)
           (initial_state None)).
  reflexivity.
Defined.

(** ** The leaderboard over passes *)

Lemma close_loop_hall_NoDup lines acc :
  NoDup acc.2.*1 → NoDup (fold_left close_step lines acc).2.*1.
Proof.
  revert acc. induction lines as [|l lines IH]; intros acc H; [done|].
  simpl. apply IH. unfold close_step.
  destruct (close_of l) as [m|]; [|done].
  destruct (dict_get _ acc.1); [|done]. simpl. by apply dict_set_NoDup.
Qed.

Lemma dedup_hall_one_per_origin hall :
  NoDup hall.*1 → one_per_origin (dedup_hall hall).
Proof.
  intros Hnd. split; [apply dedup_hall_NoDup|].
  rewrite dedup_hall_values by done.
  pose proof (best_values _ _ (ip_to_best_conn_spec hall)) as [-> _].
  apply (ip_to_best_conn_spec hall).
Qed.

Lemma trim_hall_one_per_origin hall :
  one_per_origin hall → one_per_origin (trim_hall hall).
Proof.
  intros [Hk Hip]. destruct (decide (100 < length hall)%nat) as [Hlen|Hlen].
  - destruct (trim_hall_over hall Hk Hlen) as [-> _]. split.
    + rewrite fmap_take. eapply sublist_NoDup; [|apply sublist_take].
      unfold sorted_hall. by rewrite sorted_by_Permutation.
    + rewrite fmap_take. eapply sublist_NoDup; [|apply sublist_take].
      unfold sorted_hall. by rewrite sorted_by_Permutation.
  - unfold trim_hall. by rewrite decide_False.
Qed.

(** Every entry the de-duplication keeps was there, and every entry that
    was there is matched or beaten by the kept entry of its address. *)
Lemma dedup_hall_covers hall e :
  NoDup hall.*1 → e ∈ hall →
  ∃ best, best ∈ dedup_hall hall ∧ best ∈ hall
          ∧ ip best.2 = ip e.2 ∧ duration e.2 <= duration best.2.
Proof.
  intros Hnd He. rewrite dedup_hall_values by done.
  destruct (ip_to_best_conn_spec hall) as (Hndb & Hbest & Hall).
  destruct (Hall e He) as [best Hb].
  destruct (Hbest _ _ Hb) as (Hip & Hin & Hmax).
  exists best. split_and!; [|done|done|by apply Hmax].
  apply dict_get_Some_elem in Hb.
  apply list_elem_of_fmap. by exists (ip e.2, best).
Qed.

(** Every entry the de-duplication keeps was there, and no entry of its
    address that was there lasted longer. *)
Lemma dedup_hall_longest hall best :
  NoDup hall.*1 → best ∈ dedup_hall hall →
  best ∈ hall
  ∧ ∀ e, e ∈ hall → ip e.2 = ip best.2 → duration e.2 <= duration best.2.
Proof.
  intros Hnd Hin. rewrite dedup_hall_values in Hin by done.
  pose proof (ip_to_best_conn_spec hall) as Hspec.
  pose proof (best_values _ _ Hspec) as [_ Hget].
  destruct Hspec as (_ & Hbest & _).
  destruct (Hbest _ _ (Hget best Hin)) as (_ & Hb & Hmax).
  split; [done|]. intros e He Hip. by apply Hmax.
Qed.

(** The truncation adds nothing. *)
Lemma trim_hall_subseteq hall e :
  NoDup hall.*1 → e ∈ trim_hall hall → e ∈ hall.
Proof.
  intros Hnd. destruct (decide (100 < length hall)%nat) as [Hlen|Hlen].
  - destruct (trim_hall_over hall Hnd Hlen) as [-> _]. intros He.
    apply (subseteq_take 100) in He.
    unfold sorted_hall in He. by rewrite sorted_by_Permutation in He.
  - unfold trim_hall. by rewrite decide_False.
Qed.

Section LeaderboardOverPasses.
Variable clock : nat -> Z.
Variable geoip_api : nat -> string -> option api_reply.
Variable json_dump : list (string * stored_conn) -> string.
Variable isoformat : Z -> string.
Variable strftime_local : Z -> string.

Local Abbreviation scan := (reconcile clock geoip_api).
Local Abbreviation parse_logs :=
  (parse_endlessh_logs clock geoip_api json_dump isoformat).
Local Abbreviation run_scrapes :=
  (run clock geoip_api json_dump isoformat strftime_local).

Lemma rec_hall_NoDup lines st :
  NoDup (hall_of_fame st).*1 → NoDup (rec_hall (scan lines st)).*1.
Proof. intros H. unfold reconcile. simpl. by apply close_loop_hall_NoDup. Qed.

Lemma parse_one_per_origin sc st :
  one_per_origin (hall_of_fame st) →
  one_per_origin (hall_of_fame (parse_logs sc st)).
Proof.
  intros Hst. destruct (output_6h sc) as [lines|] eqn:H6.
  - rewrite (parse_hall clock geoip_api json_dump isoformat sc st lines H6).
    apply trim_hall_one_per_origin, dedup_hall_one_per_origin.
    apply rec_hall_NoDup, Hst.
  - unfold parse_endlessh_logs. by rewrite H6.
Qed.

Lemma run_one_per_origin scs st :
  one_per_origin (hall_of_fame st) →
  one_per_origin (hall_of_fame (run_scrapes scs st)).
Proof.
  revert st. induction scs as [|sc0 scs IH]; intros st Hst; [done|].
  simpl. apply IH. simpl. by apply parse_one_per_origin.
Qed.

(** X7: a pass whose long query worked leaves a leaderboard with distinct
    connection ids and at most one entry per origin address, from any
    leaderboard with distinct connection ids; and a leaderboard that has
    both keeps both over any sequence of scrapes. *)
Theorem leaderboard_one_entry_per_origin
    (scs : list scrape) (sc : scrape) (st : state) :
  (is_Some (output_6h sc) → NoDup (hall_of_fame st).*1 →
   one_per_origin (hall_of_fame (parse_logs sc st)))
  ∧ (one_per_origin (hall_of_fame st) →
     one_per_origin (hall_of_fame (run_scrapes scs st))).
Proof.
  split.
  - intros [lines H6] Hnd.
    rewrite (parse_hall clock geoip_api json_dump isoformat sc st lines H6).
    by apply trim_hall_one_per_origin, dedup_hall_one_per_origin,
      rec_hall_NoDup.
  - apply run_one_per_origin.
Qed.

End LeaderboardOverPasses.

Lemma leaderboard_one_entry_per_origin_witness :
  one_per_origin
    (hall_of_fame
       (parse_endlessh_logs Sample.clock Sample.api_down Sample.json_dump
          Sample.isoformat (Sample.scrape_of Sample.open_and_closed)
          (set_hall_of_fame Sample.small_hall (initial_state None)))).
Proof.
  apply (leaderboard_one_entry_per_origin Sample.clock Sample.api_down
           Sample.json_dump Sample.isoformat pretty []
           (Sample.scrape_of Sample.open_and_closed)
           (set_hall_of_fame Sample.small_hall (initial_state None))).
  - by eexists.
  - refine (@bool_decide_unpack _ (NoDup_dec _) _). vm_compute. exact I.
Defined.

(** ** From a close event to the leaderboard and the gauges *)

Lemma close_loop_untouched lines acc k :
  last_close k lines = None →
  dict_get k (fold_left close_step lines acc).1 = dict_get k acc.1
  ∧ dict_get k (fold_left close_step lines acc).2 = dict_get k acc.2.
Proof.
  revert acc. induction lines as [|l lines IH]; intros acc Hlast; [done|].
  simpl in *. destruct (last_close k lines); [done|].
  destruct (IH (close_step acc l) eq_refl) as [-> ->]. clear IH.
  unfold close_step. destruct (close_of l) as [m|]; [|done].
  destruct (decide (conn_id (c_ip m) (c_port m) = k)) as [?|Hne]; [done|].
  destruct (dict_get (conn_id (c_ip m) (c_port m)) acc.1); [|done]. simpl.
  by rewrite !dict_get_set_ne.
Qed.

(** The leaderboard holds the copy of every record of the working set that
    a close event of the window has under its key. *)
Lemma close_loop_copy lines acc k c :
  dict_get k (fold_left close_step lines acc).1 = Some c →
  is_Some (last_close k lines) →
  dict_get k (fold_left close_step lines acc).2 = Some c.
Proof.
  revert acc. induction lines as [|l lines IH]; intros acc Hc [m Hm].
  - discriminate Hm.
  - simpl in *. destruct (last_close k lines) as [m'|] eqn:Hrest.
    + apply IH; [done | by eexists].
    + destruct (close_loop_untouched lines (close_step acc l) k Hrest)
        as [H1 H2].
      rewrite H1 in Hc. rewrite H2. clear IH H1 H2.
      unfold close_step in *. destruct (close_of l) as [m0|]; [|done].
      destruct (decide (conn_id (c_ip m0) (c_port m0) = k)) as [<-|];
        [|done].
      destruct (dict_get (conn_id (c_ip m0) (c_port m0)) acc.1) as [c0|] eqn:E;
        simpl in *.
      * rewrite dict_get_set_eq in Hc. rewrite dict_get_set_eq. done.
      * congruence.
Qed.

Lemma fold_left_max_ge (l : list Z) (a : Z) :
  a <= fold_left Z.max l a ∧ ∀ x, x ∈ l → x <= fold_left Z.max l a.
Proof.
  revert a. induction l as [|y l IH]; intros a; simpl.
  - split; [lia|]. intros x Hx. by apply elem_of_nil in Hx.
  - destruct (IH (Z.max a y)) as [Ha Hl]. split; [lia|].
    intros x [->|Hx]%elem_of_cons; [lia | by apply Hl].
Qed.

Lemma fold_left_max_elem (l : list Z) (a : Z) :
  fold_left Z.max l a = a ∨ fold_left Z.max l a ∈ l.
Proof.
  revert a. induction l as [|y l IH]; intros a; simpl; [by left|].
  destruct (IH (Z.max a y)) as [->|Hin].
  - destruct (Z.max_spec a y) as [[_ ->]|[_ ->]];
      [right; apply list_elem_of_here | by left].
  - right. by apply list_elem_of_further.
Qed.

Lemma py_max_ge (l : list Z) (x : Z) : x ∈ l → x <= py_max l.
Proof.
  destruct l as [|a l]; [by intros ?%elem_of_nil|]. simpl.
  destruct (fold_left_max_ge l a) as [Ha Hl].
  intros [->|Hx]%elem_of_cons; [done | by apply Hl].
Qed.

Lemma py_max_elem (l : list Z) : l ≠ [] → py_max l ∈ l.
Proof.
  destruct l as [|a l]; [done|]. intros _. simpl.
  destruct (fold_left_max_elem l a) as [->|Hin];
    [apply list_elem_of_here | by apply list_elem_of_further].
Qed.

Lemma dict_update_get {V} (d e : list (string * V)) k :
  NoDup e.*1 →
  dict_get k (dict_update d e)
  = match dict_get k e with
    | Some v => Some v
    | None => dict_get k d
    end.
Proof.
  intros Hnd. destruct (dict_get k e) as [v|] eqn:E.
  - apply dict_update_get_r; [done|]. by apply dict_get_Some_elem.
  - apply dict_update_get_l. by apply dict_get_None.
Qed.

Section Gauges.
Variable clock : nat -> Z.
Variable geoip_api : nat -> string -> option api_reply.
Variable json_dump : list (string * stored_conn) -> string.
Variable isoformat : Z -> string.

Local Abbreviation scan := (reconcile clock geoip_api).
Local Abbreviation parse_logs :=
  (parse_endlessh_logs clock geoip_api json_dump isoformat).

(** X8: what is displayed after a pass: under a key of the leaderboard
    the leaderboard's entry, also when an active record of the working set
    has that key; under any other key the active record of the working
    set, if there is one; terminated records of the pass are displayed
    only through the leaderboard.  The gauge of active connections counts
    the displayed records that are active. *)
Theorem display_is_leaderboard_over_active
    (sc : scrape) (st : state) (lines : list line) (k : string) :
  output_6h sc = Some lines →
  dict_get k (individual_connections (parse_logs sc st))
  = match dict_get k (hall_of_fame (parse_logs sc st)) with
    | Some c => Some c
    | None => dict_get k (filter is_trapped (rec_conns (scan lines st)))
    end
  ∧ (∀ c, dict_get k (hall_of_fame (parse_logs sc st)) = None →
          dict_get k (individual_connections (parse_logs sc st)) = Some c →
          conn_status c = trapped ∧ (k, c) ∈ rec_conns (scan lines st))
  ∧ active_connections (parse_logs sc st)
    = length (filter is_trapped (individual_connections (parse_logs sc st)))
  ∧ (length (individual_connections (parse_logs sc st))
     ≤ length (filter is_trapped (rec_conns (scan lines st))) + 100)%nat.
Proof.
  intros H6.
  destruct (parse_display clock geoip_api json_dump isoformat sc st lines H6)
    as (Hdisp & _ & _ & Hnd).
  assert (dict_get k (individual_connections (parse_logs sc st))
          = match dict_get k (hall_of_fame (parse_logs sc st)) with
            | Some c => Some c
            | None => dict_get k (filter is_trapped (rec_conns (scan lines st)))
            end) as Hget.
  { rewrite Hdisp at 1. by apply dict_update_get. }
  split_and!.
  - exact Hget.
  - intros c Hnone Hc. rewrite Hget, Hnone in Hc.
    apply dict_get_Some_elem, list_elem_of_filter in Hc as [Htr Hin].
    split; [|done]. unfold is_trapped in Htr.
    by apply bool_decide_unpack in Htr.
  - unfold parse_endlessh_logs. rewrite H6. by destruct (save_io sc).
  - rewrite Hdisp. etrans; [apply dict_update_length_le|].
    apply Nat.add_le_mono_l.
    rewrite (parse_hall clock geoip_api json_dump isoformat sc st lines H6).
    apply trim_hall_length.
Qed.

(** X9: a record of the working set that is terminated and has a close
    event of the window under its key is copied to the leaderboard as it
    is, with the reported duration; unless more than 100 addresses compete,
    the leaderboard the pass leaves has an entry of its address that lasted
    at least as long, and the maximum gauge is at least its duration. *)
Theorem closed_connection_reaches_leaderboard
    (sc : scrape) (st : state) (lines : list line) (k : string) (c : conn) :
  output_6h sc = Some lines →
  NoDup (hall_of_fame st).*1 →
  dict_get k (rec_conns (scan lines st)) = Some c →
  conn_status c = released →
  is_Some (last_close k lines) →
  dict_get k (rec_hall (scan lines st)) = Some c
  ∧ ((length (dedup_hall (rec_hall (scan lines st))) ≤ 100)%nat →
     ∃ best, best ∈ hall_of_fame (parse_logs sc st)
             ∧ ip best.2 = ip c
             ∧ duration c <= duration best.2
             ∧ duration c <= max_trap_duration (parse_logs sc st)).
Proof.
  intros H6 Hnd Hc Hrel Hlast.
  assert (dict_get k (rec_hall (scan lines st)) = Some c) as Hcopy.
  { unfold reconcile in *. simpl in *.
    apply refresh_trapped_get in Hc as (r & Hr & [[_ ->]|[Htr (n & _ & ->)]]).
    - by apply close_loop_copy.
    - simpl in Hrel. congruence. }
  split; [done|]. intros Hlen.
  destruct (dedup_hall_covers (rec_hall (scan lines st)) (k, c))
    as (best & Hbest & _ & Hip & Hdur).
  { by apply rec_hall_NoDup. }
  { by apply dict_get_Some_elem. }
  assert (hall_of_fame (parse_logs sc st)
          = dedup_hall (rec_hall (scan lines st))) as Hhall.
  { rewrite (parse_hall clock geoip_api json_dump isoformat sc st lines H6).
    unfold merge_hall, trim_hall. rewrite decide_False; [done|lia]. }
  exists best. rewrite Hhall. split_and!; [done..|].
  destruct (parse_display clock geoip_api json_dump isoformat sc st lines H6)
    as (Hdisp & -> & _ & Hndh).
  etrans; [exact Hdur|]. apply py_max_ge.
  apply list_elem_of_fmap. exists best.2. split; [done|].
  apply list_elem_of_fmap. exists best. split; [done|].
  destruct best as [kb cb]. apply dict_get_Some_elem. rewrite Hdisp.
  apply dict_update_get_r; [done|]. by rewrite Hhall.
Qed.

(** X10: the maximum gauge is 0 when nothing is displayed; otherwise it is
    the duration of a displayed connection, and no displayed connection
    lasted longer. *)
Theorem max_gauge_is_longest_displayed
    (sc : scrape) (st : state) (lines : list line) :
  output_6h sc = Some lines →
  (individual_connections (parse_logs sc st) = [] →
   max_trap_duration (parse_logs sc st) = 0)
  ∧ (∀ k c, (k, c) ∈ individual_connections (parse_logs sc st) →
            duration c <= max_trap_duration (parse_logs sc st))
  ∧ (individual_connections (parse_logs sc st) ≠ [] →
     ∃ k c, (k, c) ∈ individual_connections (parse_logs sc st)
            ∧ duration c = max_trap_duration (parse_logs sc st)).
Proof.
  intros H6.
  destruct (parse_display clock geoip_api json_dump isoformat sc st lines H6)
    as (_ & -> & _ & _).
  split_and!.
  - by intros ->.
  - intros k c Hin. apply py_max_ge.
    apply list_elem_of_fmap. exists c. split; [done|].
    apply list_elem_of_fmap. by exists (k, c).
  - intros Hne.
    destruct (individual_connections (parse_logs sc st)) as [|kc d] eqn:E;
      [done|].
    assert (py_max (duration <$> dict_values (kc :: d))
            ∈ duration <$> dict_values (kc :: d)) as Hin
      by (by apply py_max_elem).
    apply list_elem_of_fmap in Hin as (c & Hc & Hin).
    apply list_elem_of_fmap in Hin as ([k c'] & -> & Hin).
    by exists k, c'.
Qed.

(** X20: every entry of the leaderboard a pass leaves is an entry of the
    leaderboard as the loop over the close events left it, and the longest
    of its origin address there: no stored entry of that address whose
    connection id has no close event in the window lasted longer, and no
    closed record of that address in the working set did. *)
Theorem leaderboard_entry_is_longest_of_origin
    (sc : scrape) (st : state) (lines : list line) (best : string * conn) :
  output_6h sc = Some lines →
  NoDup (hall_of_fame st).*1 →
  best ∈ hall_of_fame (parse_logs sc st) →
  best ∈ rec_hall (scan lines st)
  ∧ (∀ e, e ∈ rec_hall (scan lines st) → ip e.2 = ip best.2 →
          duration e.2 <= duration best.2)
  ∧ (∀ k e, dict_get k (hall_of_fame st) = Some e →
            last_close k lines = None → ip e = ip best.2 →
            duration e <= duration best.2)
  ∧ (∀ k c, dict_get k (rec_conns (scan lines st)) = Some c →
            conn_status c = released → is_Some (last_close k lines) →
            ip c = ip best.2 → duration c <= duration best.2).
Proof.
  intros H6 Hnd Hbest.
  rewrite (parse_hall clock geoip_api json_dump isoformat sc st lines H6)
    in Hbest.
  unfold merge_hall in Hbest.
  apply trim_hall_subseteq in Hbest; [|apply dedup_hall_NoDup].
  apply dedup_hall_longest in Hbest as [Hin Hmax]; [|by apply rec_hall_NoDup].
  refine (conj Hin (conj Hmax (conj _ _))).
  - intros k e Hk Hlast Hip. apply (Hmax (k, e)); [|done].
    apply dict_get_Some_elem. unfold reconcile. simpl.
    destruct (close_loop_untouched lines
                (acc_conns (fold_left
                   (accept_step clock geoip_api (closed_ports_of lines)) lines
                   (AcceptAcc [] [] (ip_locations st) (S (ticks st))
                              (api_calls st))),
                 hall_of_fame st) k Hlast) as [_ ->].
    done.
  - intros k c Hc Hrel Hlast Hip. apply (Hmax (k, c)); [|done].
    apply dict_get_Some_elem. unfold reconcile in *. simpl in *.
    apply refresh_trapped_get in Hc as (r & Hr & [[_ ->]|[Htr (n & _ & ->)]]).
    + by apply close_loop_copy.
    + simpl in Hrel. congruence.
Qed.

End Gauges.

Lemma display_is_leaderboard_over_active_witness :
  dict_get "192.0.2.77:51000"
    (individual_connections
       (parse_endlessh_logs Sample.clock Sample.api_down Sample.json_dump
          Sample.isoformat (Sample.scrape_of Sample.same_origin_twice)
          Sample.with_old_record))
  = match
      dict_get "192.0.2.77:51000"
        (hall_of_fame
           (parse_endlessh_logs Sample.clock Sample.api_down Sample.json_dump
              Sample.isoformat (Sample.scrape_of Sample.same_origin_twice)
              Sample.with_old_record))
    with
    | Some c => Some c
    | None =>
        dict_get "192.0.2.77:51000"
          (filter is_trapped
             (rec_conns (reconcile Sample.clock Sample.api_down
                           Sample.same_origin_twice Sample.with_old_record)))
    end.
Proof.
  apply (display_is_leaderboard_over_active Sample.clock Sample.api_down
           Sample.json_dump Sample.isoformat
           (Sample.scrape_of Sample.same_origin_twice) Sample.with_old_record
           Sample.same_origin_twice "192.0.2.77:51000" eq_refl).
Defined.

Lemma closed_connection_reaches_leaderboard_witness :
  dict_get "203.0.113.9:40002"
    (rec_hall (reconcile Sample.clock Sample.api_down Sample.open_and_closed
                 (initial_state None)))
  = Some (Conn "203.0.113.9" "40002" "5" "Unknown" "Unknown" "XX"
               (Sample.t0 + 1000000) 734500000 released).
Proof.
  apply (closed_connection_reaches_leaderboard Sample.clock Sample.api_down
           Sample.json_dump Sample.isoformat
           (Sample.scrape_of Sample.open_and_closed) (initial_state None)
           Sample.open_and_closed "203.0.113.9:40002").
  - reflexivity.
  - apply NoDup_nil_2.
  - reflexivity.
  - reflexivity.
  - by eexists.
Defined.

Lemma leaderboard_entry_is_longest_of_origin_witness :
  Sample.entry "203.0.113.5" "40003" 90000000
  ∈ hall_of_fame
      (parse_endlessh_logs Sample.clock Sample.api_down Sample.json_dump
         Sample.isoformat (Sample.scrape_of Sample.open_and_closed)
         (set_hall_of_fame Sample.small_hall (initial_state None)))
  ∧ ∀ e,
      e ∈ rec_hall (reconcile Sample.clock Sample.api_down
                      Sample.open_and_closed
                      (set_hall_of_fame Sample.small_hall
                         (initial_state None))) →
      ip e.2 = "203.0.113.5" → duration e.2 <= 90000000.
Proof.
  assert (Sample.entry "203.0.113.5" "40003" 90000000
          ∈ hall_of_fame
              (parse_endlessh_logs Sample.clock Sample.api_down
                 Sample.json_dump Sample.isoformat
                 (Sample.scrape_of Sample.open_and_closed)
                 (set_hall_of_fame Sample.small_hall (initial_state None))))
    as Hin.
  { vm_compute. apply list_elem_of_here. }
  split; [exact Hin|].
  refine (proj1 (proj2 (leaderboard_entry_is_longest_of_origin
            Sample.clock Sample.api_down Sample.json_dump Sample.isoformat
            (Sample.scrape_of Sample.open_and_closed)
            (set_hall_of_fame Sample.small_hall (initial_state None))
            Sample.open_and_closed _ eq_refl _ Hin))).
  refine (@bool_decide_unpack _ (NoDup_dec _) _). vm_compute. exact I.
Defined.

Lemma max_gauge_is_longest_displayed_witness :
  ∃ k c,
    (k, c) ∈ individual_connections
               (parse_endlessh_logs Sample.clock Sample.api_down
                  Sample.json_dump Sample.isoformat
                  (Sample.scrape_of Sample.open_and_closed)
                  (initial_state None))
    ∧ duration c
      = max_trap_duration
          (parse_endlessh_logs Sample.clock Sample.api_down Sample.json_dump
             Sample.isoformat (Sample.scrape_of Sample.open_and_closed)
             (initial_state None)).
Proof.
  apply (max_gauge_is_longest_displayed Sample.clock Sample.api_down
           Sample.json_dump Sample.isoformat
           (Sample.scrape_of Sample.open_and_closed) (initial_state None)
           Sample.open_and_closed eq_refl).
  intros H. vm_compute in H. discriminate H.
Defined.

(** ** Totals of the rollups *)

Lemma sum_dict_set (k : string) (v : nat) (d : list (string * nat)) :
  (sum_list_with snd (dict_set k v d) + default 0%nat (dict_get k d)
   = sum_list_with snd d + v)%nat.
Proof.
  induction d as [|[k' v'] d IH]; simpl; [lia|].
  destruct (decide (k = k')); simpl; lia.
Qed.

Lemma countries_loop_sum locs (per_ip acc : list (string * nat)) :
  sum_list_with snd (fold_left (countries_step locs) per_ip acc)
  = (sum_list_with snd acc + sum_list_with snd per_ip)%nat.
Proof.
  revert acc. induction per_ip as [|[i n] per_ip IH]; intros acc; simpl.
  - lia.
  - rewrite IH. unfold countries_step. simpl.
    pose proof (sum_dict_set (country_of locs i)
      (default 0%nat (dict_get (country_of locs i) acc) + n)%nat acc) as H.
    unfold country_of in H. lia.
Qed.

Lemma length_le_sum (l : list (string * nat)) :
  Forall (λ kc : string * nat, (0 < kc.2)%nat) l →
  (length l ≤ sum_list_with snd l)%nat.
Proof.
  induction 1 as [|[i n] l Hn _ IH]; [done|].
  rewrite length_cons. change (sum_list_with snd ((i, n) :: l))
    with (n + sum_list_with snd l)%nat.
  simpl in Hn. lia.
Qed.

Section Totals.
Variable clock : nat -> Z.
Variable geoip_api : nat -> string -> option api_reply.
Variable json_dump : list (string * stored_conn) -> string.
Variable isoformat : Z -> string.
Variable strftime_local : Z -> string.

Local Abbreviation step := (accept_step clock geoip_api).
Local Abbreviation parse_logs :=
  (parse_endlessh_logs clock geoip_api json_dump isoformat).

Lemma accept_loop_per_ip_sum closed lines acc :
  sum_list_with snd (acc_per_ip (fold_left (step closed) lines acc))
  = (sum_list_with snd (acc_per_ip acc) + length (filter is_open lines))%nat.
Proof.
  revert acc. induction lines as [|l lines IH]; intros acc; simpl; [lia|].
  rewrite IH, accept_step_per_ip, filter_cons. clear IH.
  destruct (accept_of l) as [m|] eqn:Hm.
  - rewrite decide_True by (unfold is_open; rewrite Hm; by eexists).
    pose proof (sum_dict_set (a_ip m)
      (default 0%nat (dict_get (a_ip m) (acc_per_ip acc)) + 1)%nat
      (acc_per_ip acc)).
    simpl. lia.
  - rewrite decide_False by (unfold is_open; rewrite Hm; by intros [? ?]).
    lia.
Qed.

(** X11: after a pass the counts per address add up to the number of open
    events of the long window, and so do the counts per country; the
    per-address and per-country series carry these counts, and the number
    of distinct addresses is at most the number of open events. *)
Theorem rollups_add_up_to_open_events
    (sc : scrape) (st : state) (lines : list line) :
  output_6h sc = Some lines →
  sum_list_with snd (series_per_ip (render strftime_local (parse_logs sc st)))
  = length (filter is_open lines)
  ∧ sum_list_with snd
      (series_per_country (render strftime_local (parse_logs sc st)))
    = length (filter is_open lines)
  ∧ ∃ n, series_unique_ips (render strftime_local (parse_logs sc st)) = [n]
         ∧ n = length (connections_per_ip (parse_logs sc st))
         ∧ (n ≤ length (filter is_open lines))%nat.
Proof.
  intros H6.
  destruct (render_series strftime_local (parse_logs sc st))
    as (-> & -> & -> & _).
  assert (sum_list_with snd (connections_per_ip (parse_logs sc st))
          = length (filter is_open lines)) as Hsum.
  { destruct (parse_world clock geoip_api json_dump isoformat sc st lines H6)
      as (_ & _ & ->).
    unfold accept_pass. by rewrite accept_loop_per_ip_sum. }
  split_and!.
  - done.
  - assert (∀ l : list (string * nat),
              sum_list_with snd
                ((λ kc : string * nat, (strip_quotes kc.1, kc.2)) <$> l)
              = sum_list_with snd l) as Hmap.
    { induction l as [|[c n] l IH]; csimpl; [done|]. by rewrite IH. }
    rewrite Hmap. unfold countries_of. rewrite countries_loop_sum.
    simpl. exact Hsum.
  - eexists. split_and!; [done..|].
    rewrite <- Hsum.
    assert (Forall (λ kc : string * nat, (0 < kc.2)%nat)
                   (connections_per_ip (parse_logs sc st))) as Hpos.
    { apply Forall_forall. intros [i n] Hin.
      destruct (parse_per_ip clock geoip_api json_dump isoformat sc st lines
                  i H6) as [Hnd Hget].
      apply (dict_get_elem_NoDup _ _ _ Hnd) in Hin. rewrite Hin in Hget.
      simpl. destruct (opens_of i lines); [done|].
      injection Hget as ->. lia. }
    by apply length_le_sum.
Qed.

End Totals.

Lemma rollups_add_up_to_open_events_witness :
  sum_list_with snd
    (series_per_ip
       (render pretty
          (parse_endlessh_logs Sample.clock Sample.api_down Sample.json_dump
             Sample.isoformat (Sample.scrape_of Sample.open_and_closed)
             (initial_state None))))
  = length (filter is_open Sample.open_and_closed).
Proof.
  apply (rollups_add_up_to_open_events Sample.clock Sample.api_down
           Sample.json_dump Sample.isoformat pretty
           (Sample.scrape_of Sample.open_and_closed) (initial_state None)
           Sample.open_and_closed eq_refl).
Defined.

(** ** The table of connections *)

Lemma sort_key_le_spec x y :
  sort_key_le x y = true
  ↔ (sort_key x).1 < (sort_key y).1
    ∨ ((sort_key x).1 = (sort_key y).1 ∧ (sort_key x).2 <= (sort_key y).2).
Proof.
  unfold sort_key_le.
  rewrite orb_true_iff, andb_true_iff, !bool_decide_eq_true. done.
Qed.

Lemma sort_key_le_true x y :
  sort_key_le x y = true →
  ranked_before (conn_status x.2, duration x.2) (conn_status y.2, duration y.2).
Proof.
  rewrite sort_key_le_spec.
  unfold sort_key, status_priority, ranked_before. simpl.
  destruct (conn_status x.2), (conn_status y.2); simpl;
    intros [H|[H1 H2]]; try lia.
  - right. split; [done|lia].
  - by left.
  - right. split; [done|lia].
Qed.

Lemma sort_key_le_false x y : sort_key_le x y = false → sort_key_le y x = true.
Proof.
  intros H. apply sort_key_le_spec.
  assert (¬ (sort_key_le x y = true)) as Hn by (rewrite H; done).
  rewrite sort_key_le_spec in Hn. lia.
Qed.

#[local] Instance sort_key_le_trans :
  Transitive (λ x y : string * conn, sort_key_le x y = true).
Proof.
  intros x y z. rewrite !sort_key_le_spec. lia.
Qed.

Section Table.
Variable strftime_local : Z -> string.

Local Abbreviation loop := (connection_info_loop strftime_local).

(** The rows of the loop, but for their groups. *)
Lemma connection_info_loop_rows idx gm cur last items :
  (λ r, (row_ip r, row_status r, row_duration r))
    <$> series_rows (loop idx gm cur last items)
  = (λ kc : string * conn, (ip kc.2, conn_status kc.2, duration kc.2))
    <$> items
  ∧ row_sort_order <$> series_rows (loop idx gm cur last items)
    = seq idx (length items).
Proof.
  revert idx gm cur last.
  induction items as [|[k c] items IH]; intros idx gm cur last; [done|].
  unfold series_rows in *. csimpl.
  edestruct IH as [-> ->]. done.
Qed.

(** The groups of the loop come from one map from addresses to groups
    that gives no group to two addresses. *)
Lemma connection_info_loop_groups idx gm cur last items :
  groups_ok gm cur last →
  ∃ final cur',
    (∀ i j g, dict_get i final = Some g → dict_get j final = Some g → i = j)
    ∧ (∀ i g, dict_get i final = Some g → (g < cur')%nat)
    ∧ (∀ i g, dict_get i gm = Some g → dict_get i final = Some g)
    ∧ (cur' ≤ cur + length items)%nat
    ∧ ∀ r, r ∈ series_rows (loop idx gm cur last items) →
           dict_get (row_ip r) final = Some (row_group r).
Proof.
  revert idx gm cur last.
  induction items as [|[k c] items IH]; intros idx gm cur last Hok.
  - exists gm, cur. destruct Hok as (Hlt & Hinj & _).
    refine (conj Hinj (conj Hlt (conj _ (conj _ _)))); [done|simpl; lia|].
    intros r Hr. by apply elem_of_nil in Hr.
  - destruct Hok as (Hlt & Hinj & Hlast). simpl.
    set (groups := if decide (Some (ip c) = last) then (gm, cur)
                   else if dict_in (ip c) gm then (gm, cur)
                   else (dict_set (ip c) cur gm, S cur)).
    assert (groups_ok groups.1 groups.2 (Some (ip c))
            ∧ (∀ i g, dict_get i gm = Some g → dict_get i groups.1 = Some g)
            ∧ (groups.2 ≤ S cur)%nat) as (Hok' & Hext & Hcur).
    { unfold groups, groups_ok.
      destruct (decide (Some (ip c) = last)) as [Heq|Hne].
      - simpl. refine (conj (conj Hlt (conj Hinj _)) (conj _ _)).
        + intros i [= <-]. by apply Hlast.
        + done.
        + lia.
      - destruct (dict_in (ip c) gm) eqn:Hin; simpl.
        + refine (conj (conj Hlt (conj Hinj _)) (conj _ _)).
          * intros i [= <-]. apply dict_get_is_Some. by apply dict_in_true.
          * done.
          * lia.
        + apply dict_in_false in Hin.
          refine (conj (conj _ (conj _ _)) (conj _ _)).
          * intros i g. rewrite dict_get_set.
            destruct (decide (ip c = i)); [intros [= <-]; lia|].
            intros Hg. specialize (Hlt _ _ Hg). lia.
          * intros i j g. rewrite !dict_get_set.
            destruct (decide (ip c = i)), (decide (ip c = j)); try congruence.
            -- intros [= <-] Hj. specialize (Hlt _ _ Hj). lia.
            -- intros Hi [= <-]. specialize (Hlt _ _ Hi). lia.
            -- apply Hinj.
          * intros i [= <-]. rewrite dict_get_set_eq. by eexists.
          * intros i g Hg. rewrite dict_get_set_ne; [done|]. congruence.
          * lia. }
    destruct (IH (S idx) groups.1 groups.2 (Some (ip c)) Hok')
      as (final & cur' & Hfinj & Hflt & Hfext & Hfcur & Hrows).
    exists final, cur'.
    refine (conj Hfinj (conj Hflt (conj _ (conj _ _)))).
    + intros i g Hg. by apply Hfext, Hext.
    + simpl. lia.
    + intros r. unfold series_rows. csimpl.
      fold (series_rows (loop (S idx) groups.1 groups.2 (Some (ip c)) items)).
      intros [->|Hr]%elem_of_cons; [|by apply Hrows]. simpl.
      apply Hfext. destruct Hok' as (_ & _ & Hl).
      destruct (Hl (ip c) eq_refl) as [g Hg]. by rewrite Hg.
Qed.

(** X12: the connection-info samples are the displayed connections, each
    once, with the active ones first and within one status the longer
    first; their sort_order labels count up from 0. *)
Theorem table_is_sorted_and_ranked (st : state) :
  (λ r, (row_ip r, row_status r, row_duration r))
    <$> series_rows (render strftime_local st)
  ≡ₚ (λ kc : string * conn, (ip kc.2, conn_status kc.2, duration kc.2))
     <$> individual_connections st
  ∧ StronglySorted ranked_before
      ((λ r, (row_status r, row_duration r))
       <$> series_rows (render strftime_local st))
  ∧ row_sort_order <$> series_rows (render strftime_local st)
    = seq 0 (length (individual_connections st)).
Proof.
  assert (series_rows (render strftime_local st)
          = series_rows (loop 0 [] 0 None
                           (sorted_by sort_key_le (individual_connections st))))
    as ->.
  { unfold render, series_rows. rewrite !omap_app. simpl.
    set (rows := omap _ (loop _ _ _ _ _)).
    assert (∀ l : list (string * nat),
              omap (λ s, match s with
                         | endlessh_connection_info _ i _ _ _ st0 _ so g v =>
                             Some (Row i st0 v so g)
                         | _ => None
                         end)
                   (per_ip_sample (ip_locations st)
                      (ip_durations_of (individual_connections st)) <$> l)
              = []) as ->
      by (induction l as [|? l IHl]; csimpl; done).
    assert (∀ l : list (string * nat),
              omap (λ s, match s with
                         | endlessh_connection_info _ i _ _ _ st0 _ so g v =>
                             Some (Row i st0 v so g)
                         | _ => None
                         end)
                   (per_country_sample <$> l)
              = []) as ->
      by (induction l as [|? l IHl]; csimpl; done).
    by rewrite !app_nil_r. }
  destruct (connection_info_loop_rows 0 [] 0 None
              (sorted_by sort_key_le (individual_connections st)))
    as [Hrows Horder].
  split_and!.
  - rewrite Hrows. by rewrite sorted_by_Permutation.
  - replace ((λ r, (row_status r, row_duration r))
             <$> series_rows (loop 0 [] 0 None
                   (sorted_by sort_key_le (individual_connections st))))
      with ((λ kc : string * conn, (conn_status kc.2, duration kc.2))
            <$> sorted_by sort_key_le (individual_connections st)).
    + apply (StronglySorted_fmap _
        (λ x y : string * conn, sort_key_le x y = true)).
      * intros x y. apply sort_key_le_true.
      * apply sorted_by_StronglySorted;
          [apply _ | done | apply sort_key_le_false].
    + apply (f_equal (fmap (λ t : string * status * Z, (t.1.2, t.2)))) in Hrows.
      rewrite <- !list_fmap_compose in Hrows. symmetry. exact Hrows.
  - rewrite Horder. by rewrite sorted_by_length.
Qed.

(** X13: two connection-info samples have the same ip_group label exactly
    when they have the same address, and every group number is below the
    number of samples. *)
Theorem ip_group_identifies_origin (st : state) (r1 r2 : row) :
  r1 ∈ series_rows (render strftime_local st) →
  r2 ∈ series_rows (render strftime_local st) →
  (row_ip r1 = row_ip r2 ↔ row_group r1 = row_group r2)
  ∧ (row_group r1 < length (individual_connections st))%nat.
Proof.
  assert (series_rows (render strftime_local st)
          = series_rows (loop 0 [] 0 None
                           (sorted_by sort_key_le (individual_connections st))))
    as ->.
  { unfold render, series_rows. rewrite !omap_app. simpl.
    assert (∀ l : list (string * nat),
              omap (λ s, match s with
                         | endlessh_connection_info _ i _ _ _ st0 _ so g v =>
                             Some (Row i st0 v so g)
                         | _ => None
                         end)
                   (per_ip_sample (ip_locations st)
                      (ip_durations_of (individual_connections st)) <$> l)
              = []) as ->
      by (induction l as [|? l IHl]; csimpl; done).
    assert (∀ l : list (string * nat),
              omap (λ s, match s with
                         | endlessh_connection_info _ i _ _ _ st0 _ so g v =>
                             Some (Row i st0 v so g)
                         | _ => None
                         end)
                   (per_country_sample <$> l)
              = []) as ->
      by (induction l as [|? l IHl]; csimpl; done).
    by rewrite !app_nil_r. }
  intros H1 H2.
  destruct (connection_info_loop_groups 0 [] 0 None
              (sorted_by sort_key_le (individual_connections st)))
    as (final & cur' & Hinj & Hlt & _ & Hcur & Hrows).
  { refine (conj _ (conj _ _));
      [intros i g H; discriminate H
      | intros i j g H; discriminate H
      | intros i H; discriminate H]. }
  pose proof (Hrows r1 H1) as Hg1. pose proof (Hrows r2 H2) as Hg2.
  split.
  - split.
    + intros Heq. rewrite Heq in Hg1. congruence.
    + intros Heq. rewrite Heq in Hg1. by apply (Hinj _ _ _ Hg1 Hg2).
  - specialize (Hlt _ _ Hg1). rewrite sorted_by_length in Hcur. lia.
Qed.

End Table.

Lemma ip_group_identifies_origin_witness :
  (row_ip (Row "203.0.113.5" trapped (Sample.clock 1 - Sample.t0) 0 0)
   = row_ip (Row "203.0.113.5" trapped
                 (Sample.clock 2 - (Sample.t0 + 5000000)) 1 0)
   ↔ 0%nat = 0%nat)
  ∧ (0 < 2)%nat.
Proof.
  apply (ip_group_identifies_origin pretty
           (parse_endlessh_logs Sample.clock Sample.api_down Sample.json_dump
              Sample.isoformat (Sample.scrape_of Sample.same_origin_twice)
              (initial_state None))
           (Row "203.0.113.5" trapped (Sample.clock 1 - Sample.t0) 0 0)
           (Row "203.0.113.5" trapped
                (Sample.clock 2 - (Sample.t0 + 5000000)) 1 0)).
  - vm_compute. apply list_elem_of_here.
  - vm_compute. apply list_elem_of_further, list_elem_of_here.
Defined.

(** ** Quotes in labels *)

Lemma strip_quotes_clean (s : string) : has_quote (strip_quotes s) = false.
Proof.
  induction s as [|c s IH]; [done|]. simpl.
  destruct (decide (c = "034"%char)) as [?|Hne]; [done|].
  simpl. by rewrite decide_False.
Qed.

Lemma strip_quotes_id (s : string) : has_quote s = false → strip_quotes s = s.
Proof.
  induction s as [|c s IH]; [done|]. simpl.
  destruct (decide (c = "034"%char)); [done|]. intros H. by rewrite IH.
Qed.

Section Labels.
Variable clock : nat -> Z.
Variable geoip_api : nat -> string -> option api_reply.
Variable strftime_local : Z -> string.

Lemma connection_info_loop_clean idx gm cur last items :
  Forall stripped_labels_clean
         (connection_info_loop strftime_local idx gm cur last items).
Proof.
  revert idx gm cur last.
  induction items as [|[k c] items IH]; intros idx gm cur last; simpl;
    [constructor|].
  constructor; [done|]. apply IH.
Qed.

(** X14: stripping leaves no double quote and changes nothing else: a
    string without quote is returned as it is; the records of the
    reconciled working set have no quote in country and city, and neither
    have the country and city labels of the per-address samples nor the
    country label of the per-country samples of any exposition. *)
Theorem stripped_labels_have_no_quote
    (s : string) (lines : list line) (st st' : state) :
  has_quote (strip_quotes s) = false
  ∧ (has_quote s = false → strip_quotes s = s)
  ∧ Forall (λ kc : string * conn,
              has_quote (country kc.2) = false ∧ has_quote (city kc.2) = false)
           (rec_conns (reconcile clock geoip_api lines st))
  ∧ Forall stripped_labels_clean (render strftime_local st').
Proof.
  split_and!.
  - apply strip_quotes_clean.
  - apply strip_quotes_id.
  - apply (reconcile_Forall clock geoip_api
             (λ kc, has_quote (country kc.2) = false
                    ∧ has_quote (city kc.2) = false)).
    + intros k c d H. exact H.
    + intros l m g t _ _. simpl. split; apply strip_quotes_clean.
  - unfold render. rewrite !Forall_app. split_and!.
    + repeat constructor.
    + apply connection_info_loop_clean.
    + apply Forall_fmap, Forall_forall. intros kc _. simpl.
      split; apply strip_quotes_clean.
    + repeat constructor.
    + apply Forall_fmap, Forall_forall. intros kc _. simpl.
      apply strip_quotes_clean.
Qed.

End Labels.

Lemma stripped_labels_have_no_quote_witness :
  strip_quotes "Cote d'Ivoire" = "Cote d'Ivoire".
Proof.
  apply (stripped_labels_have_no_quote Sample.clock Sample.api_down pretty
           "Cote d'Ivoire" [] (initial_state None) (initial_state None)).
  reflexivity.
Defined.

Example strip_quotes_removes :
  strip_quotes (String "034" ("Ko" +:+ String "034" "rea")) = "Korea".
Proof. reflexivity. Qed.

(** ** Duplicate open events, and records without their close event *)

Section LastWrite.
Variable clock : nat -> Z.
Variable geoip_api : nat -> string -> option api_reply.
Variable json_load : string -> result (list (string * stored_conn)).
Variable json_dump : list (string * stored_conn) -> string.
Variable fromisoformat : string -> result Z.
Variable isoformat : Z -> string.

Local Abbreviation step := (accept_step clock geoip_api).
Local Abbreviation scan := (reconcile clock geoip_api).
Local Abbreviation parse_logs :=
  (parse_endlessh_logs clock geoip_api json_dump isoformat).

(** After the ACCEPT loop the record under a key is the one of the last
    open event with that key, and a key with no open event keeps what it
    had. *)
Lemma accept_loop_last closed lines acc k :
  match last_open k lines with
  | Some (l, m) =>
      ∃ g t, dict_get k (acc_conns (fold_left (step closed) lines acc))
             = Some (accept_record closed m g t)
             ∧ ∀ s, ts_of l = Some s → t = ts_utc s
  | None =>
      dict_get k (acc_conns (fold_left (step closed) lines acc))
      = dict_get k (acc_conns acc)
  end.
Proof.
  revert acc. induction lines as [|l lines IH]; intros acc; [done|].
  simpl. specialize (IH (step closed acc l)).
  destruct (last_open k lines) as [[l' m']|]; [done|].
  rewrite IH, accept_step_conns.
  destruct (accept_of l) as [m|]; [|done].
  destruct (decide (conn_id (a_ip m) (a_port m) = k)) as [<-|Hne].
  - rewrite dict_get_set_eq. eexists _, _. split; [done|].
    by intros s ->.
  - by rewrite dict_get_set_ne.
Qed.

(** X17: when several open events of the window have the same connection
    id, the record of the working set is the one of the last of them: it
    has its address, port and descriptor, and its timestamp as start. *)
Theorem last_open_event_wins
    (lines : list line) (st : state) (k : string) (r : conn) :
  dict_get k (rec_conns (scan lines st)) = Some r →
  ∃ l m, last_open k lines = Some (l, m)
         ∧ ip r = a_ip m ∧ port r = a_port m ∧ fd r = a_fd m
         ∧ ∀ s, ts_of l = Some s → started r = ts_utc s.
Proof.
  unfold reconcile. simpl. intros Hr.
  apply refresh_trapped_get in Hr as (r1 & Hr1 & Hcase).
  apply close_loop_get in Hr1 as (r0 & Hr0 & Hr1). simpl in Hr0.
  pose proof (accept_loop_last (closed_ports_of lines) lines
    (AcceptAcc [] [] (ip_locations st) (S (ticks st)) (api_calls st)) k)
    as Hlast.
  destruct (last_open k lines) as [[l m]|].
  - destruct Hlast as (g & t & Hget & Hts).
    rewrite Hget in Hr0. injection Hr0 as <-.
    exists l, m. split; [done|].
    assert (ip r1 = a_ip m ∧ port r1 = a_port m ∧ fd r1 = a_fd m
            ∧ started r1 = t) as (Hip & Hport & Hfd & Hstart).
    { rewrite Hr1. by destruct (last_close k lines). }
    destruct Hcase as [[_ ->]|[_ (n & _ & ->)]]; simpl;
      (split_and!; [done..|]); intros s Hs; rewrite Hstart; by apply Hts.
  - rewrite Hlast in Hr0. discriminate Hr0.
Qed.

(** X18: a record that is terminated although no close event of the
    window has its key (its port is the port of a close event of another
    address) keeps the duration 0, is not copied to the leaderboard, and is
    displayed only if the leaderboard already had its key. *)
Theorem collided_record_is_dropped
    (sc : scrape) (st : state) (lines : list line) (k : string) (c : conn) :
  output_6h sc = Some lines →
  dict_get k (rec_conns (scan lines st)) = Some c →
  conn_status c = released →
  last_close k lines = None →
  duration c = 0
  ∧ dict_get k (rec_hall (scan lines st)) = dict_get k (hall_of_fame st)
  ∧ (dict_get k (hall_of_fame (parse_logs sc st)) = None →
     dict_get k (individual_connections (parse_logs sc st)) = None).
Proof.
  intros H6 Hc Hrel Hnone.
  split_and!.
  - unfold reconcile in Hc. simpl in Hc.
    apply refresh_trapped_get in Hc as (r1 & Hr1 & Hcase).
    destruct Hcase as [[_ ->]|[Htr (n & _ & ->)]];
      [|simpl in Hrel; congruence].
    apply close_loop_get in Hr1 as (r0 & Hr0 & ->). rewrite Hnone.
    simpl in Hr0. apply dict_get_Some_elem in Hr0.
    assert (Forall (λ kc : string * conn, duration kc.2 = 0)
      (acc_conns (fold_left (step (closed_ports_of lines)) lines
         (AcceptAcc [] [] (ip_locations st) (S (ticks st)) (api_calls st)))))
      as Hzero.
    { apply accept_loop_Forall; [done | constructor]. }
    by apply (proj1 (Forall_forall _ _) Hzero _ Hr0).
  - unfold reconcile. simpl.
    by destruct (close_loop_untouched lines
      (acc_conns (fold_left (step (closed_ports_of lines)) lines
         (AcceptAcc [] [] (ip_locations st) (S (ticks st)) (api_calls st))),
       hall_of_fame st) k Hnone) as [_ ->].
  - intros Hhall.
    destruct (parse_display clock geoip_api json_dump isoformat sc st lines H6)
      as (Hdisp & _ & _ & Hnd).
    rewrite Hdisp, (dict_update_get _ _ _ Hnd), Hhall.
    destruct (dict_get k (filter is_trapped (rec_conns (scan lines st))))
      as [c'|] eqn:E; [|done].
    apply dict_get_Some_elem, list_elem_of_filter in E as [Htr Hin].
    apply (dict_get_elem_NoDup _ _ _ (reconcile_NoDup clock geoip_api lines st))
      in Hin.
    rewrite Hin in Hc. injection Hc as ->.
    unfold is_trapped in Htr. apply bool_decide_unpack in Htr.
    simpl in Htr. congruence.
Qed.

(** X19: after a pass whose long query and whose write worked, a process
    restarted on the file loads the leaderboard that pass left, whenever
    [json.load] reads back what [json.dump] wrote and [fromisoformat] reads
    back what [isoformat] wrote. *)
Theorem restart_after_pass_restores_leaderboard
    (sc : scrape) (st : state) (lines : list line) :
  output_6h sc = Some lines →
  save_io sc = io_ok →
  json_load (json_dump (data_to_save isoformat
                          (hall_of_fame (parse_logs sc st))))
  = Ok (data_to_save isoformat (hall_of_fame (parse_logs sc st))) →
  (∀ k c, (k, c) ∈ hall_of_fame (parse_logs sc st) →
          fromisoformat (isoformat (started c)) = Ok (started c)) →
  hall_of_fame
    (load_hall_of_fame json_load fromisoformat
       (initial_state (hof_file (parse_logs sc st))))
  = hall_of_fame (parse_logs sc st).
Proof.
  intros H6 Hio Hjson Hiso.
  assert (hof_file (parse_logs sc st)
          = Some (json_dump (data_to_save isoformat
                               (hall_of_fame (parse_logs sc st))))) as ->.
  { unfold parse_endlessh_logs. rewrite H6, Hio. done. }
  destruct (parse_display clock geoip_api json_dump isoformat sc st lines H6)
    as (_ & _ & _ & Hnd).
  unfold load_hall_of_fame, load_try. simpl. rewrite Hjson. simpl.
  rewrite data_to_save_distinct by done.
  rewrite (parse_started_stored fromisoformat isoformat) by done. done.
Qed.

End LastWrite.

Lemma last_open_event_wins_witness :
  ∃ l m, last_open "203.0.113.9:40002" Sample.open_and_closed = Some (l, m)
         ∧ "203.0.113.9" = a_ip m ∧ "40002" = a_port m ∧ "5" = a_fd m
         ∧ ∀ s, ts_of l = Some s → Sample.t0 + 1000000 = ts_utc s.
Proof.
  apply (last_open_event_wins Sample.clock Sample.api_down
           Sample.open_and_closed (initial_state None) "203.0.113.9:40002"
           (Conn "203.0.113.9" "40002" "5" "Unknown" "Unknown" "XX"
                 (Sample.t0 + 1000000) 734500000 released)).
  reflexivity.
Defined.

Lemma collided_record_is_dropped_witness :
  0 = 0
  ∧ dict_get "203.0.113.5:40001"
      (rec_hall (reconcile Sample.clock Sample.api_down Sample.port_collision
                   (initial_state None)))
    = dict_get "203.0.113.5:40001" (hall_of_fame (initial_state None))
  ∧ (dict_get "203.0.113.5:40001"
       (hall_of_fame
          (parse_endlessh_logs Sample.clock Sample.api_down Sample.json_dump
             Sample.isoformat (Sample.scrape_of Sample.port_collision)
             (initial_state None))) = None →
     dict_get "203.0.113.5:40001"
       (individual_connections
          (parse_endlessh_logs Sample.clock Sample.api_down Sample.json_dump
             Sample.isoformat (Sample.scrape_of Sample.port_collision)
             (initial_state None))) = None).
Proof.
  apply (collided_record_is_dropped Sample.clock Sample.api_down
           Sample.json_dump Sample.isoformat
           (Sample.scrape_of Sample.port_collision) (initial_state None)
           Sample.port_collision "203.0.113.5:40001"
           (Conn "203.0.113.5" "40001" "4" "Unknown" "Unknown" "XX"
                 Sample.t0 0 released));
    reflexivity.
Defined.

Lemma restart_after_pass_restores_leaderboard_witness :
  hall_of_fame
    (load_hall_of_fame SampleFile.json_load SampleFile.fromisoformat
       (initial_state
          (hof_file
             (parse_endlessh_logs Sample.clock Sample.api_down
                Sample.json_dump Sample.isoformat (Sample.scrape_of [])
                Sample.with_old_record))))
  = hall_of_fame
      (parse_endlessh_logs Sample.clock Sample.api_down Sample.json_dump
         Sample.isoformat (Sample.scrape_of []) Sample.with_old_record).
Proof.
  apply (restart_after_pass_restores_leaderboard Sample.clock Sample.api_down
           SampleFile.json_load Sample.json_dump SampleFile.fromisoformat
           Sample.isoformat (Sample.scrape_of []) Sample.with_old_record []).
  - reflexivity.
  - reflexivity.
  - reflexivity.
  - intros k c Hin. vm_compute in Hin.
    apply list_elem_of_singleton in Hin. injection Hin as _ ->. reflexivity.
Defined.
